(** * The ldapjs client core: request queue, message ids, dispatcher

    A shallow embedding of [lib/client/client.js].  The client object, its
    sockets, the closures created by [_sendSocket] and the pending timers
    live in one record [World], next to the module's counter of client
    ids; every JavaScript function is a computation in a
    state-and-exception monad over that record.  Calls of the caller's
    callbacks, events emitted on sinks and bytes handed to the socket are
    appended to [trace], which is what the theorems talk about. *)

From stdpp Require Import gmap strings list fin_maps sorting pretty.
From Stdlib Require Import ZArith Lia.

Local Open Scope Z_scope.

(** ** JavaScript values, as far as option defaulting needs them *)

(** The values a caller can put in an options field.  Numbers are the
    integers; [||] only asks whether its left operand is truthy. *)
Inductive JsVal :=
| JUndefined
| JNull
| JBool (b : bool)
| JNum (z : Z)
| JStr (s : string).

Definition truthy (v : JsVal) : bool :=
  match v with
  | JUndefined | JNull => false
  | JBool b => b
  | JNum z => negb (z =? 0)
  | JStr s => negb (String.eqb s "")
  end.

(** [a || b] *)
Definition js_or (a b : JsVal) : JsVal := if truthy a then a else b.

(** [x || d] on a numeric option that may be missing, followed by
    [parseInt(_, 10)], which is the identity on integers. *)
Definition parseInt_or (x : option Z) (d : Z) : Z :=
  match x with
  | Some z => if z =? 0 then d else z
  | None => d
  end.

(** ** Protocol data *)

(** Controls.  The core looks inside one control only: PagedResults, whose
    value is [{size, cookie}]; a missing or empty cookie is the empty list. *)
Inductive Control :=
| PagedResultsControl (size : Z) (cookie : list Byte.byte)
| OtherControl (oid : string) (criticality : bool).

Definition RDN := string.
Definition DN := list RDN.

Inductive Filter :=
| PresenceFilter (attribute : string)
| ParsedFilter (text : string).

Inductive ProtocolOp :=
| AbandonRequest (abandonID : Z)
| CompareRequest (entry : DN) (attribute value : string)
| ModifyDNRequest (entry : DN) (deleteOldRdn : bool) (newRdn : DN)
                  (newSuperior : option DN)
| SearchRequest (baseObject : DN) (scope : JsVal) (filter : Filter)
                (derefAliases sizeLimit timeLimit typesOnly : JsVal)
                (attributes : list string)
| UnbindRequest.

(** A request PDU.  [messageID] is 0 until [_sendSocket] assigns it. *)
Record Message := {
  messageID : Z;
  protocolOp : ProtocolOp;
  controls : list Control
}.

(** [res.status]: a result code from the wire, or the string the close
    handler stores in the response it makes up for an unbind. *)
Inductive Status :=
| Code (c : Z)
| Named (s : string).

Record LDAPResult := {
  r_type : string;
  r_messageID : Z;
  status : Status;
  matchedDN : string;
  errorMessage : string;
  r_controls : list Control
}.

Inductive Err :=
| Error (message : string)
| TypeError (message : string)
| RangeError (message : string)
| ConnectionError (message : string)
| ProtocolError (type : string)
| ServerError (code : Status) (matched message : string).

(** What the router, a timer or the close handler hands to a request's
    handler. *)
Inductive Msg :=
| SearchEntry (mid : Z) (objectName : string) (cs : list Control)
| SearchReference (mid : Z) (uris : list string) (cs : list Control)
| Result (r : LDAPResult)
| Failure (e : Err)
| Foreign (mid : Z) (type : string) (cs : list Control).

(** [msg.messageID]; an [Error] has none. *)
Definition msg_id (m : Msg) : option Z :=
  match m with
  | SearchEntry i _ _ | SearchReference i _ _ | Foreign i _ _ => Some i
  | Result r => Some (r_messageID r)
  | Failure _ => None
  end.

(** [msg.controls] when it is an array. *)
Definition msg_controls (m : Msg) : option (list Control) :=
  match m with
  | SearchEntry _ _ cs | SearchReference _ _ cs | Foreign _ _ cs => Some cs
  | Result r => Some (r_controls r)
  | Failure _ => None
  end.

(** [msg.type] *)
Definition msg_type (m : Msg) : string :=
  match m with
  | SearchEntry _ _ _ => "SearchEntry"
  | SearchReference _ _ _ => "SearchReference"
  | Result r => r_type r
  | Failure _ => ""
  | Foreign _ ty _ => ty
  end.

(** The [expect] argument of [_send]: an array of result codes, or one of
    the two strings. *)
Inductive Expect :=
| Codes (l : list Z)
| ExpectAbandon
| ExpectUnbind.

(** Modelled from the spec: the result codes of lib/errors and
    [Protocol.NEVER_DEREF_ALIASES] of lib/protocol, which are not among the
    sources, with their RFC 4511 values. *)
Definition LDAP_SUCCESS : Z := 0.
Definition LDAP_COMPARE_FALSE : Z := 5.
Definition LDAP_COMPARE_TRUE : Z := 6.
Definition LDAP_OTHER : Z := 80.
Definition NEVER_DEREF_ALIASES : Z := 0.

Definition CMP_EXPECT : Expect := Codes [LDAP_COMPARE_TRUE; LDAP_COMPARE_FALSE].
Definition MAX_MSGID : Z := 2 ^ 31 - 1.

(** [expect.indexOf(status) === -1].  On an array this is strict equality
    with some element, so a string status is never found.  On the string
    ['unbind'] the argument is turned into a string first: the decimal
    digits of a code do not occur in it, a string status occurs when it is
    a substring. *)
Fixpoint is_prefix (p s : string) : bool :=
  match p, s with
  | EmptyString, _ => true
  | String a p', String b s' => Ascii.eqb a b && is_prefix p' s'
  | String _ _, EmptyString => false
  end.

Fixpoint is_substring (p s : string) : bool :=
  is_prefix p s ||
  match s with
  | EmptyString => false
  | String _ s' => is_substring p s'
  end.

Definition not_expected (e : Expect) (s : Status) : bool :=
  match e, s with
  | Codes l, Code c => negb (bool_decide (c ∈ l))
  | Codes _, Named _ => true
  | ExpectAbandon, Code _ => true
  | ExpectAbandon, Named n => negb (is_substring n "abandon")
  | ExpectUnbind, Code _ => true
  | ExpectUnbind, Named n => negb (is_substring n "unbind")
  end.

(** Modelled from the spec: the result codes that have an error of their
    own in [lib/errors], which is not among the sources.  The spec has one
    variant of ServerError per RFC 4511 result code; these are the codes of
    RFC 4511 other than success. *)
Definition ERROR_CODES : list Z :=
  [1; 2; 3; 4; 5; 6; 7; 8; 10; 11; 12; 13; 14; 16; 17; 18; 19; 20; 21;
   32; 33; 34; 36; 48; 49; 50; 51; 52; 53; 54; 64; 65; 66; 67; 68; 69; 71;
   80].

(** Modelled from the spec: [errors.getError] of [lib/errors], which is not
    among the sources.  The spec gives a ServerError(resultCode, matchedDN,
    errorMessage) for a result code that has a variant, and a ProtocolError
    for an LDAPResult whose code has no specific mapping; the ProtocolError
    is given the type of the message, as [messageCallback] does for a
    message that is no LDAPResult. *)
Definition getError (r : LDAPResult) : Err :=
  match status r with
  | Code c =>
      if bool_decide (c ∈ ERROR_CODES)
      then ServerError (Code c) (matchedDN r) (errorMessage r)
      else ProtocolError (r_type r)
  | Named _ => ProtocolError (r_type r)
  end.

(** ** Observable events *)

Inductive Arg :=
| ANull
| AErr (e : Err)
| AMsg (m : Msg)
| AReq (m : Message)
| ABool (b : bool)
| AEmitter (em : nat)
| ASocket (s : nat).

Inductive Event :=
| Called (cb : nat) (args : list Arg)          (* a caller's callback ran *)
| CalledNoop (args : list Arg)                 (* the client's own no-op ran *)
| Emitted (em : nat) (event : string) (arg : Arg)  (* emitter.emit *)
| ClientEmit (event : string) (args : list Arg)    (* self.emit *)
| Wrote (conn : nat) (m : Message)             (* conn.write(message.toBer()) *)
| Ended (conn : nat)                           (* conn.end() *)
| Unsolicited (conn : nat) (m : Msg)           (* logged and dropped *)
| RetryStarted (conn : nat) (strategy : option (option Z * option Z))
               (failAfter : option Z).         (* retry.start() *)

(** The functions the client passes around as [callback]. *)
Inductive Callback :=
| UserCb (k : nat)        (* the caller's function *)
| CompareCb (k : nat)     (* the wrapper [compare] builds around it *)
| NoopCb.                 (* [function () {}] *)

(** ** The request queue *)

Record QueueEntry := {
  qe_msg : Message;
  qe_expect : Expect;
  qe_emitter : option nat;
  qe_cb : Callback
}.

(** [size = None] is [Infinity]. *)
Record RequestQueue := {
  q_size : option Z;
  q_timeout : Z;
  _queue : list QueueEntry;
  _timer : option nat;
  _frozen : bool
}.

(** [new RequestQueue({size, timeout})] *)
Definition new_RequestQueue (size timeout : Z) : RequestQueue :=
  {| q_size := if 0 <? size then Some size else None;
     q_timeout := if 0 <? timeout then timeout else 0;
     _queue := [];
     _timer := None;
     _frozen := false |}.

(** ** Sockets, closures, timers *)

(** [socket.ldap] *)
Record Ldap := {
  ldap_id : string;
  ldap_messageID : Z;
  ldap_messages : gmap Z nat      (* messageID -> handler *)
}.

Record Socket := {
  ldap : option Ldap;             (* deleted by the close handler *)
  unbindMessageID : option Z;
  writable : bool;
  write_throws : bool;            (* whether [conn.write] raises *)
  pendingWrites : list nat        (* write callbacks not yet run *)
}.

(** The variables one call of [_sendSocket] closes over.  The handler
    stored in the request table, the write callback and the timeout
    callback of that call all share them. *)
Record Activation := {
  a_conn : nat;
  a_message : Message;
  a_expect : Expect;
  a_emitter : option nat;
  a_callback : Callback;
  a_timer : option nat;           (* [false] or a timer handle *)
  a_sentEmitter : bool
}.

Inductive Task :=
| RequestTimeout (a : nat)
| QueueTimeout
| IdleTimeout.

Record Retry := {
  strategy : option (option Z * option Z);  (* initialDelay, maxDelay *)
  failAfter : option Z;                     (* [None] is [Infinity] *)
  running : bool
}.

Record World := {
  (* the Client object *)
  url : string;
  timeout : Z;
  idleTimeout : Z;
  reconnect : option (gmap string Z);
  queue : RequestQueue;
  socket : option nat;
  connected : bool;
  connecting : bool;
  destroyed : bool;
  _idleTimer : option nat;
  dialing : option nat;           (* [socket] of the last [_connect] *)
  retries : list Retry;           (* one per [_connect], newest first *)
  (* the heap *)
  sockets : gmap nat Socket;
  acts : gmap nat Activation;
  timers : gmap nat (Task * Z);
  next : nat;
  (* the module's counter of client ids *)
  CLIENT_ID : Z;
  (* what the outside sees *)
  trace : list Event
}.

(** Field updates. *)
Definition set_queue (f : RequestQueue → RequestQueue) (w : World) : World :=
  {| url := url w; timeout := timeout w; idleTimeout := idleTimeout w;
     reconnect := reconnect w; queue := f (queue w); socket := socket w;
     connected := connected w; connecting := connecting w;
     destroyed := destroyed w; _idleTimer := _idleTimer w;
     dialing := dialing w; retries := retries w; sockets := sockets w;
     acts := acts w; timers := timers w; next := next w;
     CLIENT_ID := CLIENT_ID w; trace := trace w |}.

Definition set_socket (s : option nat) (w : World) : World :=
  {| url := url w; timeout := timeout w; idleTimeout := idleTimeout w;
     reconnect := reconnect w; queue := queue w; socket := s;
     connected := connected w; connecting := connecting w;
     destroyed := destroyed w; _idleTimer := _idleTimer w;
     dialing := dialing w; retries := retries w; sockets := sockets w;
     acts := acts w; timers := timers w; next := next w;
     CLIENT_ID := CLIENT_ID w; trace := trace w |}.

Definition set_connected (b : bool) (w : World) : World :=
  {| url := url w; timeout := timeout w; idleTimeout := idleTimeout w;
     reconnect := reconnect w; queue := queue w; socket := socket w;
     connected := b; connecting := connecting w;
     destroyed := destroyed w; _idleTimer := _idleTimer w;
     dialing := dialing w; retries := retries w; sockets := sockets w;
     acts := acts w; timers := timers w; next := next w;
     CLIENT_ID := CLIENT_ID w; trace := trace w |}.

Definition set_connecting (b : bool) (w : World) : World :=
  {| url := url w; timeout := timeout w; idleTimeout := idleTimeout w;
     reconnect := reconnect w; queue := queue w; socket := socket w;
     connected := connected w; connecting := b;
     destroyed := destroyed w; _idleTimer := _idleTimer w;
     dialing := dialing w; retries := retries w; sockets := sockets w;
     acts := acts w; timers := timers w; next := next w;
     CLIENT_ID := CLIENT_ID w; trace := trace w |}.

Definition set_destroyed (b : bool) (w : World) : World :=
  {| url := url w; timeout := timeout w; idleTimeout := idleTimeout w;
     reconnect := reconnect w; queue := queue w; socket := socket w;
     connected := connected w; connecting := connecting w;
     destroyed := b; _idleTimer := _idleTimer w;
     dialing := dialing w; retries := retries w; sockets := sockets w;
     acts := acts w; timers := timers w; next := next w;
     CLIENT_ID := CLIENT_ID w; trace := trace w |}.

Definition set_idleTimer (t : option nat) (w : World) : World :=
  {| url := url w; timeout := timeout w; idleTimeout := idleTimeout w;
     reconnect := reconnect w; queue := queue w; socket := socket w;
     connected := connected w; connecting := connecting w;
     destroyed := destroyed w; _idleTimer := t;
     dialing := dialing w; retries := retries w; sockets := sockets w;
     acts := acts w; timers := timers w; next := next w;
     CLIENT_ID := CLIENT_ID w; trace := trace w |}.

Definition set_dialing (s : option nat) (w : World) : World :=
  {| url := url w; timeout := timeout w; idleTimeout := idleTimeout w;
     reconnect := reconnect w; queue := queue w; socket := socket w;
     connected := connected w; connecting := connecting w;
     destroyed := destroyed w; _idleTimer := _idleTimer w;
     dialing := s; retries := retries w; sockets := sockets w;
     acts := acts w; timers := timers w; next := next w;
     CLIENT_ID := CLIENT_ID w; trace := trace w |}.

Definition set_retries (f : list Retry → list Retry) (w : World) : World :=
  {| url := url w; timeout := timeout w; idleTimeout := idleTimeout w;
     reconnect := reconnect w; queue := queue w; socket := socket w;
     connected := connected w; connecting := connecting w;
     destroyed := destroyed w; _idleTimer := _idleTimer w;
     dialing := dialing w; retries := f (retries w); sockets := sockets w;
     acts := acts w; timers := timers w; next := next w;
     CLIENT_ID := CLIENT_ID w; trace := trace w |}.

Definition set_sockets (f : gmap nat Socket → gmap nat Socket) (w : World)
  : World :=
  {| url := url w; timeout := timeout w; idleTimeout := idleTimeout w;
     reconnect := reconnect w; queue := queue w; socket := socket w;
     connected := connected w; connecting := connecting w;
     destroyed := destroyed w; _idleTimer := _idleTimer w;
     dialing := dialing w; retries := retries w; sockets := f (sockets w);
     acts := acts w; timers := timers w; next := next w;
     CLIENT_ID := CLIENT_ID w; trace := trace w |}.

Definition set_acts (f : gmap nat Activation → gmap nat Activation)
  (w : World) : World :=
  {| url := url w; timeout := timeout w; idleTimeout := idleTimeout w;
     reconnect := reconnect w; queue := queue w; socket := socket w;
     connected := connected w; connecting := connecting w;
     destroyed := destroyed w; _idleTimer := _idleTimer w;
     dialing := dialing w; retries := retries w; sockets := sockets w;
     acts := f (acts w); timers := timers w; next := next w;
     CLIENT_ID := CLIENT_ID w; trace := trace w |}.

Definition set_timers (f : gmap nat (Task * Z) → gmap nat (Task * Z))
  (w : World) : World :=
  {| url := url w; timeout := timeout w; idleTimeout := idleTimeout w;
     reconnect := reconnect w; queue := queue w; socket := socket w;
     connected := connected w; connecting := connecting w;
     destroyed := destroyed w; _idleTimer := _idleTimer w;
     dialing := dialing w; retries := retries w; sockets := sockets w;
     acts := acts w; timers := f (timers w); next := next w;
     CLIENT_ID := CLIENT_ID w; trace := trace w |}.

Definition set_next (n : nat) (w : World) : World :=
  {| url := url w; timeout := timeout w; idleTimeout := idleTimeout w;
     reconnect := reconnect w; queue := queue w; socket := socket w;
     connected := connected w; connecting := connecting w;
     destroyed := destroyed w; _idleTimer := _idleTimer w;
     dialing := dialing w; retries := retries w; sockets := sockets w;
     acts := acts w; timers := timers w; next := n;
     CLIENT_ID := CLIENT_ID w; trace := trace w |}.

Definition set_trace (f : list Event → list Event) (w : World) : World :=
  {| url := url w; timeout := timeout w; idleTimeout := idleTimeout w;
     reconnect := reconnect w; queue := queue w; socket := socket w;
     connected := connected w; connecting := connecting w;
     destroyed := destroyed w; _idleTimer := _idleTimer w;
     dialing := dialing w; retries := retries w; sockets := sockets w;
     acts := acts w; timers := timers w; next := next w;
     CLIENT_ID := CLIENT_ID w; trace := f (trace w) |}.

Definition set_CLIENT_ID (c : Z) (w : World) : World :=
  {| url := url w; timeout := timeout w; idleTimeout := idleTimeout w;
     reconnect := reconnect w; queue := queue w; socket := socket w;
     connected := connected w; connecting := connecting w;
     destroyed := destroyed w; _idleTimer := _idleTimer w;
     dialing := dialing w; retries := retries w; sockets := sockets w;
     acts := acts w; timers := timers w; next := next w;
     CLIENT_ID := c; trace := trace w |}.

(** ** The monad: state, and exceptions that keep the state *)

Inductive Outcome (A : Type) :=
| Ok (a : A)
| Throw (e : Err).
Arguments Ok {A} a.
Arguments Throw {A} e.

Definition M (A : Type) : Type := World → Outcome A * World.

Definition ret {A} (a : A) : M A := λ w, (Ok a, w).

Definition bind {A B} (m : M A) (k : A → M B) : M B :=
  λ w, match m w with
       | (Ok a, w') => k a w'
       | (Throw e, w') => (Throw e, w')
       end.

Definition throw {A} (e : Err) : M A := λ w, (Throw e, w).

(** [try { m } catch (e) { h e }] *)
Definition try_catch {A} (m : M A) (h : Err → M A) : M A :=
  λ w, match m w with
       | (Throw e, w') => h e w'
       | r => r
       end.

Definition gets {A} (f : World → A) : M A := λ w, (Ok (f w), w).
Definition modify (f : World → World) : M unit := λ w, (Ok tt, f w).

Declare Scope M_scope.
Delimit Scope M_scope with M.
Bind Scope M_scope with M.
Notation "'let*' x ':=' m 'in' k" := (bind m (λ x, k))
  (at level 10, x name, m at level 100, k at level 200) : M_scope.
Notation "m ;; k" := (bind m (λ _, k))
  (at level 100, k at level 200, right associativity) : M_scope.
Local Open Scope M_scope.

Definition when (b : bool) (m : M unit) : M unit := if b then m else ret tt.

(** [xs.forEach(f)] *)
Fixpoint forEach {A} (xs : list A) (f : A → M unit) : M unit :=
  match xs with
  | [] => ret tt
  | x :: xs' => f x ;; forEach xs' f
  end.

Definition emit (e : Event) : M unit := modify (set_trace (λ t, t ++ [e])).

(** The state a computation ends in, and the events it added. *)
Definition exec {A} (m : M A) (w : World) : World := snd (m w).
Definition result {A} (m : M A) (w : World) : Outcome A := fst (m w).

(** ** Timers *)

Definition setTimeout (task : Task) (delay : Z) : M nat :=
  let* t := gets next in
  modify (set_next (S t)) ;;
  modify (set_timers (insert t (task, delay))) ;;
  ret t.

Definition clearTimeout (t : nat) : M unit :=
  modify (set_timers (delete t)).

(** ** Message ids *)

(** [socket.ldap.getNextMessageID] on the ldap record itself. *)
Definition getNextMessageID (l : Ldap) : Z * Ldap :=
  let n := ldap_messageID l + 1 in
  let n' := if MAX_MSGID <=? n then 1 else n in
  (n', {| ldap_id := ldap_id l; ldap_messageID := n';
          ldap_messages := ldap_messages l |}).

(** The record [initSocket] attaches to a new socket. *)
Definition initSocket_ldap (id : string) : Ldap :=
  {| ldap_id := id; ldap_messageID := 0; ldap_messages := ∅ |}.

(** The counter after [n] calls on a new transport, and what call number
    [n + 1] returns. *)
Definition after_calls (n : N) : Ldap :=
  N.iter n (λ l, snd (getNextMessageID l)) (initSocket_ldap "").

Definition nth_messageID (n : N) : Z :=
  fst (getNextMessageID (after_calls n)).

(** ** Client ids *)

(** [++CLIENT_ID].  The counter is a double: it counts exactly up to 2^53
    and stays there. *)
Definition js_incr (c : Z) : Z := if c <? 2 ^ 53 then c + 1 else c.

(** [nextClientId()] on the module's counter: the id it returns and the
    counter it leaves. *)
Definition nextClientId (CLIENT_ID : Z) : Z * Z :=
  let c := js_incr CLIENT_ID in
  (if c =? MAX_MSGID then 1 else c, c).

(** ** RequestQueue methods *)

Definition freeze : M unit :=
  modify (set_queue (λ q,
    {| q_size := q_size q; q_timeout := q_timeout q; _queue := _queue q;
       _timer := _timer q; _frozen := true |})).

Definition thaw : M unit :=
  modify (set_queue (λ q,
    {| q_size := q_size q; q_timeout := q_timeout q; _queue := _queue q;
       _timer := _timer q; _frozen := false |})).

Definition set_q_queue (l : list QueueEntry) : M unit :=
  modify (set_queue (λ q,
    {| q_size := q_size q; q_timeout := q_timeout q; _queue := l;
       _timer := _timer q; _frozen := _frozen q |})).

Definition set_q_timer (t : option nat) : M unit :=
  modify (set_queue (λ q,
    {| q_size := q_size q; q_timeout := q_timeout q; _queue := _queue q;
       _timer := t; _frozen := _frozen q |})).

(** [this._queue.length >= this.size] *)
Definition full (q : RequestQueue) : bool :=
  match q_size q with
  | Some n => n <=? Z.of_nat (length (_queue q))
  | None => false
  end.

(** [res.status === c] *)
Definition status_is (s : Status) (c : Z) : bool :=
  match s with
  | Code z => z =? c
  | Named _ => false
  end.

Definition arg_truthy (a : Arg) : bool :=
  match a with
  | ANull => false
  | ABool b => b
  | _ => true
  end.

(** The wrapper [compare] passes to [_send]:
    [function (err, res) { if (err) return callback(err);
     return callback(null, (res.status === LDAP_COMPARE_TRUE), res); }].
    It calls the caller's function once, or raises on [res.status]. *)
Definition compare_cb (k : nat) (err res : Arg) : Outcome Event :=
  if arg_truthy err then Ok (Called k [err])
  else
    match res with
    | AMsg (Result r) =>
        Ok (Called k [ANull; ABool (status_is (status r) LDAP_COMPARE_TRUE);
                      res])
    | ANull => Throw (TypeError "Cannot read property 'status' of null")
    | _ => Ok (Called k [ANull; ABool false; res])
    end.

(** The call a callback of the client makes visible; a missing argument
    is [undefined]. *)
Definition call_event (cb : Callback) (args : list Arg) : Outcome Event :=
  match cb with
  | UserCb k => Ok (Called k args)
  | NoopCb => Ok (CalledNoop args)
  | CompareCb k => compare_cb k (nth 0 args ANull) (nth 1 args ANull)
  end.

Definition lift_event (o : Outcome Event) : M unit :=
  match o with
  | Ok ev => emit ev
  | Throw e => throw e
  end.

Definition call (cb : Callback) (args : list Arg) : M unit :=
  lift_event (call_event cb args).

Definition purge_cb (e : QueueEntry) : M unit :=
  call (qe_cb e) [AErr (Error "RequestQueue timeout")].

Definition enqueue (msg : Message) (expect : Expect) (emitter : option nat)
  (cb : Callback) : M bool :=
  let* q := gets queue in
  if full q || _frozen q then ret false
  else
    set_q_queue (_queue q ++ [{| qe_msg := msg; qe_expect := expect;
                                qe_emitter := emitter; qe_cb := cb |}]) ;;
    when (0 <? q_timeout q)
         (match _timer q with
          | Some _ =>
              let* t := setTimeout QueueTimeout (q_timeout q) in
              set_q_timer (Some t)
          | None => ret tt
          end) ;;
    ret true.

Definition flush (cb : QueueEntry → M unit) : M unit :=
  let* q := gets queue in
  match _timer q with
  | Some t => clearTimeout t ;; set_q_timer None
  | None => ret tt
  end ;;
  let items := _queue q in
  set_q_queue [] ;;
  forEach items cb.

Definition purge : M unit := flush purge_cb.

(** The function [enqueue] hands to [setTimeout]. *)
Definition onQueueTimeout : M unit := freeze ;; purge.

(** ** The client: construction and connection *)

Record ReconnectOptions := {
  o_initialDelay : option Z;
  o_maxDelay : option Z;
  o_failAfter : option Z
}.

Record Options := {
  o_url : string;
  o_timeout : option Z;
  o_idleTimeout : option Z;
  o_reconnect : option ReconnectOptions;
  o_queuing : option bool;
  o_queueSize : option Z;
  o_queueTimeout : option Z
}.

(** The object the constructor stores in [this.reconnect]. *)
Definition reconnect_object (r : ReconnectOptions) : gmap string Z :=
  <["initialDelay" := parseInt_or (o_initialDelay r) 100]>
    (<["maxDelay" := parseInt_or (o_maxDelay r) 10000]>
       (<["failAfter" := parseInt_or (o_failAfter r) 0]> ∅)).

Definition get_socket (s : nat) : M Socket :=
  let* ss := gets sockets in
  match ss !! s with
  | Some sock => ret sock
  | None => throw (TypeError "socket is undefined")
  end.

(** [conn.ldap], which the close handler deletes. *)
Definition conn_ldap (s : nat) : M Ldap :=
  let* sock := get_socket s in
  match ldap sock with
  | Some l => ret l
  | None => throw (TypeError "Cannot read property of undefined")
  end.

Definition set_ldap (s : nat) (l : option Ldap) : M unit :=
  modify (set_sockets (alter (λ sock,
    {| ldap := l; unbindMessageID := unbindMessageID sock;
       writable := writable sock; write_throws := write_throws sock;
       pendingWrites := pendingWrites sock |}) s)).

Definition set_messages (s : nat) (f : gmap Z nat → gmap Z nat) : M unit :=
  let* l := conn_ldap s in
  set_ldap s (Some {| ldap_id := ldap_id l; ldap_messageID := ldap_messageID l;
                      ldap_messages := f (ldap_messages l) |}).

(** [connectSocket] up to the point where it waits for the network: a new
    socket, with the record [initSocket] gives it. *)
Definition connectSocket : M nat :=
  let* s := gets next in
  let* u := gets url in
  modify (set_next (S s)) ;;
  modify (set_sockets (insert s
    {| ldap := Some (initSocket_ldap u); unbindMessageID := None;
       writable := false; write_throws := false; pendingWrites := [] |})) ;;
  modify (set_dialing (Some s)) ;;
  ret s.

(** The retry call [_connect] configures.  A missing property of
    [this.reconnect] reads as [undefined], here [None]. *)
Definition new_retry (rc : option (gmap string Z)) : Retry :=
  match rc with
  | Some o =>
      {| strategy := Some (o !! "minDelay", o !! "maxDelay");
         failAfter := match o !! "failAfter" with
                      | Some n => if n =? 0 then None else Some n
                      | None => None
                      end;
         running := true |}
  | None => {| strategy := None; failAfter := Some 1; running := true |}
  end.

(** [retry.start()] makes the first call of [connectSocket] at once. *)
Definition _connect : M unit :=
  let* c := gets connecting in
  if c then ret tt
  else
    let* rc := gets reconnect in
    let r := new_retry rc in
    modify (set_connecting true) ;;
    let* s := connectSocket in
    modify (set_retries (cons r)) ;;
    emit (RetryStarted s (strategy r) (failAfter r)).

(** [new Client(options)], in a process that has given out no client id
    yet. *)
Definition new_Client (o : Options) : World :=
  let q := new_RequestQueue (parseInt_or (o_queueSize o) 0)
                            (parseInt_or (o_queueTimeout o) 0) in
  let w :=
    {| url := o_url o;
       timeout := parseInt_or (o_timeout o) 0;
       idleTimeout := parseInt_or (o_idleTimeout o) 0;
       reconnect := reconnect_object <$> o_reconnect o;
       queue := q; socket := None; connected := false; connecting := false;
       destroyed := false; _idleTimer := None; dialing := None;
       retries := []; sockets := ∅; acts := ∅; timers := ∅; next := 0%nat;
       CLIENT_ID := 0; trace := [] |} in
  exec (when (negb (default true (o_queuing o))) freeze ;; _connect) w.

(** ** Idle accounting *)

Definition isIdle (disable : bool) : M bool :=
  if disable then ret false
  else
    let* s := gets socket in
    let* c := gets connected in
    match s with
    | Some s =>
        if c then
          let* l := conn_ldap s in
          ret (bool_decide (map_to_list (ldap_messages l) = []))
        else ret false
    | None => ret false
    end.

Definition _updateIdle (override : bool) : M unit :=
  let* it := gets idleTimeout in
  if it =? 0 then ret tt
  else
    let* idle := isIdle override in
    let* t := gets _idleTimer in
    if idle then
      match t with
      | None =>
          let* h := setTimeout IdleTimeout it in
          modify (set_idleTimer (Some h))
      | Some _ => ret tt
      end
    else
      match t with
      | Some h => clearTimeout h ;; modify (set_idleTimer None)
      | None => ret tt
      end.

(** The idle timer's function. *)
Definition onIdleTimeout : M unit :=
  let* idle := isIdle false in
  when idle (emit (ClientEmit "idle" [])).

(** ** [_sendSocket] and the functions nested in it *)

Definition activation (a : nat) : M Activation :=
  let* m := gets acts in
  match m !! a with
  | Some act => ret act
  | None => throw (TypeError "closure is undefined")
  end.

Definition set_a_message (a : nat) (m : Message) : M unit :=
  modify (set_acts (alter (λ act,
    {| a_conn := a_conn act; a_message := m; a_expect := a_expect act;
       a_emitter := a_emitter act; a_callback := a_callback act;
       a_timer := a_timer act; a_sentEmitter := a_sentEmitter act |}) a)).

Definition set_a_timer (a : nat) (t : option nat) : M unit :=
  modify (set_acts (alter (λ act,
    {| a_conn := a_conn act; a_message := a_message act;
       a_expect := a_expect act; a_emitter := a_emitter act;
       a_callback := a_callback act; a_timer := t;
       a_sentEmitter := a_sentEmitter act |}) a)).

Definition set_a_sentEmitter (a : nat) (b : bool) : M unit :=
  modify (set_acts (alter (λ act,
    {| a_conn := a_conn act; a_message := a_message act;
       a_expect := a_expect act; a_emitter := a_emitter act;
       a_callback := a_callback act; a_timer := a_timer act;
       a_sentEmitter := b |}) a)).

(** [if (timer) clearTimeout(timer)] *)
Definition clear_timer (a : nat) : M unit :=
  let* act := activation a in
  match a_timer act with
  | Some t => clearTimeout t
  | None => ret tt
  end.

(** [conn.write(message.toBer(), cb)]: raises when the socket does, else
    the bytes are on their way and [cb] waits for the flush. *)
Definition write (conn : nat) (m : Message) (cb : option nat) : M unit :=
  let* sock := get_socket conn in
  if write_throws sock then throw (Error "write failed")
  else
    emit (Wrote conn m) ;;
    match cb with
    | Some a =>
        modify (set_sockets (alter (λ sock,
          {| ldap := ldap sock; unbindMessageID := unbindMessageID sock;
             writable := writable sock; write_throws := write_throws sock;
             pendingWrites := pendingWrites sock ++ [a] |}) conn))
    | None => ret tt
    end.

(** [_done(event, obj)] for the variables [act] of the call. *)
Definition done_event (act : Activation) (event : string) (obj : Arg)
  : Outcome Event :=
  match a_emitter act with
  | Some em =>
      if String.eqb event "error" && negb (a_sentEmitter act)
      then call_event (a_callback act) [obj]
      else Ok (Emitted em event obj)
  | None =>
      if String.eqb event "error" then call_event (a_callback act) [obj]
      else call_event (a_callback act) [ANull; obj]
  end.

Definition _done (a : nat) (event : string) (obj : Arg) : M unit :=
  let* act := activation a in
  lift_event (done_event act event obj).

(** The inner loop of [_continuePagedSearch]: the first PagedResults
    control of the request gets the cookie. *)
Fixpoint update_cookie (cookie : list Byte.byte) (cs : list Control)
  : option (list Control) :=
  match cs with
  | [] => None
  | PagedResultsControl sz _ :: cs' =>
      Some (PagedResultsControl sz cookie :: cs')
  | c :: cs' => cons c <$> update_cookie cookie cs'
  end.

(** The outer loop, over the controls of the response. *)
Fixpoint _continuePagedSearch_from (a : nat) (res : list Control) : M bool :=
  match res with
  | [] => ret false
  | PagedResultsControl _ cookie :: rest =>
      if bool_decide (cookie = []) then _continuePagedSearch_from a rest
      else
        let* act := activation a in
        let message := a_message act in
        match update_cookie cookie (controls message) with
        | Some cs =>
            let message' := {| messageID := messageID message;
                               protocolOp := protocolOp message;
                               controls := cs |} in
            set_a_message a message' ;;
            try_catch
              (write (a_conn act) message' None ;; ret true)
              (λ e, clear_timer a ;;
                    call (a_callback act) [AErr e] ;;
                    ret false)
        | None => _continuePagedSearch_from a rest
        end
  | _ :: rest => _continuePagedSearch_from a rest
  end.

Definition _continuePagedSearch (a : nat) (msg : Msg) : M bool :=
  match msg_controls msg with
  | Some cs => _continuePagedSearch_from a cs
  | None => ret false
  end.

Definition is_abandon (e : Expect) : bool :=
  match e with ExpectAbandon => true | _ => false end.

(** The last branch of [messageCallback]: the event and the object it
    passes to [_done] once the request is over. *)
Definition verdict (expect : Expect) (msg : Msg) : string * Arg :=
  match msg with
  | Result r =>
      if not_expected expect (status r) then ("error", AErr (getError r))
      else ("end", AMsg msg)
  | Failure e => ("error", AErr e)
  | _ => ("error", AErr (ProtocolError (msg_type msg)))
  end.

(** The handler [_sendSocket] stores in the request table. *)
Definition messageCallback (a : nat) (msg : Msg) : M unit :=
  clear_timer a ;;
  let* act := activation a in
  if is_abandon (a_expect act) then _done a "end" ANull
  else
    match msg with
    | SearchEntry _ _ _ => _done a "searchEntry" (AMsg msg)
    | SearchReference _ _ _ => _done a "searchReference" (AMsg msg)
    | _ =>
        let* continued := _continuePagedSearch a msg in
        if continued then ret tt
        else
          let* act := activation a in
          set_messages (a_conn act) (delete (messageID (a_message act))) ;;
          _updateIdle false ;;
          let '(event, obj) := verdict (a_expect act) msg in
          _done a event obj
    end.

(** [new LDAPResult({status: 80, errorMessage: ...})] *)
Definition timeout_result : LDAPResult :=
  {| r_type := "LDAPResult"; r_messageID := 0; status := Code LDAP_OTHER;
     matchedDN := ""; errorMessage := "request timeout (client interrupt)";
     r_controls := [] |}.

Definition onRequestTimeout (a : nat) : M unit :=
  let* act := activation a in
  emit (ClientEmit "timeout" [AReq (a_message act)]) ;;
  let* l := conn_ldap (a_conn act) in
  match ldap_messages l !! messageID (a_message act) with
  | Some h => messageCallback h (Result timeout_result)
  | None => ret tt
  end.

(** [conn.end()] *)
Definition end_socket (conn : nat) : M unit :=
  emit (Ended conn) ;;
  modify (set_sockets (alter (λ sock,
    {| ldap := ldap sock; unbindMessageID := unbindMessageID sock;
       writable := false; write_throws := write_throws sock;
       pendingWrites := pendingWrites sock |}) conn)).

(** [message.id] is the accessor of [LDAPMessage] for [messageID]; it is
    declared in lib/messages/message.js, which is not among the sources. *)
Definition writeCallback (a : nat) : M unit :=
  let* act := activation a in
  match a_expect act with
  | ExpectAbandon => call (a_callback act) [ANull]
  | ExpectUnbind =>
      modify (set_sockets (alter (λ sock,
        {| ldap := ldap sock;
           unbindMessageID := Some (messageID (a_message act));
           writable := writable sock; write_throws := write_throws sock;
           pendingWrites := pendingWrites sock |}) (a_conn act))) ;;
      modify (set_connected false) ;;
      end_socket (a_conn act)
  | Codes _ =>
      match a_emitter act with
      | Some em =>
          set_a_sentEmitter a true ;;
          call (a_callback act) [ANull; AEmitter em]
      | None => ret tt
      end
  end.

Definition _sendSocket (message : Message) (expect : Expect)
  (emitter : option nat) (callback : Callback) : M unit :=
  let* s := gets socket in
  match s with
  | None => throw (TypeError "Cannot read property 'ldap' of null")
  | Some conn =>
      let* l := conn_ldap conn in
      let '(mid, l') := getNextMessageID l in
      set_ldap conn (Some l') ;;
      let message' := {| messageID := mid; protocolOp := protocolOp message;
                         controls := controls message |} in
      let* a := gets next in
      modify (set_next (S a)) ;;
      modify (set_acts (insert a
        {| a_conn := conn; a_message := message'; a_expect := expect;
           a_emitter := emitter; a_callback := callback; a_timer := None;
           a_sentEmitter := false |})) ;;
      set_messages conn (insert mid a) ;;
      _updateIdle true ;;
      let* t := gets timeout in
      when (negb (t =? 0))
           (let* h := setTimeout (RequestTimeout a) t in
            set_a_timer a (Some h)) ;;
      try_catch
        (write conn message' (Some a))
        (λ e, clear_timer a ;; call callback [AErr e])
  end.

(** ** Sending, flushing, closing *)

(** [_send] and [_flushQueue] call each other: [depth] bounds how deep
    the calls may nest, and running out of it is the engine's RangeError. *)
Fixpoint _send (depth : nat) (message : Message) (expect : Expect)
  (emitter : option nat) (callback : Callback) (_bypass : bool) : M unit :=
  let* s := gets socket in
  let* c := gets connected in
  let* ss := gets sockets in
  let is_writable := match s with
                     | Some conn => from_option writable false (ss !! conn)
                     | None => false
                     end in
  if _bypass && is_writable then _sendSocket message expect emitter callback
  else if negb (bool_decide (is_Some s)) || negb c then
    let* ok := enqueue message expect emitter callback in
    when (negb ok) (call callback [AErr (Error "unable to enqueue request")]) ;;
    let* rc := gets reconnect in
    when (bool_decide (is_Some rc)) _connect
  else
    flush (λ e,
      match depth with
      | O => throw (RangeError "Maximum call stack size exceeded")
      | S d => _send d (qe_msg e) (qe_expect e) (qe_emitter e) (qe_cb e) false
      end) ;;
    _sendSocket message expect emitter callback.

(** Nesting deeper than this does not occur: the inner flush finds the
    queue empty (see [_send_depth]). *)
Definition call_depth : nat := 2.

Definition _flushQueue : M unit :=
  flush (λ e, _send call_depth (qe_msg e) (qe_expect e) (qe_emitter e)
                    (qe_cb e) false).

Definition unbind_request : Message :=
  {| messageID := 0; protocolOp := UnbindRequest; controls := [] |}.

Definition unbind (callback : option Callback) : M unit :=
  let cb := default NoopCb callback in
  let* s := gets socket in
  match s with
  | None => call cb []
  | Some _ => _send call_depth unbind_request ExpectUnbind None cb false
  end.

(** What each ['destroy'] listener of [_connect] does to its retry call. *)
Definition abort_if_running (r : Retry) : Retry :=
  {| strategy := strategy r; failAfter := failAfter r; running := false |}.

Definition destroy : M unit :=
  modify (set_destroyed true) ;;
  freeze ;;
  flush (λ e, call (qe_cb e) [AErr (Error "client destroyed")]) ;;
  unbind None ;;
  emit (ClientEmit "destroy" []) ;;
  modify (set_retries (map abort_if_running)).

(** [Object.keys] of the request table: its keys are array indices, which
    come out in ascending order. *)
Definition Object_keys (m : gmap Z nat) : list Z :=
  merge_sort Z.le (map fst (map_to_list m)).

(** Modelled from the spec: [new UnbindResponse({messageID: msgid})] of
    lib/messages/unbind_response.js, which is not among the sources, with
    the [status = 'unbind'] that [_onClose] gives it.  The spec has the
    pending Unbind resolve successfully on close, which is what an
    LDAPResult with this status does in [messageCallback]. *)
Definition unbind_response (msgid : Z) : LDAPResult :=
  {| r_type := "UnbindResponse"; r_messageID := msgid; status := Named "unbind";
     matchedDN := ""; errorMessage := ""; r_controls := [] |}.

(** The body of the loop in [_onClose], for the socket [s] that closed. *)
Definition onClose_entry (s : nat) (msgid : Z) : M unit :=
  let* sock := get_socket s in
  let* l := conn_ldap s in
  let err :=
    if bool_decide (unbindMessageID sock = Some msgid)
    then Result (unbind_response msgid)
    else Failure (ConnectionError (ldap_id l +:+ " closed")) in
  match ldap_messages l !! msgid with
  | Some h => set_messages s (delete msgid) ;; messageCallback h err
  | None => ret tt
  end.

Definition _onClose (had_err : bool) : M unit :=
  let* so := gets socket in
  match so with
  | None => throw (TypeError "Cannot call method of null")
  | Some s =>
      modify (set_socket None) ;;
      modify (set_connected false) ;;
      emit (ClientEmit "close" [ABool had_err]) ;;
      let* l := conn_ldap s in
      forEach (Object_keys (ldap_messages l)) (onClose_entry s) ;;
      set_ldap s None ;;
      let* rc := gets reconnect in
      when (had_err && bool_decide (is_Some rc)) _connect
  end.

(** ** What the environment does *)

(** Socket [conn], for which [postSetup] has run, closes: the listener on
    its ['close'] event is [self._onClose.bind(self)].  The handler is not
    told which socket the event comes from and works on [this.socket]. *)
Definition onSocketClose (conn : nat) (had_err : bool) : M unit :=
  _onClose had_err.

(** The router: a parsed message arrives on socket [conn]. *)
Definition onMessage (conn : nat) (msg : Msg) : M unit :=
  let* l := conn_ldap conn in
  match msg_id msg ≫= (ldap_messages l !!.) with
  | Some h => messageCallback h msg
  | None => emit (Unsolicited conn msg)
  end.

(** The oldest write of [conn] is flushed: its callback runs. *)
Definition onFlushed (conn : nat) : M unit :=
  let* sock := get_socket conn in
  match pendingWrites sock with
  | [] => ret tt
  | a :: rest =>
      modify (set_sockets (alter (λ sock,
        {| ldap := ldap sock; unbindMessageID := unbindMessageID sock;
           writable := writable sock; write_throws := write_throws sock;
           pendingWrites := rest |}) conn)) ;;
      writeCallback a
  end.

(** Timer [t] expires. *)
Definition fire (t : nat) : M unit :=
  let* ts := gets timers in
  match ts !! t with
  | None => ret tt
  | Some (task, _) =>
      modify (set_timers (delete t)) ;;
      match task with
      | RequestTimeout a => onRequestTimeout a
      | QueueTimeout => onQueueTimeout
      | IdleTimeout => onIdleTimeout
      end
  end.

Definition finish_retry (r : Retry) : Retry :=
  {| strategy := strategy r; failAfter := failAfter r; running := false |}.

(** [socket.ldap.id = nextClientId() + '__' + socket.ldap.id]: the number
    is put in front in decimal. *)
Definition prefix_ldap_id (s : nat) : M unit :=
  let* c := gets CLIENT_ID in
  let '(id, c') := nextClientId c in
  modify (set_CLIENT_ID c') ;;
  let* l := conn_ldap s in
  set_ldap s (Some {| ldap_id := pretty id +:+ "__" +:+ ldap_id l;
                      ldap_messageID := ldap_messageID l;
                      ldap_messages := ldap_messages l |}).

(** The socket being dialled connects: it gets its client id and, no
    setup listener being registered, [setupClient] reports success to the
    retry call, which runs the callback given to [backoff.call] unless it
    was aborted. *)
Definition onConnect : M unit :=
  let* d := gets dialing in
  match d with
  | None => ret tt
  | Some s =>
      modify (set_sockets (alter (λ sock,
        {| ldap := ldap sock; unbindMessageID := unbindMessageID sock;
           writable := true; write_throws := write_throws sock;
           pendingWrites := pendingWrites sock |}) s)) ;;
      prefix_ldap_id s ;;
      modify (set_socket (Some s)) ;;
      let* rs := gets retries in
      when (from_option running false (head rs))
           (modify (set_retries (map finish_retry)) ;;
            modify (set_connecting false) ;;
            modify (set_connected true) ;;
            emit (ClientEmit "connect" [ASocket s]) ;;
            _flushQueue)
  end.

(** ** The public operations *)

Record SearchOptions := {
  so_scope : JsVal;
  so_filter : option Filter;
  so_derefAliases : JsVal;
  so_sizeLimit : JsVal;
  so_timeLimit : JsVal;
  so_typesOnly : JsVal;
  so_attributes : option (list string)
}.

(** The SearchRequest that [search] builds from its options object. *)
Definition search_request (base : DN) (options : SearchOptions)
  (controls : list Control) : Message :=
  {| messageID := 0;
     protocolOp :=
       SearchRequest base
         (js_or (so_scope options) (JStr "base"))
         (default (PresenceFilter "objectclass") (so_filter options))
         (js_or (so_derefAliases options) (JNum NEVER_DEREF_ALIASES))
         (js_or (so_sizeLimit options) (JNum 0))
         (js_or (so_timeLimit options) (JNum 10))
         (js_or (so_typesOnly options) (JBool false))
         (default [] (so_attributes options));
     controls := controls |}.

Section API.
(** [dn.parse] of lib/dn.js, which is not among the sources; [None]
    when it throws.  An RDN stands for its string form. *)
Variable dn_parse : string → option DN.

Definition parse_dn (name : string) : M DN :=
  match dn_parse name with
  | Some d => ret d
  | None => throw (Error "invalid DN")
  end.

Definition abandon (messageID : Z) (controls : list Control)
  (callback : nat) : M unit :=
  _send call_depth
    {| messageID := 0; protocolOp := AbandonRequest messageID;
       controls := controls |}
    ExpectAbandon None (UserCb callback) false.

Definition compare (name attr value : string) (controls : list Control)
  (callback : nat) : M unit :=
  let* entry := parse_dn name in
  _send call_depth
    {| messageID := 0; protocolOp := CompareRequest entry attr value;
       controls := controls |}
    CMP_EXPECT None (CompareCb callback) false.

(** The request [modifyDN] hands to [_send], from the two parsed names. *)
Definition modifyDN_request (DN newDN : DN) (controls : list Control)
  : M Message :=
  if negb (bool_decide (length newDN = 1%nat)) then
    match newDN with
    | [] => throw (TypeError "Cannot call method 'toString' of undefined")
    | rdn :: rest =>
        let* newRdn := parse_dn rdn in
        ret {| messageID := 0;
               protocolOp := ModifyDNRequest DN true newRdn (Some rest);
               controls := controls |}
    end
  else
    ret {| messageID := 0;
           protocolOp := ModifyDNRequest DN true newDN None;
           controls := controls |}.

Definition modifyDN (name newName : string) (controls : list Control)
  (callback : nat) : M unit :=
  let* DN := parse_dn name in
  let* newDN := parse_dn newName in
  let* req := modifyDN_request DN newDN controls in
  _send call_depth req (Codes [LDAP_SUCCESS]) None (UserCb callback) false.

Definition search (base : string) (options : SearchOptions)
  (controls : list Control) (callback : nat) (_bypass : bool) : M unit :=
  let* baseObject := parse_dn base in
  let req := search_request baseObject options controls in
  let* em := gets next in
  modify (set_next (S em)) ;;
  _send call_depth req (Codes [LDAP_SUCCESS]) (Some em) (UserCb callback)
        _bypass.
End API.

(** ** Vocabulary of the statements *)

(** [ev] hands the error [e] to a request's continuation: its callback,
    or the ['error'] event of its sink. *)
Inductive delivers_error (e : Err) : Event → Prop :=
| error_to_callback k : delivers_error e (Called k [AErr e])
| error_to_noop : delivers_error e (CalledNoop [AErr e])
| error_to_sink em : delivers_error e (Emitted em "error" (AErr e)).

(** [ev] hands the final response [m] to a request's continuation with no
    error. *)
Inductive delivers_end (m : Msg) : Event → Prop :=
| end_to_callback k : delivers_end m (Called k [ANull; AMsg m])
| end_to_compare k b : delivers_end m (Called k [ANull; ABool b; AMsg m])
| end_to_noop : delivers_end m (CalledNoop [ANull; AMsg m])
| end_to_sink em : delivers_end m (Emitted em "end" (AMsg m)).

(** The call that hands the error [e] to the callback [cb] and nothing
    else. *)
Definition failure (e : Err) (cb : Callback) : Event :=
  match cb with
  | UserCb k | CompareCb k => Called k [AErr e]
  | NoopCb => CalledNoop [AErr e]
  end.

(** How a request with the sink [emitter] and the callback [cb] learns
    of the error [e]: through the ['error'] event of the sink once the sink
    has been handed to the caller, through the callback before that and
    when there is no sink. *)
Definition error_to (emitter : option nat) (sentEmitter : bool)
  (cb : Callback) (e : Err) : Event :=
  match emitter with
  | Some em => if sentEmitter then Emitted em "error" (AErr e) else failure e cb
  | None => failure e cb
  end.

(** How it learns that the response [r] ended it well: through the
    ['end'] event of the sink, or through the callback, called with [null]
    and [r]; the wrapper of [compare] calls the caller's function with its
    verdict between the two. *)
Definition end_to (emitter : option nat) (cb : Callback) (r : LDAPResult)
  : Event :=
  match emitter, cb with
  | Some em, _ => Emitted em "end" (AMsg (Result r))
  | None, UserCb k => Called k [ANull; AMsg (Result r)]
  | None, CompareCb k =>
      Called k [ANull; ABool (status_is (status r) LDAP_COMPARE_TRUE);
                AMsg (Result r)]
  | None, NoopCb => CalledNoop [ANull; AMsg (Result r)]
  end.

(** What a request that expects [expect] is told when [msg] ends it: an
    LDAPResult with an expected status ends it well, one with another
    status fails it with the error of that status, an error fails it with
    that error, and any other message with a ProtocolError. *)
Definition completion (expect : Expect) (emitter : option nat)
  (sentEmitter : bool) (cb : Callback) (msg : Msg) : Event :=
  match msg with
  | Result r =>
      if not_expected expect (status r)
      then error_to emitter sentEmitter cb (getError r)
      else end_to emitter cb r
  | Failure e => error_to emitter sentEmitter cb e
  | _ => error_to emitter sentEmitter cb (ProtocolError (msg_type msg))
  end.

(** The same for the request of a call of [_sendSocket]. *)
Definition fails_with (act : Activation) (e : Err) : Event :=
  error_to (a_emitter act) (a_sentEmitter act) (a_callback act) e.

Definition ends_with (act : Activation) (r : LDAPResult) : Event :=
  end_to (a_emitter act) (a_callback act) r.

Definition completes_with (act : Activation) (msg : Msg) : Event :=
  completion (a_expect act) (a_emitter act) (a_sentEmitter act)
             (a_callback act) msg.

(** The client's current socket, if any, still has its ldap record. *)
Definition socket_ok (w : World) : Prop :=
  ∀ s, socket w = Some s →
       ∃ sock l, sockets w !! s = Some sock ∧ ldap sock = Some l.

(** The request table [l] of socket [s]: every entry is the handler of a
    call of [_sendSocket] on [s] whose request carries the entry's key, and
    the id recorded for the unbind is the key of an unbind. *)
Definition entry_ok (s : nat) (unbindID : option Z) (k : Z)
  (act : Activation) : Prop :=
  a_conn act = s ∧ messageID (a_message act) = k ∧
  (unbindID = Some k → a_expect act = ExpectUnbind) ∧
  (a_expect act = ExpectAbandon → ∃ c, a_callback act = UserCb c).

Definition table_ok (w : World) (s : nat) (sock : Socket) (l : Ldap) : Prop :=
  ∀ k h, ldap_messages l !! k = Some h →
         ∃ act, acts w !! h = Some act ∧
                entry_ok s (unbindMessageID sock) k act.

(** What the request under key [k] is told when the close handler comes
    to it: the ConnectionError, or success with the made-up unbind
    response when [k] is the recorded unbind.  An abandon, whose callback
    has run after the write, is not failed: it gets an ['end'] with
    nothing, which calls its callback again. *)
Definition closes_as (unbindID : option Z) (ldap_id : string) (k : Z)
  (act : Activation) (ev : Event) : Prop :=
  (a_expect act ≠ ExpectAbandon → unbindID ≠ Some k →
   ev = fails_with act (ConnectionError (ldap_id +:+ " closed"))) ∧
  (unbindID = Some k → ev = ends_with act (unbind_response k)) ∧
  (a_expect act = ExpectAbandon →
   ∃ c, a_callback act = UserCb c ∧
        ev = match a_emitter act with
             | Some em => Emitted em "end" ANull
             | None => Called c [ANull; ANull]
             end).

Definition closes (w : World) (sock : Socket) (l : Ldap) (k : Z)
  (ev : Event) : Prop :=
  ∃ h act, ldap_messages l !! k = Some h ∧ acts w !! h = Some act ∧
           closes_as (unbindMessageID sock) (ldap_id l) k act ev.

Definition request_timeLimit (m : Message) : option JsVal :=
  match protocolOp m with
  | SearchRequest _ _ _ _ _ tl _ _ => Some tl
  | _ => None
  end.

(** The first PagedResults control with a cookie, as the outer loop of
    [_continuePagedSearch] meets it. *)
Fixpoint paged_cookie (cs : list Control) : option (list Byte.byte) :=
  match cs with
  | [] => None
  | PagedResultsControl _ cookie :: rest =>
      if bool_decide (cookie = []) then paged_cookie rest else Some cookie
  | _ :: rest => paged_cookie rest
  end.

Definition is_paged (c : Control) : bool :=
  match c with PagedResultsControl _ _ => true | OtherControl _ _ => false end.

(** A stand-in for [dn.parse] in the examples: the name is cut at its
    commas; a name without a comma, the empty one included, is a DN of one
    RDN. *)
Fixpoint split_rdns (cur : string) (s : string) : DN :=
  match s with
  | EmptyString => [cur]
  | String c s' =>
      if Ascii.eqb c (Ascii.ascii_of_nat 44) then cur :: split_rdns "" s'
      else split_rdns (cur +:+ String c "") s'
  end.

Definition parse_commas (s : string) : option DN := Some (split_rdns "" s).

(** The socket [sock] with the table of its ldap record [l] changed by
    [f]: what [set_messages] stores. *)
Definition with_messages (f : gmap Z nat → gmap Z nat) (l : Ldap)
  (sock : Socket) : Socket :=
  {| ldap := Some {| ldap_id := ldap_id l; ldap_messageID := ldap_messageID l;
                     ldap_messages := f (ldap_messages l) |};
     unbindMessageID := unbindMessageID sock; writable := writable sock;
     write_throws := write_throws sock; pendingWrites := pendingWrites sock |}.

Definition with_controls (cs : list Control) (m : Message) : Message :=
  {| messageID := messageID m; protocolOp := protocolOp m; controls := cs |}.

Definition with_message (m : Message) (act : Activation) : Activation :=
  {| a_conn := a_conn act; a_message := m; a_expect := a_expect act;
     a_emitter := a_emitter act; a_callback := a_callback act;
     a_timer := a_timer act; a_sentEmitter := a_sentEmitter act |}.

(** [_continuePagedSearch] finds nothing to continue: no cookie in the
    response, or no PagedResults control in the request. *)
Definition unpaged (act : Activation) (msg : Msg) : Prop :=
  (msg_controls msg ≫= paged_cookie) = None ∨
  Forall (λ c, is_paged c = false) (controls (a_message act)).

Definition is_search_event (msg : Msg) : bool :=
  match msg with
  | SearchEntry _ _ _ | SearchReference _ _ _ => true
  | _ => false
  end.

(** The record [_sendSocket] makes for its call, with the id it drew. *)
Definition sent (conn : nat) (m : Message) (mid : Z) (e : Expect)
  (em : option nat) (cb : Callback) (tm : option nat) : Activation :=
  {| a_conn := conn;
     a_message := {| messageID := mid; protocolOp := protocolOp m;
                     controls := controls m |};
     a_expect := e; a_emitter := em; a_callback := cb; a_timer := tm;
     a_sentEmitter := false |}.

Definition compare_request (entry : DN) (attr value : string)
  (controls : list Control) (mid : Z) : Message :=
  {| messageID := mid; protocolOp := CompareRequest entry attr value;
     controls := controls |}.

Definition compare_response (mid code : Z) (cs : list Control) : LDAPResult :=
  {| r_type := "CompareResponse"; r_messageID := mid; status := Code code;
     matchedDN := ""; errorMessage := ""; r_controls := cs |}.

(** Computations that leave the queue, [this.socket] and [this.connected]
    alone, whether they return or raise. *)
Definition keeps {A} (m : M A) : Prop :=
  ∀ w, queue (m w).2 = queue w ∧ socket (m w).2 = socket w ∧
       connected (m w).2 = connected w.

(** Connected, and nothing queued. *)
Definition steady (w : World) : Prop :=
  _queue (queue w) = [] ∧ is_Some (socket w) ∧ connected w = true.

(** ** Clients and exchanges used in the examples *)

Definition plain_options : Options :=
  {| o_url := "ldap://127.0.0.1:389"; o_timeout := None;
     o_idleTimeout := None; o_reconnect := None; o_queuing := None;
     o_queueSize := None; o_queueTimeout := None |}.

Definition timeout_options : Options :=
  {| o_url := "ldap://127.0.0.1:389"; o_timeout := Some 50;
     o_idleTimeout := None; o_reconnect := None; o_queuing := None;
     o_queueSize := None; o_queueTimeout := None |}.

Definition queue_options : Options :=
  {| o_url := "ldap://127.0.0.1:389"; o_timeout := None;
     o_idleTimeout := None; o_reconnect := None; o_queuing := None;
     o_queueSize := None; o_queueTimeout := Some 1000 |}.

Definition reconnect_options : Options :=
  {| o_url := "ldap://127.0.0.1:389"; o_timeout := None;
     o_idleTimeout := None;
     o_reconnect := Some {| o_initialDelay := Some 500;
                            o_maxDelay := Some 8000; o_failAfter := None |};
     o_queuing := None; o_queueSize := None; o_queueTimeout := None |}.

(** A client whose first connection attempt succeeded. *)
Definition connected_client (o : Options) : World :=
  exec onConnect (new_Client o).

Definition sample_request : Message :=
  {| messageID := 0; protocolOp := AbandonRequest 1; controls := [] |}.

(** A client with a queue timeout of one second, still dialling, after
    its first [enqueue]. *)
Definition first_enqueue : World :=
  exec (enqueue sample_request ExpectAbandon None (UserCb 0))
       (new_Client queue_options).

Definition all_options : SearchOptions :=
  {| so_scope := JStr "sub"; so_filter := None; so_derefAliases := JUndefined;
     so_sizeLimit := JUndefined; so_timeLimit := JUndefined;
     so_typesOnly := JUndefined; so_attributes := None |}.

Definition search_options (timeLimit : JsVal) : SearchOptions :=
  {| so_scope := JStr "sub"; so_filter := Some (ParsedFilter "(cn=*)");
     so_derefAliases := JUndefined; so_sizeLimit := JUndefined;
     so_timeLimit := timeLimit; so_typesOnly := JUndefined;
     so_attributes := None |}.

Definition cookie_a : list Byte.byte := [Byte.x61].

(** A search with a page size of 5 is out and its sink handed over. *)
Definition paged_search_sent : World :=
  exec (search parse_commas "dc=x" all_options [PagedResultsControl 5 []] 3
               false ;;
        onFlushed 0)
       (connected_client plain_options).

(** The same search without the control. *)
Definition plain_search_sent : World :=
  exec (search parse_commas "dc=x" all_options [] 3 false ;; onFlushed 0)
       (connected_client plain_options).

(** The SearchResultDone of a page, with the server's cookie. *)
Definition page_done (cookie : list Byte.byte) : Msg :=
  Result {| r_type := "SearchResponse"; r_messageID := 1; status := Code 0;
            matchedDN := ""; errorMessage := "";
            r_controls := [PagedResultsControl 0 cookie] |}.

Definition paged_request (cookie : list Byte.byte) : Message :=
  {| messageID := 1;
     protocolOp :=
       SearchRequest ["dc=x"] (JStr "sub") (PresenceFilter "objectclass")
                     (JNum 0) (JNum 0) (JNum 10) (JBool false) [];
     controls := [PagedResultsControl 5 cookie] |}.

Definition paged_activation : Activation :=
  {| a_conn := 0; a_message := paged_request []; a_expect := Codes [0];
     a_emitter := Some 1%nat; a_callback := UserCb 3; a_timer := None;
     a_sentEmitter := true |}.

Definition paged_ldap : Ldap :=
  {| ldap_id := "1__ldap://127.0.0.1:389"; ldap_messageID := 1;
     ldap_messages := {[ 1 := 2%nat ]} |}.

Definition paged_socket : Socket :=
  {| ldap := Some paged_ldap; unbindMessageID := None; writable := true;
     write_throws := false; pendingWrites := [] |}.

(** A connected client with a 50 ms request timeout that has sent one
    compare. *)
Definition waiting_compare : World :=
  exec (compare parse_commas "cn=a,dc=x" "sn" "b" [] 7)
       (connected_client timeout_options).

Definition compare_activation : Activation :=
  {| a_conn := 0;
     a_message := compare_request ["cn=a"; "dc=x"] "sn" "b" [] 1;
     a_expect := CMP_EXPECT; a_emitter := None;
     a_callback := CompareCb 7; a_timer := Some 2%nat;
     a_sentEmitter := false |}.

Definition compare_ldap : Ldap :=
  {| ldap_id := "1__ldap://127.0.0.1:389"; ldap_messageID := 1;
     ldap_messages := {[ 1 := 1%nat ]} |}.

Definition compare_socket : Socket :=
  {| ldap := Some compare_ldap; unbindMessageID := None; writable := true;
     write_throws := false; pendingWrites := [1%nat] |}.

(** The same client, after an abandon instead, written out. *)
Definition abandon_sent : World :=
  exec (abandon 5 [] 8 ;; onFlushed 0) (connected_client timeout_options).

(** A compare, a search whose sink was handed over and an unbind that has
    been written out are in the table when the socket closes. *)
Definition three_pending : World :=
  exec (compare parse_commas "cn=a,dc=x" "sn" "b" [] 7 ;;
        search parse_commas "dc=x" all_options [] 3 false ;;
        onFlushed 0 ;; onFlushed 0 ;;
        unbind (Some (UserCb 9)) ;; onFlushed 0)
       (connected_client plain_options).

Definition three_ldap : Ldap :=
  {| ldap_id := "1__ldap://127.0.0.1:389"; ldap_messageID := 3;
     ldap_messages := <[1 := 1%nat]> (<[2 := 3%nat]> (<[3 := 4%nat]> ∅)) |}.

Definition three_socket : Socket :=
  {| ldap := Some three_ldap; unbindMessageID := Some 3; writable := false;
     write_throws := false; pendingWrites := [] |}.

(** An abandon has been written out and stays in the table. *)
Definition abandon_pending : World :=
  exec (abandon 5 [] 8 ;; onFlushed 0) (connected_client plain_options).

(** A compare under way on a connected client without timeouts. *)
Definition compare_sent : World :=
  exec (compare parse_commas "cn=a,dc=x" "sn" "b" [] 7)
       (connected_client plain_options).

Definition compare_sent_activation : Activation :=
  sent 0 (compare_request ["cn=a"; "dc=x"] "sn" "b" [] 0) 1 CMP_EXPECT None
       (CompareCb 7) None.

(** The same on a client with a reconnect policy. *)
Definition reconnect_compare_sent : World :=
  exec (compare parse_commas "cn=a,dc=x" "sn" "b" [] 7)
       (connected_client reconnect_options).

(** A compare that carries a PagedResults control of its own. *)
Definition paged_compare_sent : World :=
  exec (compare parse_commas "cn=a,dc=x" "sn" "b" [PagedResultsControl 5 []] 7)
       (connected_client plain_options).

(** A connected client with a reconnect policy, after [destroy()]. *)
Definition destroyed_client : World :=
  exec destroy (connected_client reconnect_options).

(** Its unbind is flushed and the socket closes with [had_err]. *)
Definition closed_after_destroy (had_err : bool) : World :=
  exec (onFlushed 0 ;; _onClose had_err) destroyed_client.

(** ** Client ids and the [controls] argument *)

(** The counter after [n] calls in a new process, and what call number
    [n + 1] returns. *)
Definition CLIENT_ID_after (n : N) : Z :=
  N.iter n (λ c, snd (nextClientId c)) 0.

Definition nth_client_id (n : N) : Z :=
  fst (nextClientId (CLIENT_ID_after n)).

(** What a caller passes as [controls]: an array without holes, whose
    elements are Controls ([Some]) or something else ([None]), one Control,
    or anything else. *)
Inductive ControlsArg :=
| ControlsArray (items : list (option Control))
| ControlsOne (c : Control)
| ControlsOther.

(** The [forEach] of [validateControls]: it raises at the first element
    that is no Control. *)
Fixpoint check_controls (items : list (option Control))
  : Outcome (list Control) :=
  match items with
  | [] => Ok []
  | Some c :: rest =>
      match check_controls rest with
      | Ok cs => Ok (c :: cs)
      | Throw e => Throw e
      end
  | None :: _ => Throw (TypeError "controls must be [Control]")
  end.

Definition validateControls (controls : ControlsArg)
  : Outcome (list Control) :=
  match controls with
  | ControlsArray items => check_controls items
  | ControlsOne c => Ok [c]
  | ControlsOther => Throw (TypeError "controls must be [Control]")
  end.

(** ** Vocabulary for the queue *)

(** [enqueue] called for each of [es] in turn: its answers. *)
Fixpoint enqueue_all (es : list QueueEntry) : M (list bool) :=
  match es with
  | [] => ret []
  | e :: es' =>
      let* b := enqueue (qe_msg e) (qe_expect e) (qe_emitter e) (qe_cb e) in
      let* bs := enqueue_all es' in
      ret (b :: bs)
  end.

(** The entry [enqueue] pushes. *)
Definition queued (msg : Message) (expect : Expect) (emitter : option nat)
  (cb : Callback) : QueueEntry :=
  {| qe_msg := msg; qe_expect := expect; qe_emitter := emitter; qe_cb := cb |}.

(** ** Frames *)

(** Computations that leave the part [f] of the state alone, whether they
    return or raise. *)
Definition frames {A B} (f : World → B) (m : M A) : Prop :=
  ∀ w, f (m w).2 = f w.

(** The fields of the Client object, its idle timer apart. *)
Definition client_part (w : World) :=
  (url w, timeout w, idleTimeout w, reconnect w, queue w, socket w,
   connected w, connecting w, destroyed w, dialing w, retries w).

(** ** The command line of [bin/ldapjs-add] *)

(** What [JSON.parse] returns. *)
#[warnings="-register-all"] Inductive Json :=
| JsonArray (items : list Json)
| JsonObject (fields : list (string * Json))
| JsonAtom (v : JsVal).

(** [o.forEach(function (i) { parsed.file.push(o); })]: one push for
    each element of [o], of [o] itself. *)
Fixpoint push_for_each (o : Json) (items file : list Json) : list Json :=
  match items with
  | [] => file
  | _ :: rest => push_for_each o rest (file ++ [o])
  end.

(** The loop over [parsed._args], on the parsed arguments. *)
Fixpoint collect_args (args file : list Json) : list Json :=
  match args with
  | [] => file
  | o :: rest =>
      collect_args rest
        match o with
        | JsonArray items => push_for_each o items file
        | _ => file ++ [o]
        end
  end.

(** [parsed.file] when no [-f] is given; [None] is the [null] that ends
    in [usage(1, ...)]. *)
Definition file_of_args (args : list Json) : option (list Json) :=
  match collect_args args [] with
  | [] => None
  | file => Some file
  end.

(** ** More clients and exchanges for the examples *)

Definition small_queue_options : Options :=
  {| o_url := "ldap://127.0.0.1:389"; o_timeout := None;
     o_idleTimeout := None; o_reconnect := None; o_queuing := None;
     o_queueSize := Some 2; o_queueTimeout := None |}.

Definition no_queue_options : Options :=
  {| o_url := "ldap://127.0.0.1:389"; o_timeout := None;
     o_idleTimeout := None; o_reconnect := None; o_queuing := Some false;
     o_queueSize := None; o_queueTimeout := None |}.

Definition idle_options : Options :=
  {| o_url := "ldap://127.0.0.1:389"; o_timeout := None;
     o_idleTimeout := Some 3000; o_reconnect := None; o_queuing := None;
     o_queueSize := None; o_queueTimeout := None |}.

(** Three compares waiting for a connection. *)
Definition three_compares : list QueueEntry :=
  [queued (compare_request ["cn=a"] "sn" "b" [] 0) CMP_EXPECT None (CompareCb 1);
   queued (compare_request ["cn=b"] "sn" "b" [] 0) CMP_EXPECT None (CompareCb 2);
   queued (compare_request ["cn=c"] "sn" "b" [] 0) CMP_EXPECT None (CompareCb 3)].

(** The environment: from now on [conn.write] raises on socket [s]. *)
Definition break_socket (s : nat) : M unit :=
  modify (set_sockets (alter (λ sock,
    {| ldap := ldap sock; unbindMessageID := unbindMessageID sock;
       writable := writable sock; write_throws := true;
       pendingWrites := pendingWrites sock |}) s)).

(** The socket a client is dialling. *)
Definition dialled_ldap : Ldap := initSocket_ldap "ldap://127.0.0.1:389".

Definition dialled_socket : Socket :=
  {| ldap := Some dialled_ldap; unbindMessageID := None; writable := false;
     write_throws := false; pendingWrites := [] |}.

(** The socket of a client that has connected, as the first of its
    process, and has sent nothing yet. *)
Definition fresh_ldap : Ldap := initSocket_ldap "1__ldap://127.0.0.1:389".

Definition fresh_socket (writable throws : bool) : Socket :=
  {| ldap := Some fresh_ldap; unbindMessageID := None; writable := writable;
     write_throws := throws; pendingWrites := [] |}.

(** A connected client whose socket refuses writes. *)
Definition broken_client : World :=
  exec (break_socket 0) (connected_client plain_options).

(** A connected client with a request left in its queue. *)
Definition connected_with_queue : World :=
  exec (enqueue sample_request ExpectAbandon None (UserCb 0))
       (connected_client plain_options).

Definition abandon_activation : Activation :=
  {| a_conn := 0;
     a_message := {| messageID := 1; protocolOp := AbandonRequest 5;
                     controls := [] |};
     a_expect := ExpectAbandon; a_emitter := None; a_callback := UserCb 8;
     a_timer := None; a_sentEmitter := false |}.

Definition abandon_ldap : Ldap :=
  {| ldap_id := "1__ldap://127.0.0.1:389"; ldap_messageID := 1;
     ldap_messages := {[ 1 := 1%nat ]} |}.

Definition abandon_socket : Socket :=
  {| ldap := Some abandon_ldap; unbindMessageID := None; writable := true;
     write_throws := false; pendingWrites := [] |}.

(** The paged search of [paged_search_sent], on a socket that has started
    to refuse writes. *)
Definition paged_search_broken : World :=
  exec (break_socket 0) paged_search_sent.

Definition broken_paged_socket : Socket :=
  {| ldap := Some paged_ldap; unbindMessageID := None; writable := true;
     write_throws := true; pendingWrites := [] |}.

(** A compare and a search made while the first connection is dialled. *)
Definition two_queued : World :=
  exec (compare parse_commas "cn=a,dc=x" "sn" "b" [] 7 ;;
        search parse_commas "dc=x" all_options [] 3 false)
       (new_Client plain_options).

Definition no_such_object : LDAPResult :=
  {| r_type := "SearchResponse"; r_messageID := 1; status := Code 32;
     matchedDN := "dc=x"; errorMessage := ""; r_controls := [] |}.

(** * Theorems *)

(** ** Message ids *)

Lemma getNextMessageID_fst l :
  fst (getNextMessageID l) =
  if MAX_MSGID <=? ldap_messageID l + 1 then 1 else ldap_messageID l + 1.
Proof. reflexivity. Qed.

Lemma getNextMessageID_counter l :
  ldap_messageID (snd (getNextMessageID l)) = fst (getNextMessageID l).
Proof. reflexivity. Qed.

Lemma after_calls_succ n :
  after_calls (N.succ n) = snd (getNextMessageID (after_calls n)).
Proof. unfold after_calls. by rewrite N.iter_succ. Qed.

Lemma MAX_MSGID_eq : MAX_MSGID = 2147483647.
Proof. reflexivity. Qed.

(** The counter after [n] calls, in closed form. *)
Lemma after_calls_counter n :
  ldap_messageID (after_calls n) =
  if (Z.of_N n =? 0) then 0 else (Z.of_N n - 1) mod (MAX_MSGID - 1) + 1.
Proof.
  induction n as [|n IH] using N.peano_ind; [reflexivity|].
  rewrite after_calls_succ, getNextMessageID_counter, getNextMessageID_fst, IH.
  rewrite MAX_MSGID_eq, N2Z.inj_succ.
  destruct (Z.eqb_spec (Z.of_N n) 0) as [->|Hn].
  - reflexivity.
  - destruct (Z.eqb_spec (Z.succ (Z.of_N n)) 0) as [?|_]; [lia|].
    destruct (Z.leb_spec 2147483647 ((Z.of_N n - 1) mod (2147483647 - 1) + 1 + 1));
      Z.div_mod_to_equations; lia.
Qed.

Lemma nth_messageID_after n :
  nth_messageID n = ldap_messageID (after_calls (N.succ n)).
Proof. by rewrite after_calls_succ, getNextMessageID_counter. Qed.

Lemma nth_messageID_closed n :
  nth_messageID n = Z.of_N n mod (MAX_MSGID - 1) + 1.
Proof.
  rewrite nth_messageID_after, after_calls_counter, N2Z.inj_succ.
  destruct (Z.eqb_spec (Z.succ (Z.of_N n)) 0); [lia|].
  f_equal. f_equal. lia.
Qed.

(** C1, as the code has it.  The counter of a new transport is 0 and the
    first call of [getNextMessageID] returns 1.  Every call returns a value
    between 1 and 2^31 - 2; the value after [v] is [v + 1] as long as [v]
    is below 2^31 - 2, and 1 after 2^31 - 2, which call number 2^31 - 2
    returns.  So 0 is never returned and every id lies in [1, 2^31 - 1]. *)
Theorem messageID_sequence :
  (∀ id, ldap_messageID (initSocket_ldap id) = 0) ∧
  nth_messageID 0 = 1 ∧
  nth_messageID 2147483645 = MAX_MSGID - 1 ∧
  ∀ n : N,
    1 ≤ nth_messageID n ≤ MAX_MSGID - 1 ∧
    nth_messageID (N.succ n) =
      (if nth_messageID n <? MAX_MSGID - 1 then nth_messageID n + 1 else 1).
Proof.
  split; [reflexivity|]. split; [reflexivity|].
  split; [by rewrite nth_messageID_closed|].
  intros n. rewrite !nth_messageID_closed, N2Z.inj_succ, MAX_MSGID_eq.
  split; [Z.div_mod_to_equations; lia|].
  destruct (Z.ltb_spec (Z.of_N n mod (2147483647 - 1) + 1) (2147483647 - 1));
    Z.div_mod_to_equations; lia.
Qed.

(** C1 as stated fails: the call after the one that returned 2^31 - 2
    returns 1, and no call ever returns 2^31 - 1. *)
Lemma messageID_skips_MAX_MSGID :
  nth_messageID 2147483645 = MAX_MSGID - 1 ∧
  nth_messageID 2147483646 = 1 ∧
  ¬ ∃ n : N, nth_messageID n = MAX_MSGID.
Proof.
  split; [by rewrite nth_messageID_closed|].
  split; [by rewrite nth_messageID_closed|].
  intros [n Hn]. rewrite nth_messageID_closed, MAX_MSGID_eq in Hn.
  Z.div_mod_to_equations; lia.
Qed.

(** ** The request queue *)

(** C4 fails on the code.  [enqueue] asks [this._timer !== null] before
    it sets the timer, and the timer is [null] from the constructor on:
    an [enqueue] on a queue without a timer leaves it without one and
    starts none, whatever the timeout and whether or not the queue was
    empty. *)
Theorem enqueue_never_starts_timer (w : World) msg expect emitter cb :
  _timer (queue w) = None →
  _timer (queue (exec (enqueue msg expect emitter cb) w)) = None ∧
  timers (exec (enqueue msg expect emitter cb) w) = timers w.
Proof.
  intros Ht. unfold exec, enqueue, bind, gets. cbn.
  destruct (full (queue w) || _frozen (queue w)); cbn; [done|].
  destruct (0 <? q_timeout (queue w)); cbn; rewrite ?Ht; cbn; done.
Qed.

(** The first [enqueue] of a queue with a timeout of one second: the
    entry is accepted, the queue is no longer empty, no timer runs. *)
Lemma enqueue_never_starts_timer_witness :
  q_timeout (queue (new_Client queue_options)) = 1000 ∧
  _queue (queue (new_Client queue_options)) = [] ∧
  result (enqueue sample_request ExpectAbandon None (UserCb 0))
         (new_Client queue_options) = Ok true ∧
  length (_queue (queue first_enqueue)) = 1%nat ∧
  _timer (queue first_enqueue) = None ∧
  timers first_enqueue = timers (new_Client queue_options).
Proof.
  do 4 (split; [vm_compute; reflexivity|]).
  apply (enqueue_never_starts_timer (new_Client queue_options)).
  vm_compute; reflexivity.
Defined.

(** Nothing else sets the timer either: no operation of the queue leaves
    one behind. *)
Lemma flush_leaves_no_timer w cb :
  (∀ e w', _timer (queue w') = None → _timer (queue (exec (cb e) w')) = None) →
  _timer (queue w) = None →
  _timer (queue (exec (flush cb) w)) = None.
Proof.
  intros Hcb Ht. unfold exec, flush, bind, gets. cbn. rewrite Ht. cbn.
  set (w1 := set_queue _ w). assert (H1 : _timer (queue w1) = None) by done.
  clearbody w1. induction (_queue (queue w)) as [|e es IH] in w1, H1 |- *; cbn; [done|].
  unfold bind. specialize (Hcb e w1 H1). unfold exec in Hcb.
  destruct (cb e w1) as [[[]|err] w2]; cbn in *; [by apply IH|done].
Qed.

(** ** Reconnection policy *)

(** C5 fails on the code.  The constructor stores the configured delay
    under [initialDelay]; [_connect] reads [this.reconnect.minDelay], which
    no one sets, so the strategy it builds gets [undefined] as its initial
    delay whatever was configured, next to the configured [maxDelay]. *)
Theorem configured_initialDelay_is_not_used (r : ReconnectOptions) :
  strategy (new_retry (Some (reconnect_object r))) =
    Some (None, Some (parseInt_or (o_maxDelay r) 10000)) ∧
  reconnect_object r !! "initialDelay" =
    Some (parseInt_or (o_initialDelay r) 100) ∧
  failAfter (new_retry (Some (reconnect_object r))) =
    (if parseInt_or (o_failAfter r) 0 =? 0 then None
     else Some (parseInt_or (o_failAfter r) 0)) ∧
  strategy (new_retry None) = None ∧
  failAfter (new_retry None) = Some 1.
Proof. repeat split; reflexivity. Qed.

(** A client configured with [initialDelay: 500, maxDelay: 8000]. *)
Example initialDelay_500_is_dropped :
  reconnect (new_Client reconnect_options) ≫= (.!! "initialDelay") = Some 500
  ∧ trace (new_Client reconnect_options) =
    [RetryStarted 0 (Some (None, Some 8000)) None].
Proof. split; reflexivity. Qed.

(** ** modifyDN *)

(** C9.  [modifyDN] parses both names and hands [_send] a ModifyDNRequest
    for the parsed entry, with the success code as expectation and the
    caller's callback.  When the parsed new DN has more than one RDN,
    [newRdn] is its first RDN and [newSuperior] the remaining ones;
    otherwise the whole new DN is [newRdn] and there is no [newSuperior];
    [deleteOldRdn] is true in both cases.  [dn.parse] is a parameter: it is
    taken to return DNs of at least one RDN, and to read the string form of
    the first RDN, which the code parses again, as the DN of that RDN. *)
Theorem modifyDN_request_shape (parse : string → option DN)
  (name newName : string) (DN newDN : DN) (controls : list Control)
  (callback : nat) (w : World) :
  parse name = Some DN → parse newName = Some newDN →
  newDN ≠ [] →
  (∀ rdn rest, newDN = rdn :: rest → rest ≠ [] → parse rdn = Some [rdn]) →
  modifyDN parse name newName controls callback w =
    _send call_depth
      {| messageID := 0;
         protocolOp :=
           if bool_decide (1 < length newDN)%nat
           then ModifyDNRequest DN true (take 1 newDN) (Some (drop 1 newDN))
           else ModifyDNRequest DN true newDN None;
         controls := controls |}
      (Codes [LDAP_SUCCESS]) None (UserCb callback) false w.
Proof.
  intros Hn Hnew Hne Hrdn.
  unfold modifyDN, modifyDN_request, parse_dn, bind, ret. rewrite Hn, Hnew.
  destruct newDN as [|rdn [|r rest]]; [done| |].
  - rewrite bool_decide_eq_true_2 by done.
    by rewrite bool_decide_eq_false_2 by (cbn; lia).
  - rewrite bool_decide_eq_false_2 by done.
    rewrite bool_decide_eq_true_2 by (cbn; lia). cbn [negb].
    by rewrite (Hrdn rdn (r :: rest) eq_refl).
Qed.

Lemma modifyDN_request_shape_witness :
  modifyDN parse_commas "cn=a,dc=x" "cn=b,ou=y,dc=x" [] 1
           (connected_client plain_options) =
    _send call_depth
      {| messageID := 0;
         protocolOp := ModifyDNRequest ["cn=a"; "dc=x"] true ["cn=b"]
                         (Some ["ou=y"; "dc=x"]);
         controls := [] |}
      (Codes [LDAP_SUCCESS]) None (UserCb 1) false
      (connected_client plain_options) ∧
  modifyDN parse_commas "cn=a,dc=x" "cn=b" [] 1
           (connected_client plain_options) =
    _send call_depth
      {| messageID := 0;
         protocolOp := ModifyDNRequest ["cn=a"; "dc=x"] true ["cn=b"] None;
         controls := [] |}
      (Codes [LDAP_SUCCESS]) None (UserCb 1) false
      (connected_client plain_options) ∧
  modifyDN parse_commas "cn=a,dc=x" "" [] 1
           (connected_client plain_options) =
    _send call_depth
      {| messageID := 0;
         protocolOp := ModifyDNRequest ["cn=a"; "dc=x"] true [""] None;
         controls := [] |}
      (Codes [LDAP_SUCCESS]) None (UserCb 1) false
      (connected_client plain_options).
Proof.
  split; [|split].
  - apply (modifyDN_request_shape parse_commas "cn=a,dc=x" "cn=b,ou=y,dc=x"
             ["cn=a"; "dc=x"] ["cn=b"; "ou=y"; "dc=x"] [] 1
             (connected_client plain_options));
      [reflexivity | reflexivity | done |].
    intros rdn rest [= <- <-] _. reflexivity.
  - apply (modifyDN_request_shape parse_commas "cn=a,dc=x" "cn=b"
             ["cn=a"; "dc=x"] ["cn=b"] [] 1
             (connected_client plain_options));
      [reflexivity | reflexivity | done |].
    by intros rdn rest [= <- <-].
  - apply (modifyDN_request_shape parse_commas "cn=a,dc=x" ""
             ["cn=a"; "dc=x"] [""] [] 1 (connected_client plain_options));
      [reflexivity | reflexivity | done |].
    by intros rdn rest [= <- <-].
Defined.

(** Such a request on a connected client is written to the socket. *)
Example modifyDN_is_written :
  trace (exec (modifyDN parse_commas "cn=a,dc=x" "cn=b,ou=y,dc=x" [] 1)
              (connected_client plain_options)) =
    trace (connected_client plain_options) ++
    [Wrote 0 {| messageID := 1;
                protocolOp := ModifyDNRequest ["cn=a"; "dc=x"] true ["cn=b"]
                                (Some ["ou=y"; "dc=x"]);
                controls := [] |}].
Proof. vm_compute; reflexivity. Qed.

(** ** search *)

(** C10.  For a search whose options have no [timeLimit], or the number
    0, the request that [search] builds and hands to [_send] has
    [timeLimit] 10; and no options at all make it 0. *)
Theorem search_timeLimit_0_is_10 (parse : string → option DN) (base : string)
  (options : SearchOptions) (controls : list Control) (callback : nat)
  (_bypass : bool) (baseObject : DN) (w : World) :
  (parse base = Some baseObject →
   so_timeLimit options = JUndefined ∨ so_timeLimit options = JNum 0 →
   ∃ req,
     request_timeLimit req = Some (JNum 10) ∧
     search parse base options controls callback _bypass w =
       _send call_depth req (Codes [LDAP_SUCCESS]) (Some (next w))
             (UserCb callback) _bypass (set_next (S (next w)) w)) ∧
  request_timeLimit (search_request baseObject options controls)
    ≠ Some (JNum 0).
Proof.
  split.
  - intros Hp Htl. exists (search_request baseObject options controls).
    split; [|unfold search, parse_dn; by rewrite Hp].
    unfold request_timeLimit, search_request, js_or. cbn.
    by destruct Htl as [-> | ->].
  - unfold request_timeLimit, search_request, js_or. cbn.
    destruct (so_timeLimit options) as [| |b|z|s] eqn:E; cbn; try done.
    + by destruct b.
    + destruct (Z.eqb_spec z 0); cbn; [done|]. by intros [= ->].
    + by destruct (String.eqb s "").
Qed.

Lemma search_timeLimit_0_is_10_witness :
  (∃ req,
     request_timeLimit req = Some (JNum 10) ∧
     search parse_commas "dc=x" (search_options (JNum 0)) [] 1 false
            (connected_client plain_options) =
       _send call_depth req (Codes [LDAP_SUCCESS]) (Some 1%nat) (UserCb 1)
             false (set_next 2 (connected_client plain_options))) ∧
  (∃ req,
     request_timeLimit req = Some (JNum 10) ∧
     search parse_commas "dc=x" (search_options JUndefined) [] 1 false
            (connected_client plain_options) =
       _send call_depth req (Codes [LDAP_SUCCESS]) (Some 1%nat) (UserCb 1)
             false (set_next 2 (connected_client plain_options))) ∧
  trace (exec (search parse_commas "dc=x" (search_options (JNum 0)) [] 1 false)
              (connected_client plain_options)) =
    trace (connected_client plain_options) ++
    [Wrote 0 {| messageID := 1;
                protocolOp :=
                  SearchRequest ["dc=x"] (JStr "sub") (ParsedFilter "(cn=*)")
                                (JNum 0) (JNum 0) (JNum 10) (JBool false) [];
                controls := [] |}].
Proof.
  split; [|split].
  - apply (search_timeLimit_0_is_10 parse_commas "dc=x"
             (search_options (JNum 0)) [] 1 false ["dc=x"]
             (connected_client plain_options));
      [vm_compute; reflexivity | by right].
  - apply (search_timeLimit_0_is_10 parse_commas "dc=x"
             (search_options JUndefined) [] 1 false ["dc=x"]
             (connected_client plain_options));
      [vm_compute; reflexivity | by left].
  - vm_compute; reflexivity.
Defined.

(** ** Running the monad *)

Lemma world_eta (w : World) :
  {| url := url w; timeout := timeout w; idleTimeout := idleTimeout w;
     reconnect := reconnect w; queue := queue w; socket := socket w;
     connected := connected w; connecting := connecting w;
     destroyed := destroyed w; _idleTimer := _idleTimer w;
     dialing := dialing w; retries := retries w; sockets := sockets w;
     acts := acts w; timers := timers w; next := next w;
     CLIENT_ID := CLIENT_ID w; trace := trace w |}
  = w.
Proof. by destruct w. Qed.

Lemma set_timers_id w : set_timers id w = w.
Proof. apply world_eta. Qed.

Lemma bind_run {A B} (m : M A) (k : A → M B) w a w' :
  m w = (Ok a, w') → bind m k w = k a w'.
Proof. unfold bind. by intros ->. Qed.

Lemma activation_run w a act :
  acts w !! a = Some act → activation a w = (Ok act, w).
Proof. intros H. unfold activation, bind, gets. cbn. by rewrite H. Qed.

Lemma get_socket_run w s sock :
  sockets w !! s = Some sock → get_socket s w = (Ok sock, w).
Proof. intros H. unfold get_socket, bind, gets. cbn. by rewrite H. Qed.

Lemma conn_ldap_run w s sock l :
  sockets w !! s = Some sock → ldap sock = Some l →
  conn_ldap s w = (Ok l, w).
Proof.
  intros H Hl. unfold conn_ldap. rewrite (bind_run _ _ _ _ _ (get_socket_run _ _ _ H)).
  by rewrite Hl.
Qed.

Lemma clear_timer_run w a act :
  acts w !! a = Some act →
  ∃ f, clear_timer a w = (Ok tt, set_timers f w).
Proof.
  intros H. unfold clear_timer.
  rewrite (bind_run _ _ _ _ _ (activation_run _ _ _ H)).
  destruct (a_timer act) as [t|].
  - by exists (delete t).
  - exists id. by rewrite set_timers_id.
Qed.

Lemma set_messages_run w s sock l f :
  sockets w !! s = Some sock → ldap sock = Some l →
  set_messages s f w =
    (Ok tt, set_sockets (alter (with_messages f l) s) w).
Proof.
  intros H Hl. unfold set_messages.
  rewrite (bind_run _ _ _ _ _ (conn_ldap_run _ _ _ _ H Hl)). reflexivity.
Qed.

Lemma isIdle_run w b :
  socket_ok w → ∃ r, isIdle b w = (Ok r, w).
Proof.
  intros Hok. unfold isIdle. destruct b; [by eexists|].
  unfold bind, gets. cbn. destruct (socket w) as [s|] eqn:Hs; [|by eexists].
  destruct (connected w); [|by eexists].
  destruct (Hok s Hs) as (sock & l & H & Hl).
  fold (bind (conn_ldap s) (λ l, ret (bool_decide (map_to_list (ldap_messages l) = []))) w).
  rewrite (bind_run _ _ _ _ _ (conn_ldap_run _ _ _ _ H Hl)). by eexists.
Qed.

Lemma _updateIdle_run w b :
  socket_ok w →
  ∃ x f n, _updateIdle b w =
             (Ok tt, set_idleTimer x (set_timers f (set_next n w))).
Proof.
  intros Hok. unfold _updateIdle.
  assert (Hid : (Ok tt, w) = (Ok tt, set_idleTimer (_idleTimer w) (set_timers id (set_next (next w) w)))).
  { f_equal. by destruct w. }
  unfold bind at 1. unfold gets at 1. cbn.
  destruct (idleTimeout w =? 0); [by do 3 eexists|].
  destruct (isIdle_run w b Hok) as [r Hr].
  rewrite (bind_run _ _ _ _ _ Hr).
  unfold bind at 1. unfold gets at 1. cbn.
  destruct r, (_idleTimer w) as [h|] eqn:Ht; by do 3 eexists.
Qed.

Lemma done_event_error act e :
  ∃ ev, done_event act "error" (AErr e) = Ok ev ∧ delivers_error e ev.
Proof.
  unfold done_event. destruct (a_emitter act) as [em|]; cbn.
  - destruct (a_sentEmitter act); cbn.
    + eexists; split; [done|constructor].
    + destruct (a_callback act); cbn; eexists; (split; [done|constructor]).
  - destruct (a_callback act); cbn; eexists; (split; [done|constructor]).
Qed.

Lemma done_event_end act r :
  ∃ ev, done_event act "end" (AMsg (Result r)) = Ok ev ∧
        delivers_end (Result r) ev.
Proof.
  unfold done_event. destruct (a_emitter act) as [em|]; cbn.
  - eexists; split; [done|constructor].
  - destruct (a_callback act); cbn; eexists; (split; [done|constructor]).
Qed.

Lemma done_event_fails_with act e :
  done_event act "error" (AErr e) = Ok (fails_with act e).
Proof.
  unfold done_event, fails_with, error_to.
  destruct (a_emitter act) as [em|]; cbn.
  - destruct (a_sentEmitter act); cbn; [done|]. by destruct (a_callback act).
  - by destruct (a_callback act).
Qed.

Lemma done_event_ends_with act r :
  done_event act "end" (AMsg (Result r)) = Ok (ends_with act r).
Proof.
  unfold done_event, ends_with, end_to.
  destruct (a_emitter act) as [em|]; cbn; [done|]. by destruct (a_callback act).
Qed.

Lemma done_event_completes_with act msg :
  is_search_event msg = false →
  done_event act (verdict (a_expect act) msg).1 (verdict (a_expect act) msg).2
    = Ok (completes_with act msg).
Proof.
  intros Hse. unfold completes_with, completion.
  destruct msg as [| |r|e|]; try done; cbn [verdict fst snd].
  - destruct (not_expected (a_expect act) (status r)); cbn [fst snd].
    + apply done_event_fails_with.
    + apply done_event_ends_with.
  - apply done_event_fails_with.
  - apply done_event_fails_with.
Qed.

Lemma completion_end expect emitter sentEmitter cb r :
  not_expected expect (status r) = false →
  completion expect emitter sentEmitter cb (Result r) = end_to emitter cb r.
Proof. intros H. unfold completion. by rewrite H. Qed.

Lemma completion_error expect emitter sentEmitter cb msg err :
  verdict expect msg = ("error", AErr err) →
  completion expect emitter sentEmitter cb msg =
    error_to emitter sentEmitter cb err.
Proof.
  unfold completion, verdict. destruct msg as [| |r|e|]; try by intros [= <-].
  destruct (not_expected expect (status r)); [by intros [= <-]|done].
Qed.

Lemma _done_run w a act event obj ev :
  acts w !! a = Some act → done_event act event obj = Ok ev →
  _done a event obj w = (Ok tt, set_trace (λ t, t ++ [ev]) w).
Proof.
  intros H Hev. unfold _done.
  rewrite (bind_run _ _ _ _ _ (activation_run _ _ _ H)). by rewrite Hev.
Qed.

Lemma _continuePagedSearch_from_none w a cs :
  paged_cookie cs = None → _continuePagedSearch_from a cs w = (Ok false, w).
Proof.
  induction cs as [|[sz cookie|oid crit] cs IH]; cbn; [done| |done].
  case_bool_decide; [done|]. done.
Qed.

Lemma update_cookie_None cookie cs :
  update_cookie cookie cs = None ↔ Forall (λ c, is_paged c = false) cs.
Proof.
  induction cs as [|c cs IH]; cbn; [by split|].
  destruct c as [sz old|oid crit].
  - split; [done|]. by inversion 1.
  - rewrite fmap_None, IH. split.
    + by constructor.
    + by inversion 1.
Qed.

Lemma _continuePagedSearch_from_unpaged w a act cs :
  acts w !! a = Some act →
  Forall (λ c, is_paged c = false) (controls (a_message act)) →
  _continuePagedSearch_from a cs w = (Ok false, w).
Proof.
  intros H Hreq. induction cs as [|[sz cookie|oid crit] cs IH]; cbn; [done| |done].
  case_bool_decide; [done|].
  rewrite (bind_run _ _ _ _ _ (activation_run _ _ _ H)).
  apply (update_cookie_None cookie) in Hreq. rewrite Hreq. done.
Qed.

Lemma _continuePagedSearch_unpaged w a act msg :
  acts w !! a = Some act → unpaged act msg →
  _continuePagedSearch a msg w = (Ok false, w).
Proof.
  intros H [Hres|Hreq]; unfold _continuePagedSearch.
  - destruct (msg_controls msg) as [cs|]; [|done].
    by apply _continuePagedSearch_from_none.
  - destruct (msg_controls msg) as [cs|]; [|done].
    by eapply _continuePagedSearch_from_unpaged.
Qed.

Lemma socket_ok_frame w w' :
  socket w' = socket w →
  (∀ s sock l, sockets w !! s = Some sock → ldap sock = Some l →
               ∃ sock' l', sockets w' !! s = Some sock' ∧ ldap sock' = Some l') →
  socket_ok w → socket_ok w'.
Proof.
  intros Hs Hm Hok s Hs'. rewrite Hs in Hs'.
  destruct (Hok s Hs') as (sock & l & H & Hl). eauto.
Qed.

Lemma lookup_with_messages (m : gmap nat Socket) f l c s sock l0 :
  m !! s = Some sock → ldap sock = Some l0 →
  ∃ sock' l', alter (with_messages f l) c m !! s = Some sock' ∧
              ldap sock' = Some l'.
Proof.
  intros H Hl. destruct (decide (c = s)) as [->|Hne].
  - rewrite lookup_alter_eq, H. cbn. eauto.
  - rewrite lookup_alter_ne by done. eauto.
Qed.

Lemma messageCallback_terminal w a act msg sock l ev :
  acts w !! a = Some act →
  sockets w !! a_conn act = Some sock → ldap sock = Some l →
  socket_ok w →
  is_abandon (a_expect act) = false →
  is_search_event msg = false →
  unpaged act msg →
  done_event act (verdict (a_expect act) msg).1 (verdict (a_expect act) msg).2
    = Ok ev →
  ∃ f1 x f2 n,
    messageCallback a msg w =
      (Ok tt,
       set_trace (λ t, t ++ [ev])
         (set_idleTimer x (set_timers f2 (set_next n
            (set_sockets
               (alter (with_messages (delete (messageID (a_message act))) l)
                      (a_conn act))
               (set_timers f1 w)))))).
Proof.
  intros Ha Hs Hl Hok Hab Hse Hun Hev. unfold messageCallback.
  destruct (clear_timer_run w a act Ha) as [f1 Hct].
  rewrite (bind_run _ _ _ _ _ Hct).
  set (w1 := set_timers f1 w).
  assert (Ha1 : acts w1 !! a = Some act) by done.
  rewrite (bind_run _ _ _ _ _ (activation_run _ _ _ Ha1)). rewrite Hab.
  assert (Hgo :
    (let* continued := _continuePagedSearch a msg in
     if continued then ret tt
     else
       let* act := activation a in
       set_messages (a_conn act) (delete (messageID (a_message act))) ;;
       _updateIdle false ;;
       let '(event, obj) := verdict (a_expect act) msg in
       _done a event obj) w1 =
    match msg with
    | SearchEntry _ _ _ => _done a "searchEntry" (AMsg msg)
    | SearchReference _ _ _ => _done a "searchReference" (AMsg msg)
    | _ =>
        let* continued := _continuePagedSearch a msg in
        if continued then ret tt
        else
          let* act := activation a in
          set_messages (a_conn act) (delete (messageID (a_message act))) ;;
          _updateIdle false ;;
          let '(event, obj) := verdict (a_expect act) msg in
          _done a event obj
    end w1) by (by destruct msg).
  rewrite <- Hgo. clear Hgo.
  rewrite (bind_run _ _ _ _ _ (_continuePagedSearch_unpaged w1 a act msg Ha1 Hun)).
  rewrite (bind_run _ _ _ _ _ (activation_run _ _ _ Ha1)).
  assert (Hs1 : sockets w1 !! a_conn act = Some sock) by done.
  rewrite (bind_run _ _ _ _ _ (set_messages_run _ _ _ _ _ Hs1 Hl)).
  set (w2 := set_sockets _ w1).
  assert (Hok2 : socket_ok w2).
  { eapply socket_ok_frame; [| |exact Hok]; [done|].
    intros s sock0 l0 H0 Hl0. apply (lookup_with_messages _ _ _ _ _ _ _ H0 Hl0). }
  destruct (_updateIdle_run w2 false Hok2) as (x & f2 & n & Hui).
  rewrite (bind_run _ _ _ _ _ Hui).
  destruct (verdict (a_expect act) msg) as [event obj]. cbn in Hev.
  exists f1, x, f2, n. by apply (_done_run _ a act).
Qed.

(** ** Paged searches *)

Lemma paged_cookie_Some cs cookie :
  paged_cookie cs = Some cookie →
  cookie ≠ [] ∧ ∃ sz, PagedResultsControl sz cookie ∈ cs.
Proof.
  induction cs as [|[sz c|oid crit] cs IH]; cbn; [done| |].
  - case_bool_decide as Hc.
    + intros H. destruct (IH H) as [? [sz' ?]]. split; [done|].
      exists sz'. by right.
    + intros [= <-]. split; [done|]. exists sz. by left.
  - intros H. destruct (IH H) as [? [sz' ?]]. split; [done|].
    exists sz'. by right.
Qed.

Lemma paged_cookie_None cs :
  paged_cookie cs = None ↔
  ∀ sz cookie, PagedResultsControl sz cookie ∈ cs → cookie = [].
Proof.
  induction cs as [|[sz c|oid crit] cs IH]; cbn.
  - split; [|done]. intros _ sz cookie H. by apply elem_of_nil in H.
  - case_bool_decide as Hc.
    + rewrite IH. split.
      * intros H sz' cookie [[= -> ->]|Hin]%elem_of_cons; [done|]. by eapply H.
      * intros H sz' cookie Hin. eapply H. by right.
    + split; [done|]. intros H. destruct Hc. apply (H sz). by left.
  - rewrite IH. split.
    + intros H sz' cookie [[=]|Hin]%elem_of_cons. by eapply H.
    + intros H sz' cookie Hin. eapply H. by right.
Qed.

Lemma update_cookie_Some cookie cs cs' :
  update_cookie cookie cs = Some cs' ↔
  ∃ pre sz old post,
    cs = pre ++ PagedResultsControl sz old :: post ∧
    Forall (λ c, is_paged c = false) pre ∧
    cs' = pre ++ PagedResultsControl sz cookie :: post.
Proof.
  revert cs'. induction cs as [|c cs IH]; intros cs'; cbn.
  - split; [done|]. intros (pre & sz & old & post & H & _). by destruct pre.
  - destruct c as [sz old|oid crit].
    + split.
      * intros [= <-]. by exists [], sz, old, cs.
      * intros ([|p pre] & sz' & old' & post & H & Hpre & ->).
        -- by injection H as -> -> ->.
        -- injection H as <- _. by inversion Hpre.
    + rewrite fmap_Some. split.
      * intros (cs0 & (pre & sz & old & post & -> & Hpre & ->)%IH & ->).
        exists (OtherControl oid crit :: pre), sz, old, post.
        split; [done|]. split; [by constructor|done].
      * intros ([|p pre] & sz & old & post & H & Hpre & ->); [done|].
        injection H as <- ->. exists (pre ++ PagedResultsControl sz cookie :: post).
        split; [|done]. apply IH. exists pre, sz, old, post.
        split; [done|]. split; [by inversion Hpre|done].
Qed.

Lemma write_run w conn m sock :
  sockets w !! conn = Some sock → write_throws sock = false →
  write conn m None w = (Ok tt, set_trace (λ t, t ++ [Wrote conn m]) w).
Proof.
  intros H Hw. unfold write.
  rewrite (bind_run _ _ _ _ _ (get_socket_run _ _ _ H)). rewrite Hw.
  reflexivity.
Qed.

Lemma _continuePagedSearch_from_some w a act cs cookie cs' sock :
  acts w !! a = Some act →
  sockets w !! a_conn act = Some sock → write_throws sock = false →
  paged_cookie cs = Some cookie →
  update_cookie cookie (controls (a_message act)) = Some cs' →
  _continuePagedSearch_from a cs w =
    (Ok true,
     set_trace (λ t, t ++ [Wrote (a_conn act) (with_controls cs' (a_message act))])
       (set_acts (alter (with_message (with_controls cs' (a_message act))) a) w)).
Proof.
  intros Ha Hs Hw Hc Hu.
  induction cs as [|[sz c|oid crit] cs IH]; cbn in *; [done| |by apply IH].
  case_bool_decide as Hne; [by apply IH|]. injection Hc as ->.
  rewrite (bind_run _ _ _ _ _ (activation_run _ _ _ Ha)). rewrite Hu.
  unfold bind at 1, set_a_message at 1, modify at 1. cbn.
  unfold try_catch.
  set (w1 := set_acts _ w).
  assert (Hs1 : sockets w1 !! a_conn act = Some sock) by done.
  rewrite (bind_run _ _ _ _ _ (write_run w1 _ _ _ Hs1 Hw)). reflexivity.
Qed.

Lemma messageCallback_continues w a act msg cs cookie cs' sock :
  acts w !! a = Some act →
  sockets w !! a_conn act = Some sock → write_throws sock = false →
  is_abandon (a_expect act) = false →
  is_search_event msg = false →
  msg_controls msg = Some cs →
  paged_cookie cs = Some cookie →
  update_cookie cookie (controls (a_message act)) = Some cs' →
  ∃ f1,
    messageCallback a msg w =
      (Ok tt,
       set_trace (λ t, t ++ [Wrote (a_conn act) (with_controls cs' (a_message act))])
         (set_acts (alter (with_message (with_controls cs' (a_message act))) a)
            (set_timers f1 w))).
Proof.
  intros Ha Hs Hw Hab Hse Hmc Hc Hu. unfold messageCallback.
  destruct (clear_timer_run w a act Ha) as [f1 Hct].
  rewrite (bind_run _ _ _ _ _ Hct).
  set (w1 := set_timers f1 w).
  assert (Ha1 : acts w1 !! a = Some act) by done.
  rewrite (bind_run _ _ _ _ _ (activation_run _ _ _ Ha1)). rewrite Hab.
  assert (Hcont : _continuePagedSearch a msg w1 =
    (Ok true,
     set_trace (λ t, t ++ [Wrote (a_conn act) (with_controls cs' (a_message act))])
       (set_acts (alter (with_message (with_controls cs' (a_message act))) a) w1))).
  { unfold _continuePagedSearch. rewrite Hmc.
    by apply (_continuePagedSearch_from_some w1 a act cs cookie cs' sock). }
  exists f1. destruct msg; try done; by rewrite (bind_run _ _ _ _ _ Hcont).
Qed.

Lemma onMessage_run w conn msg sock l i h :
  sockets w !! conn = Some sock → ldap sock = Some l →
  msg_id msg = Some i → ldap_messages l !! i = Some h →
  onMessage conn msg w = messageCallback h msg w.
Proof.
  intros Hs Hl Hi Hh. unfold onMessage.
  rewrite (bind_run _ _ _ _ _ (conn_ldap_run _ _ _ _ Hs Hl)).
  rewrite Hi. cbn. by rewrite Hh.
Qed.

Lemma verdict_delivers act msg :
  is_search_event msg = false →
  ∃ ev, done_event act (verdict (a_expect act) msg).1
                       (verdict (a_expect act) msg).2 = Ok ev ∧
        ((∃ e, delivers_error e ev) ∨ delivers_end msg ev).
Proof.
  intros Hse. destruct msg as [| |r|e|]; try done; cbn.
  - destruct (not_expected (a_expect act) (status r)); cbn.
    + destruct (done_event_error act (getError r)) as (ev & -> & H). eauto.
    + destruct (done_event_end act r) as (ev & -> & H). eauto.
  - destruct (done_event_error act e) as (ev & -> & H). eauto.
  - destruct (done_event_error act (ProtocolError type)) as (ev & -> & H). eauto.
Qed.

(** C7, as the code has it.  A response that is neither an entry nor a
    reference reaches the handler of a request other than an abandon.
    If it carries a PagedResults control with a cookie and the request
    carries a PagedResults control too, the first such cookie is copied
    into the first such control of the request, the request is written to
    the socket again, and the table, the sink and the callback stay as they
    were.  If no control of the response has a cookie, or the request has
    no PagedResults control, nothing is written: the request leaves the
    table and its continuation gets the result or an error. *)
Theorem paged_search_driver (w : World) (conn a : nat) (act : Activation)
  (msg : Msg) (cs : list Control) (sock : Socket) (l : Ldap) :
  sockets w !! conn = Some sock → ldap sock = Some l →
  write_throws sock = false →
  msg_id msg = Some (messageID (a_message act)) →
  ldap_messages l !! messageID (a_message act) = Some a →
  acts w !! a = Some act → a_conn act = conn →
  socket_ok w →
  is_abandon (a_expect act) = false →
  is_search_event msg = false →
  msg_controls msg = Some cs →
  ((∃ sz c, PagedResultsControl sz c ∈ cs ∧ c ≠ []) →
   (∃ c, c ∈ controls (a_message act) ∧ is_paged c = true) →
   ∃ cookie pre sz old post,
     paged_cookie cs = Some cookie ∧
     controls (a_message act) = pre ++ PagedResultsControl sz old :: post ∧
     Forall (λ c, is_paged c = false) pre ∧
     trace (exec (onMessage conn msg) w) =
       trace w ++
       [Wrote conn
          (with_controls (pre ++ PagedResultsControl sz cookie :: post)
                         (a_message act))] ∧
     sockets (exec (onMessage conn msg) w) = sockets w ∧
     acts (exec (onMessage conn msg) w) !! a =
       Some (with_message
               (with_controls (pre ++ PagedResultsControl sz cookie :: post)
                              (a_message act))
               act)) ∧
  ((∀ sz c, PagedResultsControl sz c ∈ cs → c = []) ∨
   (∀ c, c ∈ controls (a_message act) → is_paged c = false) →
   ∃ ev sock' l',
     trace (exec (onMessage conn msg) w) = trace w ++ [ev] ∧
     ((∃ e, delivers_error e ev) ∨ delivers_end msg ev) ∧
     sockets (exec (onMessage conn msg) w) !! conn = Some sock' ∧
     ldap sock' = Some l' ∧
     ldap_messages l' !! messageID (a_message act) = None).
Proof.
  intros Hs Hl Hw Hid Htab Ha <- Hok Hab Hse Hcs.
  assert (Hrun : onMessage (a_conn act) msg w = messageCallback a msg w)
    by by eapply onMessage_run.
  unfold exec. rewrite Hrun. split.
  - intros (sz0 & c0 & Hin & Hne) (c1 & Hin1 & Hp1).
    destruct (paged_cookie cs) as [cookie|] eqn:Hpc.
    2:{ destruct Hne. by eapply paged_cookie_None. }
    destruct (update_cookie cookie (controls (a_message act))) as [cs'|] eqn:Hu.
    2:{ apply update_cookie_None in Hu. rewrite Forall_forall in Hu.
        rewrite (Hu c1 Hin1) in Hp1. done. }
    destruct (proj1 (update_cookie_Some _ _ _) Hu)
      as (pre & sz & old & post & Hreq & Hpre & ->).
    exists cookie, pre, sz, old, post. do 3 (split; [done|]).
    destruct (messageCallback_continues w a act msg cs cookie _ sock
                Ha Hs Hw Hab Hse Hcs Hpc Hu) as [f1 ->].
    cbn. split; [done|]. split; [done|]. by rewrite lookup_alter_eq, Ha.
  - intros Hterm.
    destruct (verdict_delivers act msg Hse) as (ev & Hev & Hdel).
    assert (Hun : unpaged act msg).
    { destruct Hterm as [H|H]; [left|right].
      - rewrite Hcs. cbn. by apply paged_cookie_None.
      - by apply Forall_forall. }
    destruct (messageCallback_terminal w a act msg sock l ev
                Ha Hs Hl Hok Hab Hse Hun Hev) as (f1 & x & f2 & n & ->).
    cbn. rewrite lookup_alter_eq, Hs. cbn.
    exists ev. do 2 eexists. split; [done|]. split; [done|].
    split; [done|]. split; [done|]. cbn. apply lookup_delete_eq.
Qed.

Lemma paged_search_driver_witness :
  trace (exec (onMessage 0 (page_done cookie_a)) paged_search_sent) =
    trace paged_search_sent ++ [Wrote 0 (paged_request cookie_a)] ∧
  sockets (exec (onMessage 0 (page_done cookie_a)) paged_search_sent) =
    sockets paged_search_sent ∧
  acts (exec (onMessage 0 (page_done cookie_a)) paged_search_sent) !! 2%nat =
    Some (with_message (paged_request cookie_a) paged_activation).
Proof.
  destruct (paged_search_driver paged_search_sent 0 2 paged_activation
              (page_done cookie_a) [PagedResultsControl 0 cookie_a]
              paged_socket paged_ldap) as [Hcont _].
  - vm_compute; reflexivity.
  - reflexivity.
  - reflexivity.
  - reflexivity.
  - vm_compute; reflexivity.
  - vm_compute; reflexivity.
  - reflexivity.
  - intros s Hs. exists paged_socket, paged_ldap. split; [|reflexivity].
    vm_compute in Hs. injection Hs as <-. vm_compute; reflexivity.
  - reflexivity.
  - reflexivity.
  - reflexivity.
  - destruct Hcont as (cookie & pre & sz & old & post & Hc & Hreq & Hpre & H).
    + exists 0, cookie_a. split; [by left|done].
    + exists (PagedResultsControl 5 []). split; [by left|done].
    + injection Hc as <-. destruct pre as [|p pre].
      * injection Hreq as <- <- <-. exact H.
      * injection Hreq as _ Hreq. by destruct pre.
Defined.

(** C7 as stated fails when the response carries a cookie and the
    request no PagedResults control: nothing is written and the sink gets
    its ['end']. *)
Lemma cookie_without_request_control_ends_search :
  msg_controls (page_done cookie_a) = Some [PagedResultsControl 0 cookie_a] ∧
  cookie_a ≠ [] ∧
  trace (exec (onMessage 0 (page_done cookie_a)) plain_search_sent) =
    trace plain_search_sent ++ [Emitted 1 "end" (AMsg (page_done cookie_a))] ∧
  ¬ ∃ m, Wrote 0 m ∈ [Emitted 1 "end" (AMsg (page_done cookie_a))].
Proof.
  split; [reflexivity|]. split; [done|]. split; [vm_compute; reflexivity|].
  intros [m H]. apply list_elem_of_singleton in H. done.
Qed.

(** C6, as the code has it.  The timer of a request that is still in the
    table fires, and the request is not an abandon (it expects success,
    the compare codes or ['unbind']): the client emits ['timeout'] with the
    request, and the handler stored under the id of the request gets the
    made-up result with code 80 and the message
    ["request timeout (client interrupt)"].  The request is failed with the
    error of that result, through the sink handed to the caller or else
    through its own callback; its entry leaves the table; nothing else
    happens, so no abandon, and nothing at all, is written to the
    socket. *)
Theorem request_timeout_reports_error (w : World) (t a : nat) (d : Z)
  (act : Activation) (sock : Socket) (l : Ldap) :
  timers w !! t = Some (RequestTimeout a, d) →
  acts w !! a = Some act →
  sockets w !! a_conn act = Some sock → ldap sock = Some l →
  ldap_messages l !! messageID (a_message act) = Some a →
  socket_ok w →
  a_expect act = Codes [LDAP_SUCCESS] ∨ a_expect act = CMP_EXPECT ∨
    a_expect act = ExpectUnbind →
  result (fire t) w = Ok tt ∧
  trace (exec (fire t) w) =
    trace w ++
    [ClientEmit "timeout" [AReq (a_message act)];
     fails_with act
       (ServerError (Code 80) "" "request timeout (client interrupt)")] ∧
  getError timeout_result =
    ServerError (Code 80) "" "request timeout (client interrupt)" ∧
  ∃ sock' l',
    sockets (exec (fire t) w) !! a_conn act = Some sock' ∧
    ldap sock' = Some l' ∧
    ldap_messages l' !! messageID (a_message act) = None.
Proof.
  intros Ht Ha Hs Hl Htab Hok Hexp.
  set (ev := fails_with act
               (ServerError (Code 80) "" "request timeout (client interrupt)")).
  set (w1 := set_trace (λ tr, tr ++ [ClientEmit "timeout" [AReq (a_message act)]])
               (set_timers (delete t) w)).
  assert (Hok1 : socket_ok w1) by (eapply socket_ok_frame; [| |exact Hok]; eauto).
  assert (Hv : verdict (a_expect act) (Result timeout_result) =
               ("error", AErr (getError timeout_result))).
  { by destruct Hexp as [-> | [-> | ->]]. }
  assert (Hab : is_abandon (a_expect act) = false).
  { by destruct Hexp as [-> | [-> | ->]]. }
  destruct (messageCallback_terminal w1 a act (Result timeout_result) sock l ev)
    as (f1 & x & f2 & n & Hmc); try done.
  { by left. }
  { rewrite Hv. apply done_event_fails_with. }
  assert (Hfire : fire t w = messageCallback a (Result timeout_result) w1).
  { unfold fire. unfold bind at 1, gets at 1. cbn. rewrite Ht.
    unfold bind at 1, modify at 1. cbn. unfold onRequestTimeout.
    rewrite (bind_run _ _ _ _ _ (activation_run (set_timers (delete t) w) a act Ha)).
    unfold bind at 1, emit at 1, modify at 1. cbn. fold w1.
    rewrite (bind_run _ _ _ _ _ (conn_ldap_run w1 _ _ _ Hs Hl)).
    by rewrite Htab. }
  unfold result, exec. rewrite Hfire, Hmc. cbn.
  split; [done|]. split; [by rewrite <- app_assoc|]. split; [done|].
  rewrite lookup_alter_eq, Hs. cbn. do 2 eexists. split; [done|]. split; [done|].
  cbn. apply lookup_delete_eq.
Qed.

Lemma request_timeout_reports_error_witness :
  timers waiting_compare !! 2%nat = Some (RequestTimeout 1, 50) ∧
  a_callback compare_activation = CompareCb 7 ∧
  result (fire 2) waiting_compare = Ok tt ∧
  trace (exec (fire 2) waiting_compare) =
    trace waiting_compare ++
    [ClientEmit "timeout" [AReq (a_message compare_activation)];
     Called 7 [AErr (ServerError (Code 80) ""
                                 "request timeout (client interrupt)")]] ∧
  getError timeout_result =
    ServerError (Code 80) "" "request timeout (client interrupt)" ∧
  ∃ sock' l',
    sockets (exec (fire 2) waiting_compare) !! a_conn compare_activation
      = Some sock' ∧
    ldap sock' = Some l' ∧
    ldap_messages l' !! messageID (a_message compare_activation) = None.
Proof.
  split; [(vm_compute; reflexivity)|]. split; [reflexivity|].
  apply (request_timeout_reports_error waiting_compare 2 1 50
           compare_activation compare_socket compare_ldap).
  - (vm_compute; reflexivity).
  - (vm_compute; reflexivity).
  - (vm_compute; reflexivity).
  - reflexivity.
  - (vm_compute; reflexivity).
  - (intros s Hs; exists compare_socket, compare_ldap; split; [|reflexivity]).
    (vm_compute in Hs). injection Hs as <-. (vm_compute; reflexivity).
  - right. left. reflexivity.
Defined.

(** C6 as stated fails for an abandon: its timer is armed like any
    other and nothing clears it; when it fires the handler reports ['end']
    and the callback, already called after the write, is called again
    without an error. *)
Lemma abandon_timeout_reports_success :
  timers abandon_sent !! 2%nat = Some (RequestTimeout 1, 50) ∧
  trace abandon_sent =
    trace (connected_client timeout_options) ++
    [Wrote 0 {| messageID := 1; protocolOp := AbandonRequest 5; controls := [] |};
     Called 8 [ANull]] ∧
  trace (exec (fire 2) abandon_sent) =
    trace abandon_sent ++
    [ClientEmit "timeout"
       [AReq {| messageID := 1; protocolOp := AbandonRequest 5; controls := [] |}];
     Called 8 [ANull; ANull]] ∧
  ¬ ∃ e, delivers_error e (Called 8 [ANull; ANull]).
Proof.
  split; [reflexivity|]. split; [reflexivity|]. split; [reflexivity|].
  intros [e H]. inversion H.
Qed.

Lemma _updateIdle_true_run w :
  ∃ x f, _updateIdle true w = (Ok tt, set_idleTimer x (set_timers f w)).
Proof.
  unfold _updateIdle, bind, gets. cbn.
  assert (Hid : (Ok tt, w) = (Ok tt, set_idleTimer (_idleTimer w) (set_timers id w))).
  { f_equal. by destruct w. }
  destruct (idleTimeout w =? 0); [by do 2 eexists|].
  destruct (_idleTimer w) as [h|] eqn:Ht; [|by do 2 eexists].
  exists None, (delete h). reflexivity.
Qed.

Lemma bind_modify {B} f (k : unit → M B) w :
  bind (modify f) k w = k tt (f w).
Proof. reflexivity. Qed.

Lemma bind_gets {A B} (f : World → A) (k : A → M B) w :
  bind (gets f) k w = k (f w) w.
Proof. reflexivity. Qed.

Lemma arm_timer_run w a act0 :
  acts w !! a = Some act0 →
  ∃ tm f n,
    (let* t := gets timeout in
     when (negb (t =? 0))
          (let* h := setTimeout (RequestTimeout a) t in
           set_a_timer a (Some h))) w =
    (Ok tt, set_acts (<[a := {| a_conn := a_conn act0;
                               a_message := a_message act0;
                               a_expect := a_expect act0;
                               a_emitter := a_emitter act0;
                               a_callback := a_callback act0; a_timer := tm;
                               a_sentEmitter := a_sentEmitter act0 |}]>)
               (set_timers f (set_next n w))).
Proof.
  intros Ha. rewrite bind_gets. destruct (timeout w =? 0); cbn [negb when].
  - exists (a_timer act0), id, (next w). f_equal.
    replace {| a_conn := a_conn act0; a_message := a_message act0;
               a_expect := a_expect act0; a_emitter := a_emitter act0;
               a_callback := a_callback act0; a_timer := a_timer act0;
               a_sentEmitter := a_sentEmitter act0 |} with act0
      by (by destruct act0).
    unfold set_acts. cbn. rewrite (insert_id _ _ _ Ha). by destruct w.
  - exists (Some (next w)), (insert (next w) (RequestTimeout a, timeout w)),
           (S (next w)).
    unfold setTimeout, bind, gets, modify, ret, set_a_timer. cbn.
    unfold modify. f_equal.
    unfold set_acts. cbn. f_equal.
    apply map_eq. intros i. destruct (decide (i = a)) as [->|Hne].
    + by rewrite lookup_alter_eq, lookup_insert_eq, Ha.
    + by rewrite lookup_alter_ne, lookup_insert_ne.
Qed.

Local Arguments getNextMessageID : simpl never.

Lemma _sendSocket_run w s sock l m e em cb :
  socket w = Some s → sockets w !! s = Some sock → ldap sock = Some l →
  write_throws sock = false →
  let mid := fst (getNextMessageID l) in
  ∃ w' tm sock' l',
    _sendSocket m e em cb w = (Ok tt, w') ∧
    trace w' = trace w ++
      [Wrote s {| messageID := mid; protocolOp := protocolOp m;
                  controls := controls m |}] ∧
    socket w' = Some s ∧ connected w' = connected w ∧
    queue w' = queue w ∧
    acts w' !! next w = Some (sent s m mid e em cb tm) ∧
    sockets w' !! s = Some sock' ∧ ldap sock' = Some l' ∧
    write_throws sock' = false ∧
    unbindMessageID sock' = unbindMessageID sock ∧
    ldap_messages l' !! mid = Some (next w).
Proof.
  intros Hsock Hs Hl Hw mid. unfold _sendSocket.
  rewrite bind_gets. rewrite Hsock.
  rewrite (bind_run _ _ _ _ _ (conn_ldap_run _ _ _ _ Hs Hl)).
  change (getNextMessageID l) with (mid, snd (getNextMessageID l)). cbn iota.
  unfold set_ldap. rewrite bind_modify, bind_gets, !bind_modify. cbn [next set_sockets].
  match goal with |- context [bind (set_messages _ _) _ ?w0] => set (w1 := w0) end.
  assert (Hs1 : sockets w1 !! s = Some
            {| ldap := Some (getNextMessageID l).2;
               unbindMessageID := unbindMessageID sock;
               writable := writable sock; write_throws := write_throws sock;
               pendingWrites := pendingWrites sock |}).
  { subst w1. cbn. by rewrite lookup_alter_eq, Hs. }
  rewrite (bind_run _ _ _ _ _ (set_messages_run w1 s _ _ _ Hs1 eq_refl)).
  match goal with |- context [bind (_updateIdle true) _ ?w0] => set (w2 := w0) end.
  destruct (_updateIdle_true_run w2) as (x & f & Hui).
  rewrite (bind_run _ _ _ _ _ Hui).
  match goal with |- context [bind _ _ ?w0] => set (w3 := w0) end.
  assert (Ha3 : acts w3 !! next w = Some (sent s m mid e em cb None)).
  { subst w3 w2 w1. cbn. by rewrite lookup_insert_eq. }
  destruct (arm_timer_run w3 (next w) _ Ha3) as (tm & f' & n & Harm).
  pose proof (bind_run _ (λ _, try_catch
             (write s
                {|
                  messageID := mid;
                  protocolOp := protocolOp m;
                  controls := controls m
                |} (Some (next w)))
             (λ e0 : Err, clear_timer (next w);; call cb [AErr e0])) _ _ _ Harm) as Hb.
  cbn beta in Hb.
  match goal with |- context [bind ?mm ?kk w3] =>
    change (bind mm kk w3) with (bind (let* t := gets timeout in
     when (negb (t =? 0))
          (let* h := setTimeout (RequestTimeout (next w)) t in
           set_a_timer (next w) (Some h))) (λ _, try_catch
             (write s
                {|
                  messageID := mid;
                  protocolOp := protocolOp m;
                  controls := controls m
                |} (Some (next w)))
             (λ e0 : Err, clear_timer (next w);; call cb [AErr e0])) w3) end.
  rewrite Hb. clear Hb.
  match goal with |- context [try_catch _ _ ?w0] => set (w4 := w0) end.
  unfold try_catch, write.
  assert (Hs4 : sockets w4 !! s = Some (with_messages <[mid:=next w]> (getNextMessageID l).2
            {| ldap := Some (getNextMessageID l).2;
               unbindMessageID := unbindMessageID sock;
               writable := writable sock; write_throws := write_throws sock;
               pendingWrites := pendingWrites sock |})).
  { subst w4 w3 w2 w1. cbn. by rewrite !lookup_alter_eq, Hs. }
  rewrite (bind_run _ _ _ _ _ (get_socket_run _ _ _ Hs4)). cbn [write_throws with_messages].
  rewrite Hw. unfold emit. rewrite bind_modify.
  eexists _, tm, _, _. split; [reflexivity|].
  subst w4 w3 w2 w1.
  cbn [sockets set_sockets set_trace set_acts set_timers set_next
       set_idleTimer acts trace socket connected queue next].
  rewrite lookup_insert_eq, !lookup_alter_eq, Hs.
  cbn [with_messages ldap write_throws unbindMessageID ldap_messages fmap option_fmap option_map].
  split_and!; try done. cbn [ldap_messages]. apply lookup_insert_eq.
Qed.

Lemma flush_empty w cb :
  _queue (queue w) = [] →
  ∃ f g, flush cb w = (Ok tt, set_queue g (set_timers f w)).
Proof.
  intros Hq. unfold flush. rewrite bind_gets, Hq.
  destruct (_timer (queue w)) as [t|].
  - eexists (delete t), (λ q, _). reflexivity.
  - eexists id, (λ q, _). reflexivity.
Qed.

Lemma _send_connected w d s sock l m e em cb :
  socket w = Some s → connected w = true → _queue (queue w) = [] →
  sockets w !! s = Some sock → ldap sock = Some l →
  write_throws sock = false →
  ∃ f g, _send d m e em cb false w =
           _sendSocket m e em cb (set_queue g (set_timers f w)).
Proof.
  intros Hsock Hc Hq Hs Hl Hw.
  destruct (flush_empty w (λ e0,
      match d with
      | O => throw (RangeError "Maximum call stack size exceeded")
      | S d => _send d (qe_msg e0) (qe_expect e0) (qe_emitter e0) (qe_cb e0) false
      end) Hq) as (f & g & Hf).
  exists f, g. destruct d; cbn [_send]; rewrite !bind_gets, Hsock, Hc; cbn;
    by rewrite (bind_run _ _ _ _ _ Hf).
Qed.

(** ** compare *)

Lemma compare_verdict act k r :
  a_expect act = CMP_EXPECT → a_emitter act = None →
  a_callback act = CompareCb k →
  ∃ ev, done_event act (verdict (a_expect act) (Result r)).1
                       (verdict (a_expect act) (Result r)).2 = Ok ev ∧
        (status r = Code 6 →
           ev = Called k [ANull; ABool true; AMsg (Result r)]) ∧
        (status r = Code 5 →
           ev = Called k [ANull; ABool false; AMsg (Result r)]) ∧
        (∀ c, status r = Code c → c ≠ 5 → c ≠ 6 → c ∈ ERROR_CODES →
           ev = Called k [AErr (ServerError (Code c) (matchedDN r)
                                            (errorMessage r))]).
Proof.
  intros He Hem Hcb. rewrite He. unfold verdict, CMP_EXPECT, not_expected.
  unfold done_event. rewrite Hem, Hcb.
  destruct (status r) as [c|n] eqn:Hst.
  - case_bool_decide as Hin; cbn.
    + eexists. split; [reflexivity|]. rewrite Hst.
      apply elem_of_cons in Hin as [->|Hin];
        [|apply list_elem_of_singleton in Hin as ->].
      * split; [done|]. split; [done|]. intros c [= <-]. done.
      * split; [done|]. split; [done|]. intros c [= <-]. done.
    + eexists. split; [reflexivity|]. unfold getError. rewrite Hst.
      split; [|split].
      * intros [= ->]. destruct Hin. by left.
      * intros [= ->]. destruct Hin. right. by left.
      * intros c' [= ->] _ _ Hc. by rewrite bool_decide_eq_true_2.
  - cbn. eexists. split; [reflexivity|]. done.
Qed.

(** C8, as the code has it.  [compare] hands [_send] the CompareRequest
    for the parsed name with the compare codes as expectation, no sink,
    and its wrapper around the caller's callback.  When the
    CompareResponse for the id of a request sent so arrives and is not
    taken for a page of a paged search (it has no PagedResults cookie, or
    the request has no PagedResults control), the caller's callback gets
    [(null, true, res)] for code 6, [(null, false, res)] for code 5, and
    for any other code that has an error of its own (32, NoSuchObject, is
    one) the ServerError of that code and nothing else. *)
Theorem compare_completion (parse : string → option DN)
  (name attr value : string) (cs : list Control) (entry : DN) (w0 : World)
  (w : World) (conn a k : nat) (act : Activation)
  (r : LDAPResult) (sock : Socket) (l : Ldap) :
  sockets w !! conn = Some sock → ldap sock = Some l →
  ldap_messages l !! r_messageID r = Some a →
  acts w !! a = Some act → a_conn act = conn →
  socket_ok w →
  a_expect act = CMP_EXPECT → a_emitter act = None →
  a_callback act = CompareCb k →
  paged_cookie (r_controls r) = None ∨
    Forall (λ c, is_paged c = false) (controls (a_message act)) →
  (parse name = Some entry →
     compare parse name attr value cs k w0 =
       _send call_depth (compare_request entry attr value cs 0) CMP_EXPECT
             None (CompareCb k) false w0) ∧
  (status r = Code LDAP_COMPARE_TRUE →
     trace (exec (onMessage conn (Result r)) w) =
     trace w ++ [Called k [ANull; ABool true; AMsg (Result r)]]) ∧
  (status r = Code LDAP_COMPARE_FALSE →
     trace (exec (onMessage conn (Result r)) w) =
     trace w ++ [Called k [ANull; ABool false; AMsg (Result r)]]) ∧
  (∀ c, status r = Code c → c ≠ LDAP_COMPARE_FALSE → c ≠ LDAP_COMPARE_TRUE →
     c ∈ ERROR_CODES →
     trace (exec (onMessage conn (Result r)) w) =
     trace w ++
     [Called k [AErr (ServerError (Code c) (matchedDN r) (errorMessage r))]]).
Proof.
  intros Hs Hl Htab Ha <- Hok He Hem Hcb Hun.
  destruct (compare_verdict act k r He Hem Hcb)
    as (ev & Hev & H6 & H5 & Hother).
  assert (Hab : is_abandon (a_expect act) = false) by by rewrite He.
  destruct (messageCallback_terminal w a act (Result r) sock l ev
              Ha Hs Hl Hok Hab eq_refl) as (f1 & x & f2 & n & Hmc).
  { destruct Hun as [H|H]; [by left|by right]. }
  { exact Hev. }
  assert (Htr : trace (exec (onMessage (a_conn act) (Result r)) w) =
                trace w ++ [ev]).
  { unfold exec.
    rewrite (onMessage_run w (a_conn act) (Result r) sock l _ a Hs Hl eq_refl
               Htab).
    by rewrite Hmc. }
  rewrite Htr. split; [|split; [|split]].
  - intros Hp. unfold compare, parse_dn. by rewrite Hp.
  - intros H. by rewrite (H6 H).
  - intros H. by rewrite (H5 H).
  - intros c H ? ? ?. by rewrite (Hother c H).
Qed.

(** A compare on a connected client with nothing queued is written out
    at once, and the response for its id completes it. *)
Lemma compare_on_connected_client (parse : string → option DN) (w : World) (s : nat)
  (sock : Socket) (l : Ldap) (name attr value : string)
  (controls : list Control) (k : nat) (entry : DN) (r : LDAPResult) :
  socket w = Some s → connected w = true → _queue (queue w) = [] →
  sockets w !! s = Some sock → ldap sock = Some l →
  write_throws sock = false →
  parse name = Some entry →
  r_messageID r = fst (getNextMessageID l) →
  paged_cookie (r_controls r) = None ∨
    Forall (λ c, is_paged c = false) controls →
  trace (exec (compare parse name attr value controls k) w) =
    trace w ++
    [Wrote s (compare_request entry attr value controls
                              (fst (getNextMessageID l)))] ∧
  (status r = Code LDAP_COMPARE_TRUE →
     trace (exec (onMessage s (Result r))
                 (exec (compare parse name attr value controls k) w)) =
     trace (exec (compare parse name attr value controls k) w) ++
     [Called k [ANull; ABool true; AMsg (Result r)]]) ∧
  (status r = Code LDAP_COMPARE_FALSE →
     trace (exec (onMessage s (Result r))
                 (exec (compare parse name attr value controls k) w)) =
     trace (exec (compare parse name attr value controls k) w) ++
     [Called k [ANull; ABool false; AMsg (Result r)]]) ∧
  (∀ c, status r = Code c → c ≠ LDAP_COMPARE_FALSE → c ≠ LDAP_COMPARE_TRUE →
     c ∈ ERROR_CODES →
     trace (exec (onMessage s (Result r))
                 (exec (compare parse name attr value controls k) w)) =
     trace (exec (compare parse name attr value controls k) w) ++
     [Called k [AErr (ServerError (Code c) (matchedDN r) (errorMessage r))]]).
Proof.
  intros Hsock Hc Hq Hs Hl Hw Hp Hid Hun.
  set (w1 := exec (compare parse name attr value controls k) w).
  set (w2 := exec (onMessage s (Result r)) w1).
  set (m := compare_request entry attr value controls 0).
  assert (Hcmp : compare parse name attr value controls k w =
                 _send call_depth m CMP_EXPECT None (CompareCb k) false w).
  { unfold compare, parse_dn. rewrite Hp. reflexivity. }
  destruct (_send_connected w call_depth s sock l m CMP_EXPECT None
              (CompareCb k) Hsock Hc Hq Hs Hl Hw) as (f & g & Hsend).
  destruct (_sendSocket_run (set_queue g (set_timers f w)) s sock l m
              CMP_EXPECT None (CompareCb k) Hsock Hs Hl Hw)
    as (w' & tm & sock' & l' & Hrun & Htr & Hsock' & _ & _ & Ha & Hs' & Hl' & _ & _ & Htab).
  assert (Hw1 : w1 = w').
  { subst w1. unfold exec. by rewrite Hcmp, Hsend, Hrun. }
  clearbody w1. subst w1. split; [exact Htr|].
  assert (Hok : socket_ok w').
  { intros s0 Hs0. rewrite Hsock' in Hs0. injection Hs0 as <-. eauto. }
  destruct (compare_verdict
              (sent s m (fst (getNextMessageID l)) CMP_EXPECT None
                    (CompareCb k) tm) k r eq_refl eq_refl eq_refl)
    as (ev & Hev & H6 & H5 & Hother).
  change (next (set_queue g (set_timers f w))) with (next w) in *.
  destruct (messageCallback_terminal w' (next w) _ (Result r) sock' l' ev
              Ha Hs' Hl' Hok eq_refl eq_refl) as (f1 & x & f2 & n & Hmc).
  { destruct Hun as [H|H]; [by left|by right]. }
  { exact Hev. }
  assert (Htr2 : trace w2 = trace w' ++ [ev]).
  { subst w2. unfold exec.
    rewrite (onMessage_run w' s (Result r) sock' l' _ (next w) Hs' Hl' eq_refl).
    - by rewrite Hmc.
    - cbn. by rewrite Hid. }
  rewrite Htr2. split; [|split].
  - intros H. by rewrite (H6 H).
  - intros H. by rewrite (H5 H).
  - intros c H ? ? ?. by rewrite (Hother c H).
Qed.

(** ** Closing the transport *)

Lemma Object_keys_perm (m : gmap Z nat) :
  Object_keys m ≡ₚ (map_to_list m).*1.
Proof. unfold Object_keys. apply merge_sort_Permutation. Qed.

Lemma Object_keys_NoDup (m : gmap Z nat) : NoDup (Object_keys m).
Proof. rewrite Object_keys_perm. apply NoDup_fst_map_to_list. Qed.

Lemma Object_keys_elem (m : gmap Z nat) k :
  k ∈ Object_keys m ↔ is_Some (m !! k).
Proof.
  rewrite Object_keys_perm, list_elem_of_fmap. split.
  - intros [[k' h] [-> Hin]]. apply elem_of_map_to_list in Hin. eauto.
  - intros [h Hh]. exists (k, h). split; [done|]. by apply elem_of_map_to_list.
Qed.

Lemma Object_keys_length (m : gmap Z nat) :
  length (Object_keys m) = size m.
Proof.
  by rewrite Object_keys_perm, length_fmap, length_map_to_list.
Qed.

Lemma messageCallback_abandon w a act msg ev :
  acts w !! a = Some act → a_expect act = ExpectAbandon →
  done_event act "end" ANull = Ok ev →
  ∃ f1, messageCallback a msg w =
          (Ok tt, set_trace (λ t, t ++ [ev]) (set_timers f1 w)).
Proof.
  intros Ha Hab Hev. unfold messageCallback.
  destruct (clear_timer_run w a act Ha) as [f1 Hct].
  rewrite (bind_run _ _ _ _ _ Hct).
  set (w1 := set_timers f1 w).
  assert (Ha1 : acts w1 !! a = Some act) by done.
  rewrite (bind_run _ _ _ _ _ (activation_run _ _ _ Ha1)). rewrite Hab.
  cbn [is_abandon]. exists f1. by apply (_done_run _ a act).
Qed.

(** One round of the loop in [_onClose]. *)
Lemma onClose_entry_run w s sock l k h act :
  socket w = None →
  sockets w !! s = Some sock → ldap sock = Some l →
  ldap_messages l !! k = Some h → acts w !! h = Some act →
  entry_ok s (unbindMessageID sock) k act →
  ∃ ev w' sock' l',
    onClose_entry s k w = (Ok tt, w') ∧
    trace w' = trace w ++ [ev] ∧
    closes_as (unbindMessageID sock) (ldap_id l) k act ev ∧
    socket w' = None ∧ acts w' = acts w ∧ reconnect w' = reconnect w ∧
    sockets w' !! s = Some sock' ∧
    unbindMessageID sock' = unbindMessageID sock ∧
    ldap sock' = Some l' ∧ ldap_id l' = ldap_id l ∧
    ldap_messages l' = delete k (ldap_messages l).
Proof.
  intros Hsock Hs Hl Hk Ha (Hconn & Hmid & Hub & Hab). unfold onClose_entry.
  rewrite (bind_run _ _ _ _ _ (get_socket_run _ _ _ Hs)).
  rewrite (bind_run _ _ _ _ _ (conn_ldap_run _ _ _ _ Hs Hl)).
  rewrite Hk.
  rewrite (bind_run _ _ _ _ _ (set_messages_run _ _ _ _ _ Hs Hl)).
  set (w1 := set_sockets _ w).
  assert (Hs1 : sockets w1 !! s = Some (with_messages (delete k) l sock)).
  { subst w1. cbn [sockets set_sockets]. by rewrite lookup_alter_eq, Hs. }
  assert (Ha1 : acts w1 !! h = Some act) by done.
  assert (a_expect act = ExpectAbandon ∨ a_expect act ≠ ExpectAbandon)
    as [Habn|Hnab] by (destruct (a_expect act); auto).
  - destruct (Hab Habn) as [c Hcb].
    set (ev := match a_emitter act with
               | Some em => Emitted em "end" ANull
               | None => Called c [ANull; ANull]
               end).
    assert (Hev : done_event act "end" ANull = Ok ev).
    { unfold done_event, ev. rewrite Hcb. by destruct (a_emitter act). }
    destruct (messageCallback_abandon w1 h act
                (if bool_decide (unbindMessageID sock = Some k)
                 then Result (unbind_response k)
                 else Failure (ConnectionError (ldap_id l +:+ " closed")))
                ev Ha1 Habn Hev) as [f1 ->].
    exists ev. do 3 eexists. split; [reflexivity|].
    cbn [trace set_trace set_timers socket acts reconnect sockets].
    split; [done|]. split.
    { split; [done|]. split; [|by eauto].
      intros Hu. rewrite (Hub Hu) in Habn. done. }
    split; [done|]. split; [done|]. split; [done|].
    split; [exact Hs1|]. done.
  - assert (Habf : is_abandon (a_expect act) = false)
      by (by destruct (a_expect act)).
    assert (Hok1 : socket_ok w1).
    { intros s0 Hs0. change (socket w1) with (socket w) in Hs0.
      by rewrite Hsock in Hs0. }
    rewrite <- Hconn in Hs1.
    set (msg := if bool_decide (unbindMessageID sock = Some k)
                then Result (unbind_response k)
                else Failure (ConnectionError (ldap_id l +:+ " closed"))).
    assert (Hse : is_search_event msg = false)
      by (subst msg; by case_bool_decide).
    assert (Hun : unpaged act msg)
      by (left; subst msg; by case_bool_decide).
    destruct (messageCallback_terminal w1 h act msg _ _ (completes_with act msg)
                Ha1 Hs1 eq_refl Hok1 Habf Hse Hun
                (done_event_completes_with act msg Hse))
      as (f1 & x & f2 & n & ->).
    exists (completes_with act msg). do 3 eexists. split; [reflexivity|].
    cbn [trace set_trace set_timers set_idleTimer set_next set_sockets
         socket acts reconnect sockets].
    split; [done|]. split.
    { subst msg. split; [|split]; [| |done].
      - intros _ Hne. by rewrite bool_decide_eq_false_2.
      - intros Hu. rewrite bool_decide_eq_true_2 by done.
        unfold completes_with, completion. by rewrite (Hub Hu). }
    split; [done|]. split; [done|]. split; [done|].
    rewrite Hconn in Hs1 |- *. rewrite lookup_alter_eq, Hs1.
    cbn. split; [done|]. split; [done|]. split; [done|]. split; [done|].
    rewrite Hmid. apply delete_delete_eq.
Qed.

Lemma forEach_onClose w s sock l ks :
  socket w = None →
  sockets w !! s = Some sock → ldap sock = Some l →
  NoDup ks →
  (∀ k, k ∈ ks → ∃ h act, ldap_messages l !! k = Some h ∧
                           acts w !! h = Some act ∧
                           entry_ok s (unbindMessageID sock) k act) →
  ∃ evs w' sock' l',
    forEach ks (onClose_entry s) w = (Ok tt, w') ∧
    trace w' = trace w ++ evs ∧
    Forall2 (closes w sock l) ks evs ∧
    reconnect w' = reconnect w ∧
    sockets w' !! s = Some sock' ∧ ldap sock' = Some l'.
Proof.
  intros Hsock Hs Hl Hnd Hks.
  revert w sock l Hsock Hs Hl Hks.
  induction Hnd as [|k ks Hk Hnd IH]; intros w sock l Hsock Hs Hl Hks.
  - exists [], w, sock, l. cbn. rewrite app_nil_r. by repeat split.
  - destruct (Hks k) as (h & act & Hh & Ha & Hentry); [by left|].
    destruct (onClose_entry_run w s sock l k h act Hsock Hs Hl Hh Ha Hentry)
      as (ev & w1 & sock1 & l1 & Hrun & Htr & Hcl & Hsock1 & Ha1 & Hrc1 &
          Hs1 & Hub1 & Hl1 & Hid1 & Htab1).
    destruct (IH w1 sock1 l1 Hsock1 Hs1 Hl1) as
      (evs & w' & sock' & l' & Hloop & Htr' & Hall & Hrc' & Hs' & Hl').
    { intros k' Hk'. destruct (Hks k') as (h' & act' & Hh' & Ha' & He');
        [by right|].
      exists h', act'. rewrite Htab1, Ha1, Hub1.
      rewrite lookup_delete_ne by (intros ->; done). done. }
    exists (ev :: evs), w', sock', l'.
    cbn [forEach]. rewrite (bind_run _ _ _ _ _ Hrun).
    split; [done|]. split; [by rewrite Htr', Htr, <- app_assoc|].
    split; [|by rewrite Hrc', Hrc1].
    constructor; [by exists h, act|].
    clear -Hall Htab1 Ha1 Hub1 Hid1 Hk.
    induction Hall as [|k' ev' ks' evs' (h' & act' & Hh' & Ha' & Hc') Hall IHall];
      constructor.
    + exists h', act'. rewrite Htab1 in Hh'.
      apply lookup_delete_Some in Hh' as [_ Hh'].
      by rewrite <- Ha1, <- Hub1, <- Hid1.
    + apply IHall. intros Hin. apply Hk. by right.
Qed.

Lemma _connect_run w :
  ∃ w' rest,
    _connect w = (Ok tt, w') ∧ trace w' = trace w ++ rest ∧
    (rest = [] ∨ ∃ c st fa, rest = [RetryStarted c st fa]).
Proof.
  unfold _connect. rewrite bind_gets. destruct (connecting w).
  - exists w, []. rewrite app_nil_r. split; [done|]. split; [done|]. by left.
  - eexists _, [_]. split; [reflexivity|]. split; [reflexivity|].
    right. by do 3 eexists.
Qed.

(** C3, as the code has it.  The transport [conn] closes; it is the
    socket the client holds in [this.socket], which is the one the close
    handler works on, and every entry of its table is the handler of a
    request sent on it.  The handler emits ['close'] and then calls the
    handler of every entry, once each and in the order of the ids: as many
    calls as the table has entries, each telling the request of its entry,
    through its own callback or sink, what [closes_as] says.  A request
    that is not an abandon and whose id differs from [unbindMessageID] is
    failed with the ConnectionError; the one whose id is [unbindMessageID]
    ends well with the made-up unbind response; an abandon has its
    callback called once more, without an error.  After that a
    reconnection may be started, and nothing else happens. *)
Theorem close_completes_every_request (w : World) (conn : nat)
  (sock : Socket) (l : Ldap) (had_err : bool) :
  socket w = Some conn → sockets w !! conn = Some sock → ldap sock = Some l →
  table_ok w conn sock l →
  ∃ evs rest,
    result (onSocketClose conn had_err) w = Ok tt ∧
    trace (exec (onSocketClose conn had_err) w) =
      trace w ++ [ClientEmit "close" [ABool had_err]] ++ evs ++ rest ∧
    Forall2 (closes w sock l) (Object_keys (ldap_messages l)) evs ∧
    NoDup (Object_keys (ldap_messages l)) ∧
    (∀ k, k ∈ Object_keys (ldap_messages l) ↔
          is_Some (ldap_messages l !! k)) ∧
    length evs = size (ldap_messages l) ∧
    (rest = [] ∨ ∃ c st fa, rest = [RetryStarted c st fa]).
Proof.
  intros Hsock Hs Hl Htab. unfold result, exec, onSocketClose, _onClose.
  rewrite bind_gets, Hsock, !bind_modify. unfold emit. rewrite bind_modify.
  set (w1 := set_trace _ _).
  assert (Hs1 : sockets w1 !! conn = Some sock) by done.
  rewrite (bind_run _ _ _ _ _ (conn_ldap_run _ _ _ _ Hs1 Hl)).
  destruct (forEach_onClose w1 conn sock l (Object_keys (ldap_messages l)))
    as (evs & w2 & sock2 & l2 & Hloop & Htr & Hall & Hrc & Hs2 & Hl2);
    try done.
  { apply Object_keys_NoDup. }
  { intros k [h Hh]%Object_keys_elem.
    destruct (Htab k h Hh) as (act & Ha & He). by exists h, act. }
  rewrite (bind_run _ _ _ _ _ Hloop).
  unfold set_ldap. rewrite bind_modify, bind_gets.
  set (w3 := set_sockets _ w2).
  pose proof (Object_keys_NoDup (ldap_messages l)) as Hnd.
  pose proof (Object_keys_elem (ldap_messages l)) as Hel.
  assert (Hlen : length evs = size (ldap_messages l)).
  { rewrite <- Object_keys_length. symmetry. by eapply Forall2_length. }
  assert (Htr3 : trace w3 = trace w ++ [ClientEmit "close" [ABool had_err]] ++ evs).
  { subst w3. cbn [trace set_sockets]. rewrite Htr. subst w1. cbn.
    by rewrite <- app_assoc. }
  destruct (had_err && bool_decide (is_Some (reconnect w3))); cbn [when].
  - destruct (_connect_run w3) as (w4 & rest & -> & Htr4 & Hrest).
    exists evs, rest. cbn. split; [done|]. split.
    { rewrite Htr4, Htr3. by rewrite <- !app_assoc. }
    done.
  - exists evs, []. cbn. split; [done|]. rewrite app_nil_r.
    repeat (split; [done|]). by left.
Qed.

Lemma three_pending_table : table_ok three_pending 0 three_socket three_ldap.
Proof.
  intros k h Hh. apply elem_of_map_to_list in Hh. vm_compute in Hh.
  inversion Hh as [|? ? ? Hh1]; subst.
  { eexists. split; [vm_compute; reflexivity|]. by repeat split. }
  inversion Hh1 as [|? ? ? Hh2]; subst.
  { eexists. split; [vm_compute; reflexivity|]. by repeat split. }
  inversion Hh2 as [|? ? ? Hh3]; subst.
  { eexists. split; [vm_compute; reflexivity|]. by repeat split. }
  inversion Hh3.
Qed.

Lemma close_completes_every_request_witness :
  socket three_pending = Some 0%nat ∧
  ldap_id three_ldap = "1__ldap://127.0.0.1:389" ∧
  trace (exec (onSocketClose 0 false) three_pending) =
    trace three_pending ++
    [ClientEmit "close" [ABool false];
     Called 7 [AErr (ConnectionError "1__ldap://127.0.0.1:389 closed")];
     Emitted 2 "error"
             (AErr (ConnectionError "1__ldap://127.0.0.1:389 closed"));
     Called 9 [ANull; AMsg (Result (unbind_response 3))]] ∧
  ∃ evs rest,
    result (onSocketClose 0 false) three_pending = Ok tt ∧
    trace (exec (onSocketClose 0 false) three_pending) =
      trace three_pending ++ [ClientEmit "close" [ABool false]] ++ evs ++ rest ∧
    Forall2 (closes three_pending three_socket three_ldap)
            (Object_keys (ldap_messages three_ldap)) evs ∧
    NoDup (Object_keys (ldap_messages three_ldap)) ∧
    (∀ k, k ∈ Object_keys (ldap_messages three_ldap) ↔
          is_Some (ldap_messages three_ldap !! k)) ∧
    length evs = size (ldap_messages three_ldap) ∧
    (rest = [] ∨ ∃ c st fa, rest = [RetryStarted c st fa]).
Proof.
  split; [vm_compute; reflexivity|]. split; [reflexivity|].
  split; [vm_compute; reflexivity|].
  apply (close_completes_every_request three_pending 0 three_socket three_ldap
           false).
  - vm_compute; reflexivity.
  - vm_compute; reflexivity.
  - reflexivity.
  - exact three_pending_table.
Defined.

(** C3 as stated fails for the entry of an abandon, which stays in the
    table after its callback ran: its id differs from [unbindMessageID],
    and what it gets on close is a second call without an error. *)
Lemma abandon_entry_closes_without_error :
  socket abandon_pending = Some 0%nat ∧
  (∃ sock l, sockets abandon_pending !! 0%nat = Some sock ∧
             ldap sock = Some l ∧ unbindMessageID sock = None ∧
             ldap_messages l = {[ 1 := 1%nat ]}) ∧
  trace (exec (onSocketClose 0 false) abandon_pending) =
    trace abandon_pending ++
    [ClientEmit "close" [ABool false]; Called 8 [ANull; ANull]] ∧
  ¬ ∃ e, delivers_error e (Called 8 [ANull; ANull]).
Proof.
  split; [vm_compute; reflexivity|]. split; [|split].
  - do 2 eexists. split; [vm_compute; reflexivity|]. by repeat split.
  - vm_compute; reflexivity.
  - intros [e H]. inversion H.
Qed.

(** Why the transport has to be [this.socket]: a client with a reconnect
    policy unbinds, and before the old socket closes a compare makes it
    dial socket 2, which connects and carries the compare.  When the old
    socket 0 closes, the handler walks the table of socket 2: the compare
    is failed although its socket is open, and the unbind on socket 0 is
    never told anything. *)
Example late_close_fails_the_new_socket :
  trace (exec (unbind (Some (UserCb 9)) ;; onFlushed 0 ;;
               compare parse_commas "cn=a,dc=x" "sn" "b" [] 7 ;;
               onConnect ;;
               onSocketClose 0 false)
              (connected_client reconnect_options)) =
    trace (connected_client reconnect_options) ++
    [Wrote 0 {| messageID := 1; protocolOp := UnbindRequest; controls := [] |};
     Ended 0;
     RetryStarted 2 (Some (None, Some 8000)) None;
     ClientEmit "connect" [ASocket 2];
     Wrote 2 (compare_request ["cn=a"; "dc=x"] "sn" "b" [] 1);
     ClientEmit "close" [ABool false];
     Called 7 [AErr (ConnectionError "2__ldap://127.0.0.1:389 closed")]].
Proof. vm_compute; reflexivity. Qed.

Lemma compare_completion_witness :
  compare parse_commas "cn=a,dc=x" "sn" "b" [] 7
          (connected_client plain_options) =
    _send call_depth (compare_request ["cn=a"; "dc=x"] "sn" "b" [] 0)
          CMP_EXPECT None (CompareCb 7) false
          (connected_client plain_options) ∧
  acts compare_sent !! 1%nat = Some compare_sent_activation ∧
  trace (exec (onMessage 0 (Result (compare_response 1 6 []))) compare_sent) =
    trace compare_sent ++
    [Called 7 [ANull; ABool true; AMsg (Result (compare_response 1 6 []))]] ∧
  trace (exec (onMessage 0 (Result (compare_response 1 5 []))) compare_sent) =
    trace compare_sent ++
    [Called 7 [ANull; ABool false; AMsg (Result (compare_response 1 5 []))]] ∧
  trace (exec (onMessage 0 (Result (compare_response 1 32 []))) compare_sent) =
    trace compare_sent ++ [Called 7 [AErr (ServerError (Code 32) "" "")]].
Proof.
  assert (Hs : sockets compare_sent !! 0%nat = Some compare_socket)
    by (vm_compute; reflexivity).
  assert (Ha : acts compare_sent !! 1%nat = Some compare_sent_activation)
    by (vm_compute; reflexivity).
  assert (Hok : socket_ok compare_sent).
  { intros s Hsock. exists compare_socket, compare_ldap. split; [|reflexivity].
    vm_compute in Hsock. injection Hsock as <-. exact Hs. }
  destruct (compare_completion parse_commas "cn=a,dc=x" "sn" "b" []
              ["cn=a"; "dc=x"] (connected_client plain_options)
              compare_sent 0 1 7 compare_sent_activation
              (compare_response 1 6 []) compare_socket compare_ldap
              Hs eq_refl eq_refl Ha eq_refl Hok eq_refl eq_refl eq_refl
              (or_introl eq_refl))
    as (Hsend & Htrue & _ & _).
  destruct (compare_completion parse_commas "cn=a,dc=x" "sn" "b" []
              ["cn=a"; "dc=x"] (connected_client plain_options)
              compare_sent 0 1 7 compare_sent_activation
              (compare_response 1 5 []) compare_socket compare_ldap
              Hs eq_refl eq_refl Ha eq_refl Hok eq_refl eq_refl eq_refl
              (or_introl eq_refl))
    as (_ & _ & Hfalse & _).
  destruct (compare_completion parse_commas "cn=a,dc=x" "sn" "b" []
              ["cn=a"; "dc=x"] (connected_client plain_options)
              compare_sent 0 1 7 compare_sent_activation
              (compare_response 1 32 []) compare_socket compare_ldap
              Hs eq_refl eq_refl Ha eq_refl Hok eq_refl eq_refl eq_refl
              (or_introl eq_refl))
    as (_ & _ & _ & Hother).
  split; [exact (Hsend eq_refl)|]. split; [exact Ha|].
  split; [exact (Htrue eq_refl)|]. split; [exact (Hfalse eq_refl)|].
  apply (Hother 32 eq_refl); [discriminate | discriminate |].
  apply (bool_decide_eq_true_1 _). vm_compute; reflexivity.
Defined.

(** The same through the queue: the compare is made while the client is
    dialling, sent when it connects, and completed by the response. *)
Example queued_compare_completes :
  trace (exec (compare parse_commas "cn=a,dc=x" "sn" "b" [] 7 ;;
               onConnect ;;
               onMessage 0 (Result (compare_response 1 6 [])))
              (new_Client plain_options)) =
    trace (new_Client plain_options) ++
    [ClientEmit "connect" [ASocket 0];
     Wrote 0 (compare_request ["cn=a"; "dc=x"] "sn" "b" [] 1);
     Called 7 [ANull; ABool true; AMsg (Result (compare_response 1 6 []))]].
Proof. vm_compute; reflexivity. Qed.

(** C8 as stated fails for a compare that carries a PagedResults control
    when the response brings a cookie: the request is written again and the
    callback is not called. *)
Lemma paged_compare_does_not_complete :
  trace (exec (onMessage 0
                 (Result (compare_response 1 6 [PagedResultsControl 0 cookie_a])))
              paged_compare_sent) =
    trace paged_compare_sent ++
    [Wrote 0 (compare_request ["cn=a"; "dc=x"] "sn" "b"
                              [PagedResultsControl 5 cookie_a] 1)] ∧
  ¬ ∃ k args,
      Called k args ∈
        [Wrote 0 (compare_request ["cn=a"; "dc=x"] "sn" "b"
                                  [PagedResultsControl 5 cookie_a] 1)].
Proof.
  split; [vm_compute; reflexivity|].
  intros (k & args & H). apply list_elem_of_singleton in H. done.
Qed.

(** C2 fails on the code.  [destroy] sets [this.destroyed], which nothing
    reads.  A request queued at that time is failed, but when the socket
    of the destroyed client closes with an error [_onClose] calls
    [_connect], which dials a new transport; once that connects, a compare
    completes successfully.  After a clean close the next operation is
    refused by the frozen queue and [_send] dials all the same. *)
Theorem destroyed_client_reconnects :
  destroyed destroyed_client = true ∧
  _frozen (queue destroyed_client) = true ∧
  (* a request queued before [destroy] is failed by it *)
  trace (exec (compare parse_commas "cn=a" "sn" "b" [] 7 ;; destroy)
              (new_Client reconnect_options)) =
    trace (new_Client reconnect_options) ++
    [Called 7 [AErr (Error "client destroyed")]; CalledNoop [];
     ClientEmit "destroy" []] ∧
  (* the socket closes with an error: a new transport is dialled *)
  trace (closed_after_destroy true) =
    trace destroyed_client ++
    [Ended 0; ClientEmit "close" [ABool true];
     CalledNoop [ANull; AMsg (Result (unbind_response 1))];
     RetryStarted 2 (Some (None, Some 8000)) None] ∧
  destroyed (closed_after_destroy true) = true ∧
  connecting (closed_after_destroy true) = true ∧
  sockets (closed_after_destroy true) !! 2%nat =
    Some {| ldap := Some (initSocket_ldap "ldap://127.0.0.1:389");
            unbindMessageID := None; writable := false;
            write_throws := false; pendingWrites := [] |} ∧
  (* once it connects, a compare on the destroyed client succeeds *)
  trace (exec (onConnect ;;
               compare parse_commas "cn=a" "sn" "b" [] 7 ;;
               onMessage 2 (Result (compare_response 1 6 [])))
              (closed_after_destroy true)) =
    trace (closed_after_destroy true) ++
    [ClientEmit "connect" [ASocket 2];
     Wrote 2 (compare_request ["cn=a"] "sn" "b" [] 1);
     Called 7 [ANull; ABool true; AMsg (Result (compare_response 1 6 []))]] ∧
  (* after a clean close, the next operation dials as well *)
  trace (exec (compare parse_commas "cn=a" "sn" "b" [] 7)
              (closed_after_destroy false)) =
    trace (closed_after_destroy false) ++
    [Called 7 [AErr (Error "unable to enqueue request")];
     RetryStarted 2 (Some (None, Some 8000)) None].
Proof. repeat split; vm_compute; reflexivity. Qed.

(** ** The nesting of [_send] and [_flushQueue] *)

Lemma keeps_ret {A} (a : A) : keeps (ret a).
Proof. by intros w. Qed.

Lemma keeps_throw {A} e : keeps (@throw A e).
Proof. by intros w. Qed.

Lemma keeps_gets {A} (f : World → A) : keeps (gets f).
Proof. by intros w. Qed.

Lemma keeps_bind {A B} (m : M A) (k : A → M B) :
  keeps m → (∀ a, keeps (k a)) → keeps (bind m k).
Proof.
  intros Hm Hk w. unfold bind. destruct (Hm w) as (Hq & Hs & Hc).
  destruct (m w) as [[a|e] w1]; cbn in *.
  - destruct (Hk a w1) as (Hq' & Hs' & Hc'). by rewrite Hq', Hs', Hc'.
  - done.
Qed.

Lemma keeps_try_catch {A} (m : M A) (h : Err → M A) :
  keeps m → (∀ e, keeps (h e)) → keeps (try_catch m h).
Proof.
  intros Hm Hh w. unfold try_catch. destruct (Hm w) as (Hq & Hs & Hc).
  destruct (m w) as [[a|e] w1]; cbn in *.
  - done.
  - destruct (Hh e w1) as (Hq' & Hs' & Hc'). by rewrite Hq', Hs', Hc'.
Qed.

Lemma keeps_when b m : keeps m → keeps (when b m).
Proof. destruct b; [done|]. intros _. apply keeps_ret. Qed.

Ltac keeps_step :=
  repeat first
    [ apply keeps_bind; [|intros ?]
    | apply keeps_try_catch; [|intros ?]
    | apply keeps_when
    | apply keeps_ret | apply keeps_throw | apply keeps_gets
    | by intros ? ].

Lemma keeps_emit ev : keeps (emit ev).
Proof. by intros w. Qed.

Lemma keeps_setTimeout task d : keeps (setTimeout task d).
Proof. unfold setTimeout. keeps_step. Qed.

Lemma keeps_clearTimeout t : keeps (clearTimeout t).
Proof. by intros w. Qed.

Lemma keeps_activation a : keeps (activation a).
Proof. unfold activation. keeps_step. destruct (_ !! _); keeps_step. Qed.

Lemma keeps_get_socket s : keeps (get_socket s).
Proof. unfold get_socket. keeps_step. destruct (_ !! _); keeps_step. Qed.

Lemma keeps_conn_ldap s : keeps (conn_ldap s).
Proof.
  unfold conn_ldap. apply keeps_bind; [apply keeps_get_socket|].
  intros sock. destruct (ldap sock); keeps_step.
Qed.

Lemma keeps_set_messages s f : keeps (set_messages s f).
Proof.
  unfold set_messages. apply keeps_bind; [apply keeps_conn_ldap|].
  by intros l w.
Qed.

Lemma keeps_isIdle b : keeps (isIdle b).
Proof.
  unfold isIdle. destruct b; [apply keeps_ret|].
  do 2 (apply keeps_bind; [apply keeps_gets|intros ?]).
  destruct a; [|apply keeps_ret]. destruct a0; [|apply keeps_ret].
  apply keeps_bind; [apply keeps_conn_ldap|]. intros l. apply keeps_ret.
Qed.

Lemma keeps_updateIdle b : keeps (_updateIdle b).
Proof.
  unfold _updateIdle. apply keeps_bind; [apply keeps_gets|intros it].
  destruct (it =? 0); [apply keeps_ret|].
  apply keeps_bind; [apply keeps_isIdle|intros idle].
  apply keeps_bind; [apply keeps_gets|intros t].
  destruct idle, t; try apply keeps_ret.
  - apply keeps_bind; [apply keeps_setTimeout|]. by intros h w.
  - apply keeps_bind; [apply keeps_clearTimeout|]. by intros _ w.
Qed.

Lemma keeps_clear_timer a : keeps (clear_timer a).
Proof.
  unfold clear_timer. apply keeps_bind; [apply keeps_activation|].
  intros act. destruct (a_timer act); [apply keeps_clearTimeout|apply keeps_ret].
Qed.

Lemma keeps_call cb args : keeps (call cb args).
Proof.
  unfold call, lift_event. destruct (call_event cb args);
    [apply keeps_emit|apply keeps_throw].
Qed.

Lemma keeps_write conn m cb : keeps (write conn m cb).
Proof.
  unfold write. apply keeps_bind; [apply keeps_get_socket|]. intros sock.
  destruct (write_throws sock); [apply keeps_throw|].
  apply keeps_bind; [apply keeps_emit|]. intros _.
  destruct cb; [by intros w|apply keeps_ret].
Qed.

Lemma keeps_sendSocket m e em cb : keeps (_sendSocket m e em cb).
Proof.
  unfold _sendSocket. apply keeps_bind; [apply keeps_gets|]. intros [conn|];
    [|apply keeps_throw].
  apply keeps_bind; [apply keeps_conn_ldap|]. intros l.
  destruct (getNextMessageID l) as [mid l'].
  apply keeps_bind; [by intros w|intros _].
  apply keeps_bind; [apply keeps_gets|intros a].
  apply keeps_bind; [by intros w|intros _].
  apply keeps_bind; [by intros w|intros _].
  apply keeps_bind; [apply keeps_set_messages|intros _].
  apply keeps_bind; [apply keeps_updateIdle|intros _].
  apply keeps_bind; [apply keeps_gets|intros t].
  apply keeps_bind.
  { apply keeps_when. apply keeps_bind; [apply keeps_setTimeout|].
    by intros h w. }
  intros _. apply keeps_try_catch; [apply keeps_write|]. intros err.
  apply keeps_bind; [apply keeps_clear_timer|]. intros _. apply keeps_call.
Qed.

Lemma flush_steady w cb cb' :
  _queue (queue w) = [] → flush cb w = flush cb' w.
Proof. intros Hq. unfold flush. by rewrite !bind_gets, Hq. Qed.

Lemma flush_steady_keeps w cb :
  steady w → steady (flush cb w).2 ∧ ∃ r, (flush cb w).1 = Ok r.
Proof.
  intros (Hq & Hs & Hc). unfold flush. rewrite bind_gets, Hq.
  destruct (_timer (queue w)); cbn; (split; [done|by eexists]).
Qed.

Lemma _send_steady d m e em cb w :
  steady w →
  _send d m e em cb false w =
    (flush (λ _, ret tt) ;; _sendSocket m e em cb) w.
Proof.
  intros (Hq & [s Hs] & Hc).
  destruct d; cbn [_send]; rewrite !bind_gets, Hs, Hc; cbn;
    unfold bind; by rewrite (flush_steady w _ (λ _, ret tt) Hq).
Qed.

Lemma forEach_send_steady d1 d2 items w :
  steady w →
  forEach items
    (λ e, _send d1 (qe_msg e) (qe_expect e) (qe_emitter e) (qe_cb e) false) w =
  forEach items
    (λ e, _send d2 (qe_msg e) (qe_expect e) (qe_emitter e) (qe_cb e) false) w.
Proof.
  revert w. induction items as [|e items IH]; intros w Hw; cbn [forEach]; [done|].
  unfold bind. rewrite !(_send_steady _ _ _ _ _ w Hw).
  destruct (flush_steady_keeps w (λ _, ret tt) Hw) as [Hw1 [r Hr]].
  unfold bind.
  destruct (flush (λ _, ret tt) w) as [[[]|err] w1]; cbn [fst snd] in *;
    [|done].
  destruct (keeps_sendSocket (qe_msg e) (qe_expect e) (qe_emitter e) (qe_cb e) w1)
    as (Hq2 & Hs2 & Hc2).
  destruct (_sendSocket _ _ _ _ w1) as [[[]|err] w2]; cbn [fst snd] in *;
    [|done].
  apply IH. destruct Hw1 as (? & ? & ?). unfold steady. by rewrite Hq2, Hs2, Hc2.
Qed.

(** Two levels are as good as any number above. *)
Lemma _send_depth d1 d2 m e em cb b w :
  _send (S d1) m e em cb b w = _send (S d2) m e em cb b w.
Proof.
  cbn [_send]. rewrite !bind_gets.
  destruct (b && _); [done|].
  destruct (socket w) as [s|] eqn:Hs; [|done].
  destruct (connected w) eqn:Hc; [|done].
  rewrite bool_decide_eq_true_2 by eauto. cbn [negb orb].
  assert (Hfl :
    flush (λ e0, _send d1 (qe_msg e0) (qe_expect e0) (qe_emitter e0)
                       (qe_cb e0) false) w =
    flush (λ e0, _send d2 (qe_msg e0) (qe_expect e0) (qe_emitter e0)
                       (qe_cb e0) false) w).
  { unfold flush. rewrite !bind_gets.
    destruct (_timer (queue w)) as [t|];
      unfold bind, clearTimeout, set_q_timer, set_q_queue, modify, ret;
      cbn beta iota; apply forEach_send_steady; repeat split; try done;
      cbn; by rewrite Hs. }
  unfold bind. by rewrite Hfl.
Qed.

(** * Further properties *)

(** ** Client ids *)

Lemma CLIENT_ID_after_succ n :
  CLIENT_ID_after (N.succ n) = js_incr (CLIENT_ID_after n).
Proof. unfold CLIENT_ID_after. by rewrite N.iter_succ. Qed.

Lemma CLIENT_ID_after_closed n :
  CLIENT_ID_after n = Z.min (Z.of_N n) (2 ^ 53).
Proof.
  induction n as [|n IH] using N.peano_ind; [reflexivity|].
  rewrite CLIENT_ID_after_succ, IH, N2Z.inj_succ. unfold js_incr.
  destruct (Z.ltb_spec (Z.min (Z.of_N n) (2 ^ 53)) (2 ^ 53)); lia.
Qed.

(** The ids [nextClientId] makes up for logging.  Call number [n + 1]
    returns [n + 1], except that the call which brings the counter to
    [MAX_MSGID] returns 1: the counter itself is not reset, so 1 is handed
    out twice, [MAX_MSGID] never, and the ids go on above it (as far as a
    double counts, 2^53). *)
Theorem nextClientId_sequence (n : N) :
  nth_client_id n =
    (if Z.of_N n + 1 =? MAX_MSGID then 1
     else Z.min (Z.of_N n + 1) (2 ^ 53)) ∧
  nth_client_id n ≠ MAX_MSGID ∧
  (nth_client_id n = 1 ↔ n = 0%N ∨ Z.of_N n + 1 = MAX_MSGID) ∧
  (MAX_MSGID < Z.of_N n + 1 ≤ 2 ^ 53 → nth_client_id n = Z.of_N n + 1).
Proof.
  assert (Hn : nth_client_id n =
    (if Z.of_N n + 1 =? MAX_MSGID then 1 else Z.min (Z.of_N n + 1) (2 ^ 53))).
  { unfold nth_client_id, nextClientId. cbn [fst].
    rewrite CLIENT_ID_after_closed. unfold js_incr. rewrite MAX_MSGID_eq.
    destruct (Z.ltb_spec (Z.min (Z.of_N n) (2 ^ 53)) (2 ^ 53)) as [Hlt|Hge].
    - replace (Z.min (Z.of_N n) (2 ^ 53) + 1) with (Z.of_N n + 1) by lia.
      destruct (Z.eqb_spec (Z.of_N n + 1) 2147483647); [done|lia].
    - replace (Z.min (Z.of_N n) (2 ^ 53)) with (2 ^ 53) by lia.
      destruct (Z.eqb_spec (2 ^ 53) 2147483647); [done|].
      destruct (Z.eqb_spec (Z.of_N n + 1) 2147483647); lia. }
  rewrite Hn, MAX_MSGID_eq.
  destruct (Z.eqb_spec (Z.of_N n + 1) 2147483647) as [He|Hne].
  - split; [done|]. split; [done|]. split; [|lia]. split; [auto|done].
  - split; [done|]. split; [lia|]. split; [|lia]. split; [|lia].
    intros H. left. lia.
Qed.

(** ** The [controls] argument *)

Lemma check_controls_Ok items cs :
  check_controls items = Ok cs ↔ items = Some <$> cs.
Proof.
  revert cs. induction items as [|[c|] items IH]; intros cs; cbn.
  - split; [intros [= <-]; done|]. by destruct cs.
  - destruct (check_controls items) as [cs'|e] eqn:Hc.
    + split.
      * intros [= <-]. cbn. f_equal. by apply IH.
      * destruct cs as [|c' cs'']; [done|]. intros [= -> H].
        apply IH in H. congruence.
    + split; [done|]. destruct cs as [|c' cs'']; [done|].
      intros [= -> H]. apply IH in H. done.
  - split; [done|]. by destruct cs as [|c' cs''].
Qed.

Lemma check_controls_Throw items e :
  check_controls items = Throw e → e = TypeError "controls must be [Control]".
Proof.
  induction items as [|[c|] items IH]; cbn; [done| |by intros [= <-]].
  destruct (check_controls items); [done|]. intros [= <-]. by apply IH.
Qed.

(** [validateControls] returns for exactly two kinds of argument: an array
    whose elements are all Controls, which it returns as it is, and a
    single Control, which it wraps in an array.  For anything else, an
    array with another element in it included, it raises the TypeError
    ['controls must be [Control]'], and no other error. *)
Theorem validateControls_accepts (controls : ControlsArg) :
  (∀ cs, validateControls controls = Ok cs ↔
         controls = ControlsArray (Some <$> cs) ∨
         ∃ c, controls = ControlsOne c ∧ cs = [c]) ∧
  (∀ e, validateControls controls = Throw e →
        e = TypeError "controls must be [Control]") ∧
  (validateControls controls = Throw (TypeError "controls must be [Control]") ↔
   controls = ControlsOther ∨
   ∃ items, controls = ControlsArray items ∧ None ∈ items).
Proof.
  split; [|split].
  - intros cs. destruct controls as [items|c|]; cbn.
    + rewrite check_controls_Ok. split.
      * intros ->. by left.
      * intros [[= ->]|(c & H & _)]; done.
    + split.
      * intros [= <-]. right. by exists c.
      * intros [H|(c' & [= <-] & ->)]; done.
    + split; [done|]. intros [H|(c & H & _)]; done.
  - intros e. destruct controls as [items|c|]; cbn.
    + apply check_controls_Throw.
    + done.
    + by intros [= <-].
  - destruct controls as [items|c|]; cbn.
    + split.
      * intros H. right. exists items. split; [done|].
        induction items as [|[c|] items IH]; cbn in H; [done| |by left].
        right. apply IH. by destruct (check_controls items).
      * intros [H|(items' & [= <-] & Hin)]; [done|].
        induction items as [|[c|] items IH]; cbn.
        -- by apply elem_of_nil in Hin.
        -- apply elem_of_cons in Hin as [H|Hin]; [done|].
           by rewrite (IH Hin).
        -- done.
    + split; [done|]. intros [H|(items & H & _)]; done.
    + split; [by left|done].
Qed.

(** ** The period of the message ids *)

(** The ids of a transport repeat with period 2^31 - 2 and not before:
    any 2^31 - 2 calls in a row of [getNextMessageID] return different
    ids, and the call after them returns the first of them again. *)
Theorem messageID_period :
  (∀ n : N, nth_messageID (n + 2147483646) = nth_messageID n) ∧
  (∀ n m : N, (n < m < n + 2147483646)%N →
              nth_messageID n ≠ nth_messageID m).
Proof.
  split.
  - intros n. rewrite !nth_messageID_closed, MAX_MSGID_eq, N2Z.inj_add.
    change (Z.of_N 2147483646) with (1 * (2147483647 - 1)).
    by rewrite Z.mod_add.
  - intros n m Hnm. rewrite !nth_messageID_closed, MAX_MSGID_eq.
    Z.div_mod_to_equations. lia.
Qed.

(** ** More on the request queue *)

Lemma queued_eta e :
  queued (qe_msg e) (qe_expect e) (qe_emitter e) (qe_cb e) = e.
Proof. by destruct e. Qed.

Lemma enqueue_spec w m e em cb :
  ∃ w',
    enqueue m e em cb w =
      (Ok (negb (full (queue w) || _frozen (queue w))), w') ∧
    q_size (queue w') = q_size (queue w) ∧
    _frozen (queue w') = _frozen (queue w) ∧
    _queue (queue w') =
      (if full (queue w) || _frozen (queue w) then _queue (queue w)
       else _queue (queue w) ++ [queued m e em cb]) ∧
    trace w' = trace w ∧ socket w' = socket w ∧ connected w' = connected w ∧
    connecting w' = connecting w ∧ reconnect w' = reconnect w ∧
    sockets w' = sockets w ∧ retries w' = retries w ∧
    dialing w' = dialing w ∧ url w' = url w ∧ acts w' = acts w.
Proof.
  unfold enqueue. rewrite bind_gets.
  destruct (full (queue w) || _frozen (queue w)); cbn [negb].
  - exists w. by repeat split.
  - unfold set_q_queue. rewrite bind_modify.
    destruct (0 <? q_timeout (queue w)); cbn [when].
    + destruct (_timer (queue w)) as [t|]; eexists; (split; [reflexivity|]);
        by repeat split.
    + eexists. split; [reflexivity|]. by repeat split.
Qed.

Lemma enqueue_all_bounded es w n :
  _frozen (queue w) = false → q_size (queue w) = Some n →
  (length (_queue (queue w)) ≤ Z.to_nat n)%nat →
  ∃ bs w',
    enqueue_all es w = (Ok bs, w') ∧
    _queue (queue w') = take (Z.to_nat n) (_queue (queue w) ++ es) ∧
    bs = (λ i, bool_decide (length (_queue (queue w)) + i < Z.to_nat n)%nat)
           <$> seq 0 (length es).
Proof.
  revert w. induction es as [|e es IH]; intros w Hfr Hsz Hlen.
  - exists [], w. cbn. rewrite app_nil_r, take_ge by done. done.
  - cbn [enqueue_all].
    destruct (enqueue_spec w (qe_msg e) (qe_expect e) (qe_emitter e) (qe_cb e))
      as (w1 & Hrun & Hsz1 & Hfr1 & Hq1 & _).
    rewrite (bind_run _ _ _ _ _ Hrun). rewrite queued_eta in Hq1.
    rewrite Hfr, orb_false_r in Hq1 |- *.
    destruct (IH w1) as (bs & w' & Hall & Hq' & Hbs).
    { by rewrite Hfr1. }
    { by rewrite Hsz1. }
    { rewrite Hq1. unfold full. rewrite Hsz.
      destruct (Z.leb_spec n (Z.of_nat (length (_queue (queue w)))));
        rewrite ?length_app; cbn; lia. }
    rewrite (bind_run _ _ _ _ _ Hall). eexists _, w'. split; [reflexivity|].
    rewrite Hq', Hq1. unfold full in *. rewrite Hsz in *.
    destruct (Z.leb_spec n (Z.of_nat (length (_queue (queue w))))) as [Hfull|Hfree].
    + split.
      * rewrite !take_app_le by lia. done.
      * cbn [length seq fmap list_fmap negb]. f_equal.
        { rewrite bool_decide_eq_false_2 by lia. done. }
        rewrite Hbs, Hq1. rewrite <- (fmap_S_seq 0), <- list_fmap_compose.
        apply list_fmap_ext. intros i k _. cbn.
        apply bool_decide_ext. lia.
    + split.
      * by rewrite <- app_assoc.
      * cbn [length seq fmap list_fmap negb]. f_equal.
        { rewrite bool_decide_eq_true_2 by lia. done. }
        rewrite Hbs, Hq1. rewrite <- (fmap_S_seq 0), <- list_fmap_compose.
        apply list_fmap_ext. intros i k _. cbn.
        apply bool_decide_ext. rewrite length_app. cbn. lia.
Qed.

Lemma enqueue_all_unbounded es w :
  _frozen (queue w) = false → q_size (queue w) = None →
  ∃ w',
    enqueue_all es w = (Ok (replicate (length es) true), w') ∧
    _queue (queue w') = _queue (queue w) ++ es.
Proof.
  revert w. induction es as [|e es IH]; intros w Hfr Hsz.
  - exists w. cbn. by rewrite app_nil_r.
  - cbn [enqueue_all].
    destruct (enqueue_spec w (qe_msg e) (qe_expect e) (qe_emitter e) (qe_cb e))
      as (w1 & Hrun & Hsz1 & Hfr1 & Hq1 & _).
    rewrite (bind_run _ _ _ _ _ Hrun). rewrite queued_eta in Hq1.
    unfold full in *. rewrite Hsz, Hfr in *. cbn in Hq1.
    destruct (IH w1) as (w' & Hall & Hq'); [congruence|congruence|].
    rewrite (bind_run _ _ _ _ _ Hall). exists w'. split; [done|].
    by rewrite Hq', Hq1, <- app_assoc.
Qed.

(** A queue made by [new RequestQueue({size, timeout})] and filled by
    successive calls of [enqueue]: with a positive [size] it accepts the
    first [size] requests, in their order, and answers [false] to all
    later ones; with a [size] of 0 or below it is unbounded and accepts
    every request. *)
Theorem queue_keeps_the_first_size_requests (w : World) (size timeout : Z)
  (es : list QueueEntry) :
  queue w = new_RequestQueue size timeout →
  result (enqueue_all es) w =
    Ok ((λ i : nat, bool_decide (size ≤ 0 ∨ Z.of_nat i < size))
          <$> seq 0 (length es)) ∧
  _queue (queue (exec (enqueue_all es) w)) =
    (if 0 <? size then take (Z.to_nat size) es else es).
Proof.
  intros Hq.
  assert (Hfr : _frozen (queue w) = false) by by rewrite Hq.
  assert (Hemp : _queue (queue w) = []) by by rewrite Hq.
  assert (Hsz : q_size (queue w) = if 0 <? size then Some size else None)
    by by rewrite Hq.
  unfold result, exec. destruct (Z.ltb_spec 0 size) as [Hpos|Hneg].
  - destruct (enqueue_all_bounded es w size Hfr Hsz) as (bs & w' & Hrun & Hq' & Hbs).
    { rewrite Hemp. cbn. lia. }
    rewrite Hrun. cbn. rewrite Hq', Hemp. split; [|done].
    f_equal. rewrite Hbs, Hemp. apply list_fmap_ext. intros i k _.
    apply bool_decide_ext. cbn. lia.
  - destruct (enqueue_all_unbounded es w Hfr Hsz) as (w' & Hrun & Hq').
    rewrite Hrun. cbn. rewrite Hq', Hemp. split; [|done].
    f_equal. apply list_eq. intros i. rewrite list_lookup_fmap.
    destruct (decide (i < length es)%nat) as [Hi|Hi].
    + rewrite lookup_seq_lt, lookup_replicate_2 by done. cbn.
      rewrite bool_decide_eq_true_2; [done|]. left. lia.
    + rewrite lookup_seq_ge by lia. cbn. apply lookup_ge_None.
      rewrite length_replicate. lia.
Qed.

Lemma queue_keeps_the_first_size_requests_witness :
  result (enqueue_all three_compares) (new_Client small_queue_options) =
    Ok [true; true; false] ∧
  _queue (queue (exec (enqueue_all three_compares)
                      (new_Client small_queue_options))) =
    take 2 three_compares.
Proof.
  apply (queue_keeps_the_first_size_requests
           (new_Client small_queue_options) 2 0 three_compares).
  vm_compute; reflexivity.
Defined.

Lemma call_failure cb e w :
  call cb [AErr e] w = (Ok tt, set_trace (λ t, t ++ [failure e cb]) w).
Proof. by destruct cb. Qed.

Lemma set_trace_nil w : set_trace (λ t, t ++ []) w = w.
Proof. unfold set_trace. rewrite app_nil_r. apply world_eta. Qed.

Lemma set_trace_app w evs evs' :
  set_trace (λ t, t ++ evs') (set_trace (λ t, t ++ evs) w) =
  set_trace (λ t, t ++ evs ++ evs') w.
Proof. unfold set_trace. cbn. by rewrite app_assoc. Qed.

Lemma forEach_failure e items w :
  forEach items (λ q, call (qe_cb q) [AErr e]) w =
    (Ok tt, set_trace (λ t, t ++ map (λ q, failure e (qe_cb q)) items) w).
Proof.
  revert w. induction items as [|q items IH]; intros w; cbn [forEach map].
  - by rewrite set_trace_nil.
  - rewrite (bind_run _ _ _ _ _ (call_failure _ _ _)). rewrite IH.
    by rewrite set_trace_app.
Qed.

Lemma forEach_ret {A} (items : list A) w :
  forEach items (λ _, ret tt) w = (Ok tt, w).
Proof. induction items as [|q items IH]; cbn [forEach]; [done|]. exact IH. Qed.

(** [flush] first empties the queue and clears its timer, then runs the
    callbacks. *)
Lemma flush_forEach cb w :
  flush cb w = forEach (_queue (queue w)) cb (exec (flush (λ _, ret tt)) w).
Proof.
  unfold exec, flush. rewrite !bind_gets.
  destruct (_timer (queue w)) as [t|];
    unfold clearTimeout, set_q_timer, set_q_queue, bind, modify, ret;
    cbn beta iota; by rewrite forEach_ret.
Qed.

Lemma flush_ret_fields w :
  _queue (queue (exec (flush (λ _, ret tt)) w)) = [] ∧
  _timer (queue (exec (flush (λ _, ret tt)) w)) = None ∧
  _frozen (queue (exec (flush (λ _, ret tt)) w)) = _frozen (queue w) ∧
  q_size (queue (exec (flush (λ _, ret tt)) w)) = q_size (queue w) ∧
  trace (exec (flush (λ _, ret tt)) w) = trace w ∧
  socket (exec (flush (λ _, ret tt)) w) = socket w ∧
  connected (exec (flush (λ _, ret tt)) w) = connected w ∧
  sockets (exec (flush (λ _, ret tt)) w) = sockets w ∧
  retries (exec (flush (λ _, ret tt)) w) = retries w ∧
  destroyed (exec (flush (λ _, ret tt)) w) = destroyed w.
Proof.
  unfold exec, flush. rewrite !bind_gets.
  destruct (_timer (queue w)) as [t|] eqn:Ht;
    unfold clearTimeout, set_q_timer, set_q_queue, bind, modify, ret;
    cbn beta iota; rewrite forEach_ret; cbn; rewrite ?Ht; by repeat split.
Qed.

(** The function [enqueue] hands to [setTimeout], [freeze] then [purge]:
    it calls the callback of every queued request once, oldest first, with
    [Error('RequestQueue timeout')] as only argument, leaves the queue
    empty and frozen, and from then on [enqueue] answers [false] and
    changes nothing. *)
Theorem queue_timeout_fails_every_entry (w : World) :
  result onQueueTimeout w = Ok tt ∧
  trace (exec onQueueTimeout w) =
    trace w ++ map (λ q, failure (Error "RequestQueue timeout") (qe_cb q))
                   (_queue (queue w)) ∧
  _queue (queue (exec onQueueTimeout w)) = [] ∧
  _frozen (queue (exec onQueueTimeout w)) = true ∧
  ∀ m e em cb,
    result (enqueue m e em cb) (exec onQueueTimeout w) = Ok false ∧
    exec (enqueue m e em cb) (exec onQueueTimeout w) = exec onQueueTimeout w.
Proof.
  unfold result, exec, onQueueTimeout, freeze. rewrite bind_modify.
  unfold purge. rewrite flush_forEach.
  change (λ e, purge_cb e) with
    (λ q, call (qe_cb q) [AErr (Error "RequestQueue timeout")]).
  unfold purge_cb. rewrite forEach_failure. cbn [fst snd].
  match goal with |- context [exec _ ?w0] => set (w1 := w0) end.
  destruct (flush_ret_fields w1) as (Hq & _ & Hfr & _ & Htr & _).
  split; [done|]. split; [by cbn; rewrite Htr|]. split; [done|].
  split; [done|]. intros m e em cb. unfold enqueue. rewrite bind_gets.
  cbn [queue set_trace]. rewrite Hfr. cbn. by rewrite orb_true_r.
Qed.

(** ** Requests on a client without a connection *)

Lemma bind_ret {A B} (a : A) (k : A → M B) w : bind (ret a) k w = k a w.
Proof. reflexivity. Qed.

Lemma _connect_frame w :
  ∃ w' rest,
    _connect w = (Ok tt, w') ∧ trace w' = trace w ++ rest ∧
    (rest = [] ∨ ∃ c st fa, rest = [RetryStarted c st fa]) ∧
    (connecting w = true → w' = w ∧ rest = []) ∧
    connecting w' = true ∧
    queue w' = queue w ∧ socket w' = socket w ∧ connected w' = connected w ∧
    acts w' = acts w ∧ timers w' = timers w.
Proof.
  unfold _connect. rewrite bind_gets. destruct (connecting w) eqn:Hc.
  - exists w, []. rewrite app_nil_r. split_and!; try done. by left.
  - eexists _, [_]. split; [reflexivity|]. split_and!; try done.
    right. by do 3 eexists.
Qed.

Lemma _send_disconnected w d m e em cb :
  socket w = None ∨ connected w = false →
  _send d m e em cb false w =
    (let* ok := enqueue m e em cb in
     when (negb ok) (call cb [AErr (Error "unable to enqueue request")]) ;;
     let* rc := gets reconnect in
     when (bool_decide (is_Some rc)) _connect) w.
Proof.
  intros H. destruct d; cbn [_send]; rewrite !bind_gets; cbn [andb];
    destruct H as [->| ->]; try done;
    destruct (socket w); cbn; by rewrite ?orb_true_r.
Qed.

Lemma enqueue_refused w m e em cb :
  full (queue w) || _frozen (queue w) = true →
  enqueue m e em cb w = (Ok false, w).
Proof. intros H. unfold enqueue. rewrite bind_gets. by rewrite H. Qed.

(** [_send] on a client without a usable connection (no socket, or not
    connected) whose queue is full or frozen: the callback is called at
    once with [Error('unable to enqueue request')], the queue stays as it
    was and nothing is written; the only other effect is the connection
    attempt [_connect] starts when a reconnect policy is set and none is
    under way. *)
Theorem refused_request_fails_at_once (w : World) (d : nat) (m : Message)
  (e : Expect) (em : option nat) (cb : Callback) :
  socket w = None ∨ connected w = false →
  full (queue w) || _frozen (queue w) = true →
  ∃ rest,
    result (_send d m e em cb false) w = Ok tt ∧
    trace (exec (_send d m e em cb false) w) =
      trace w ++ failure (Error "unable to enqueue request") cb :: rest ∧
    (rest = [] ∨ ∃ c st fa, rest = [RetryStarted c st fa]) ∧
    (reconnect w = None ∨ connecting w = true → rest = []) ∧
    queue (exec (_send d m e em cb false) w) = queue w.
Proof.
  intros Hdis Hno. unfold result, exec.
  rewrite (_send_disconnected w d m e em cb Hdis).
  rewrite (bind_run _ _ _ _ _ (enqueue_refused w m e em cb Hno)).
  cbn [negb when].
  rewrite (bind_run _ _ _ _ _ (call_failure _ _ _)). rewrite bind_gets.
  cbn [reconnect set_trace].
  destruct (reconnect w) as [rc|] eqn:Hrc.
  - rewrite bool_decide_eq_true_2 by eauto. cbn [when].
    match goal with |- context [_connect ?w0] => set (w1 := w0) end.
    destruct (_connect_frame w1) as (w' & rest & -> & Htr & Hrest & Hcon & _ & Hq & _).
    exists rest. cbn [fst snd]. split; [done|]. split.
    { rewrite Htr. subst w1. cbn. by rewrite <- app_assoc. }
    split; [done|]. split; [|by rewrite Hq].
    intros [?|Hc]; [done|]. by apply Hcon.
  - rewrite bool_decide_eq_false_2 by (by intros [? ?]). cbn.
    exists []. split_and!; try done. by left.
Qed.

Lemma refused_request_fails_at_once_witness :
  ∃ rest,
    result (_send call_depth sample_request ExpectAbandon None (UserCb 0) false)
           (new_Client no_queue_options) = Ok tt ∧
    trace (exec (_send call_depth sample_request ExpectAbandon None (UserCb 0)
                       false)
                (new_Client no_queue_options)) =
      trace (new_Client no_queue_options) ++
      failure (Error "unable to enqueue request") (UserCb 0) :: rest ∧
    (rest = [] ∨ ∃ c st fa, rest = [RetryStarted c st fa]) ∧
    (reconnect (new_Client no_queue_options) = None ∨
     connecting (new_Client no_queue_options) = true → rest = []) ∧
    queue (exec (_send call_depth sample_request ExpectAbandon None (UserCb 0)
                       false)
                (new_Client no_queue_options)) =
      queue (new_Client no_queue_options).
Proof.
  apply (refused_request_fails_at_once (new_Client no_queue_options)
           call_depth sample_request ExpectAbandon None (UserCb 0)).
  - left. vm_compute; reflexivity.
  - vm_compute; reflexivity.
Defined.

(** [_send] on a client without a usable connection whose queue takes
    the request: the request goes to the end of the queue, no callback is
    called and nothing is written; the only other effect is the connection
    attempt [_connect] starts when a reconnect policy is set and none is
    under way. *)
Theorem request_without_connection_is_queued (w : World) (d : nat)
  (m : Message) (e : Expect) (em : option nat) (cb : Callback) :
  socket w = None ∨ connected w = false →
  full (queue w) || _frozen (queue w) = false →
  ∃ rest,
    result (_send d m e em cb false) w = Ok tt ∧
    _queue (queue (exec (_send d m e em cb false) w)) =
      _queue (queue w) ++ [queued m e em cb] ∧
    trace (exec (_send d m e em cb false) w) = trace w ++ rest ∧
    (rest = [] ∨ ∃ c st fa, rest = [RetryStarted c st fa]) ∧
    (reconnect w = None ∨ connecting w = true → rest = []).
Proof.
  intros Hdis Hyes. unfold result, exec.
  rewrite (_send_disconnected w d m e em cb Hdis).
  destruct (enqueue_spec w m e em cb)
    as (w1 & Hrun & _ & _ & Hq1 & Htr1 & _ & _ & Hc1 & Hrc1 & _).
  rewrite Hyes in Hrun, Hq1. rewrite (bind_run _ _ _ _ _ Hrun).
  cbn [negb when]. rewrite bind_ret, bind_gets. rewrite Hrc1.
  destruct (reconnect w) as [rc|] eqn:Hrc.
  - rewrite bool_decide_eq_true_2 by eauto. cbn [when].
    destruct (_connect_frame w1) as (w' & rest & -> & Htr & Hrest & Hcon & _ & Hq & _).
    exists rest. cbn [fst snd]. split; [done|]. split; [by rewrite Hq, Hq1|].
    split; [by rewrite Htr, Htr1|]. split; [done|].
    intros [?|Hc]; [done|]. apply Hcon. by rewrite Hc1.
  - rewrite bool_decide_eq_false_2 by (by intros [? ?]). cbn.
    exists []. rewrite app_nil_r. split_and!; try done. by left.
Qed.

Lemma request_without_connection_is_queued_witness :
  ∃ rest,
    result (_send call_depth sample_request ExpectAbandon None (UserCb 0) false)
           (new_Client plain_options) = Ok tt ∧
    _queue (queue (exec (_send call_depth sample_request ExpectAbandon None
                               (UserCb 0) false)
                        (new_Client plain_options))) =
      _queue (queue (new_Client plain_options)) ++
      [queued sample_request ExpectAbandon None (UserCb 0)] ∧
    trace (exec (_send call_depth sample_request ExpectAbandon None (UserCb 0)
                       false)
                (new_Client plain_options)) =
      trace (new_Client plain_options) ++ rest ∧
    (rest = [] ∨ ∃ c st fa, rest = [RetryStarted c st fa]) ∧
    (reconnect (new_Client plain_options) = None ∨
     connecting (new_Client plain_options) = true → rest = []).
Proof.
  apply (request_without_connection_is_queued (new_Client plain_options)
           call_depth sample_request ExpectAbandon None (UserCb 0)).
  - left. vm_compute; reflexivity.
  - vm_compute; reflexivity.
Defined.

Lemma unbind_no_socket w :
  socket w = None →
  unbind None w = (Ok tt, set_trace (λ t, t ++ [CalledNoop []]) w).
Proof. intros H. unfold unbind. rewrite bind_gets. by rewrite H. Qed.

(** [destroy()] on a client that has no socket: every queued request is
    failed once, oldest first, with [Error('client destroyed')]; then the
    no-op callback of the unbind runs and ['destroy'] is emitted.  The
    queue ends up empty and frozen, every retry call is stopped, and no
    socket is touched. *)
Theorem destroy_fails_queued_requests (w : World) :
  socket w = None →
  result destroy w = Ok tt ∧
  trace (exec destroy w) =
    trace w ++
    map (λ q, failure (Error "client destroyed") (qe_cb q)) (_queue (queue w)) ++
    [CalledNoop []; ClientEmit "destroy" []] ∧
  _queue (queue (exec destroy w)) = [] ∧
  _frozen (queue (exec destroy w)) = true ∧
  destroyed (exec destroy w) = true ∧
  Forall (λ r, running r = false) (retries (exec destroy w)) ∧
  sockets (exec destroy w) = sockets w.
Proof.
  intros Hsock. unfold result, exec, destroy, freeze. rewrite !bind_modify.
  match goal with |- context [bind (flush _) _ ?w0] => set (w1 := w0) end.
  assert (Hfl : flush (λ e, call (qe_cb e) [AErr (Error "client destroyed")]) w1 =
    (Ok tt, set_trace (λ t, t ++ map (λ q, failure (Error "client destroyed") (qe_cb q))
                                     (_queue (queue w)))
              (exec (flush (λ _, ret tt)) w1))).
  { rewrite flush_forEach. by rewrite forEach_failure. }
  rewrite (bind_run _ _ _ _ _ Hfl).
  destruct (flush_ret_fields w1)
    as (Hq & _ & Hfr & _ & Htr & Hso & _ & Hss & Hre & Hde).
  match goal with |- context [bind (unbind None) _ ?w0] => set (w2 := w0) end.
  assert (Hs2 : socket w2 = None) by (subst w2; cbn [socket set_trace]; by rewrite Hso).
  rewrite (bind_run _ _ _ _ _ (unbind_no_socket w2 Hs2)). subst w2.
  unfold emit. rewrite !bind_modify.
  cbn [fst snd]. unfold modify.
  cbn [fst snd trace queue destroyed retries sockets set_retries set_trace].
  rewrite Hq, Hfr, Htr, Hss, Hde. cbn.
  split; [done|]. split; [by rewrite <- !app_assoc|].
  split; [done|]. split; [done|]. split; [done|]. split; [|done].
  apply Forall_forall. intros r (r0 & -> & _)%list_elem_of_fmap. done.
Qed.

Lemma destroy_fails_queued_requests_witness :
  result destroy first_enqueue = Ok tt ∧
  trace (exec destroy first_enqueue) =
    trace first_enqueue ++
    map (λ q, failure (Error "client destroyed") (qe_cb q))
        (_queue (queue first_enqueue)) ++
    [CalledNoop []; ClientEmit "destroy" []] ∧
  _queue (queue (exec destroy first_enqueue)) = [] ∧
  _frozen (queue (exec destroy first_enqueue)) = true ∧
  destroyed (exec destroy first_enqueue) = true ∧
  Forall (λ r, running r = false) (retries (exec destroy first_enqueue)) ∧
  sockets (exec destroy first_enqueue) = sockets first_enqueue.
Proof.
  apply (destroy_fails_queued_requests first_enqueue).
  vm_compute; reflexivity.
Defined.

Lemma new_Client_fields o :
  socket (new_Client o) = None ∧ connected (new_Client o) = false ∧
  connecting (new_Client o) = true ∧
  reconnect (new_Client o) = reconnect_object <$> o_reconnect o ∧
  queue (new_Client o) =
    (if default true (o_queuing o)
     then new_RequestQueue (parseInt_or (o_queueSize o) 0)
                           (parseInt_or (o_queueTimeout o) 0)
     else {| q_size := q_size (new_RequestQueue (parseInt_or (o_queueSize o) 0)
                                                (parseInt_or (o_queueTimeout o) 0));
             q_timeout := q_timeout (new_RequestQueue (parseInt_or (o_queueSize o) 0)
                                                (parseInt_or (o_queueTimeout o) 0));
             _queue := []; _timer := None; _frozen := true |}) ∧
  sockets (new_Client o) =
    {[ 0%nat := {| ldap := Some (initSocket_ldap (o_url o));
                   unbindMessageID := None; writable := false;
                   write_throws := false; pendingWrites := [] |} ]} ∧
  trace (new_Client o) =
    [RetryStarted 0 (strategy (new_retry (reconnect_object <$> o_reconnect o)))
                    (failAfter (new_retry (reconnect_object <$> o_reconnect o)))].
Proof.
  unfold new_Client, exec. destruct (default true (o_queuing o)); cbn [negb when].
  - rewrite bind_ret. unfold _connect. rewrite bind_gets. cbn [connecting].
    rewrite bind_gets, bind_modify. unfold connectSocket.
    by repeat split.
  - unfold freeze. rewrite bind_modify. unfold _connect. rewrite bind_gets.
    cbn [connecting set_queue]. rewrite bind_gets, bind_modify.
    unfold connectSocket. by repeat split.
Qed.

Lemma new_RequestQueue_not_full size timeout :
  full (new_RequestQueue size timeout) = false.
Proof.
  unfold full, new_RequestQueue. cbn.
  destruct (Z.ltb_spec 0 size); [|done]. cbn. apply Z.leb_gt. lia.
Qed.

(** A request made right after [new Client(options)], whatever the
    options: the client is dialling its first socket and dials no second
    one.  With queuing on (the default) the request is the only entry of
    the queue and no callback runs; with [queuing: false] the queue stays
    empty and the callback gets [Error('unable to enqueue request')]. *)
Theorem request_after_construction (o : Options) (d : nat) (m : Message)
  (e : Expect) (em : option nat) (cb : Callback) :
  result (_send d m e em cb false) (new_Client o) = Ok tt ∧
  sockets (exec (_send d m e em cb false) (new_Client o)) =
    sockets (new_Client o) ∧
  (o_queuing o ≠ Some false →
     _queue (queue (exec (_send d m e em cb false) (new_Client o))) =
       [queued m e em cb] ∧
     trace (exec (_send d m e em cb false) (new_Client o)) =
       trace (new_Client o)) ∧
  (o_queuing o = Some false →
     _queue (queue (exec (_send d m e em cb false) (new_Client o))) = [] ∧
     trace (exec (_send d m e em cb false) (new_Client o)) =
       trace (new_Client o) ++
       [failure (Error "unable to enqueue request") cb]).
Proof.
  destruct (new_Client_fields o) as (Hs & Hc & Hcing & Hrc & Hq & Hss & Htr).
  set (w := new_Client o) in *. clearbody w. unfold result, exec.
  rewrite (_send_disconnected w d m e em cb (or_introl Hs)).
  assert (Hconn : ∀ w1, connecting w1 = true →
            (let* rc := gets reconnect in
             when (bool_decide (is_Some rc)) _connect) w1 = (Ok tt, w1)).
  { intros w1 H1. rewrite bind_gets. destruct (bool_decide _); [|done].
    cbn [when]. unfold _connect. rewrite bind_gets. by rewrite H1. }
  destruct (o_queuing o) as [[]|] eqn:Hqing;
    unfold default, from_option, id in Hq; cbn beta iota in Hq.
  - destruct (enqueue_spec w m e em cb)
      as (w1 & Hrun & _ & _ & Hq1 & Htr1 & _ & _ & Hc1 & _ & Hss1 & _).
    rewrite Hq, new_RequestQueue_not_full in Hrun, Hq1.
    cbn [negb orb _frozen _queue new_RequestQueue app] in Hrun, Hq1.
    rewrite (bind_run _ _ _ _ _ Hrun). cbn [negb when]. rewrite bind_ret.
    rewrite Hconn by (by rewrite Hc1). cbn [fst snd].
    split; [done|]. split; [done|]. split; [|done]. intros _.
    split; [by rewrite Hq1|done].
  - assert (Hno : full (queue w) || _frozen (queue w) = true)
      by (rewrite Hq; cbn [_frozen]; apply orb_true_r).
    rewrite (bind_run _ _ _ _ _ (enqueue_refused w m e em cb Hno)).
    cbn [negb when]. rewrite (bind_run _ _ _ _ _ (call_failure _ _ _)).
    rewrite Hconn by done. cbn [fst snd].
    split; [done|]. split; [done|]. split; [done|]. intros _.
    cbn. by rewrite Hq.
  - destruct (enqueue_spec w m e em cb)
      as (w1 & Hrun & _ & _ & Hq1 & Htr1 & _ & _ & Hc1 & _ & Hss1 & _).
    rewrite Hq, new_RequestQueue_not_full in Hrun, Hq1.
    cbn [negb orb _frozen _queue new_RequestQueue app] in Hrun, Hq1.
    rewrite (bind_run _ _ _ _ _ Hrun). cbn [negb when]. rewrite bind_ret.
    rewrite Hconn by (by rewrite Hc1). cbn [fst snd].
    split; [done|]. split; [done|]. split; [|done]. intros _.
    split; [by rewrite Hq1|done].
Qed.

(** ** What [_sendSocket] leaves behind *)

Lemma _updateIdle_true_eq w :
  _updateIdle true w =
    (Ok tt,
     if idleTimeout w =? 0 then w
     else match _idleTimer w with
          | Some h => set_idleTimer None (set_timers (delete h) w)
          | None => w
          end).
Proof.
  unfold _updateIdle. rewrite bind_gets.
  destruct (idleTimeout w =? 0); [done|].
  unfold isIdle. rewrite bind_ret, bind_gets.
  destruct (_idleTimer w) as [h|]; [|done]. reflexivity.
Qed.

Lemma arm_timer_eq w a :
  (let* t := gets timeout in
   when (negb (t =? 0))
        (let* h := setTimeout (RequestTimeout a) t in
         set_a_timer a (Some h))) w =
  (Ok tt,
   if timeout w =? 0 then w
   else exec (set_a_timer a (Some (next w)))
          (set_timers (insert (next w) (RequestTimeout a, timeout w))
             (set_next (S (next w)) w))).
Proof.
  rewrite bind_gets. destruct (timeout w =? 0); cbn [negb when]; [done|].
  reflexivity.
Qed.

(** The world in which [_sendSocket] calls [conn.write]: the request has
    its id and its entry in the table, the idle timer is off and the
    request timer, if any, runs. *)
Lemma _sendSocket_before_write w s sock l m e em cb :
  socket w = Some s → sockets w !! s = Some sock → ldap sock = Some l →
  ∃ w4,
    _sendSocket m e em cb w =
      try_catch
        (write s {| messageID := fst (getNextMessageID l);
                    protocolOp := protocolOp m; controls := controls m |}
               (Some (next w)))
        (λ e0, clear_timer (next w) ;; call cb [AErr e0]) w4 ∧
    trace w4 = trace w ∧ socket w4 = socket w ∧ connected w4 = connected w ∧
    queue w4 = queue w ∧ idleTimeout w4 = idleTimeout w ∧
    timeout w4 = timeout w ∧
    acts w4 =
      <[next w := sent s m (fst (getNextMessageID l)) e em cb
                    (if timeout w =? 0 then None else Some (S (next w)))]>
        (acts w) ∧
    sockets w4 =
      <[s := {| ldap := Some {| ldap_id := ldap_id l;
                                ldap_messageID := fst (getNextMessageID l);
                                ldap_messages :=
                                  <[fst (getNextMessageID l) := next w]>
                                    (ldap_messages l) |};
                unbindMessageID := unbindMessageID sock;
                writable := writable sock; write_throws := write_throws sock;
                pendingWrites := pendingWrites sock |}]> (sockets w) ∧
    _idleTimer w4 = (if idleTimeout w =? 0 then _idleTimer w else None) ∧
    timers w4 =
      (if timeout w =? 0 then id
       else insert (S (next w)) (RequestTimeout (next w), timeout w))
        (if idleTimeout w =? 0 then timers w
         else match _idleTimer w with
              | Some h => delete h (timers w)
              | None => timers w
              end).
Proof.
  intros Hsock Hs Hl. unfold _sendSocket.
  rewrite bind_gets. rewrite Hsock.
  rewrite (bind_run _ _ _ _ _ (conn_ldap_run _ _ _ _ Hs Hl)).
  change (getNextMessageID l) with
    (fst (getNextMessageID l), snd (getNextMessageID l)) at 1. cbn iota.
  unfold set_ldap. rewrite bind_modify, bind_gets, !bind_modify.
  cbn [next set_sockets].
  match goal with |- context [bind (set_messages _ _) _ ?w0] => set (w1 := w0) end.
  assert (Hs1 : sockets w1 !! s = Some
            {| ldap := Some (getNextMessageID l).2;
               unbindMessageID := unbindMessageID sock;
               writable := writable sock; write_throws := write_throws sock;
               pendingWrites := pendingWrites sock |}).
  { subst w1. cbn. by rewrite lookup_alter_eq, Hs. }
  rewrite (bind_run _ _ _ _ _ (set_messages_run w1 s _ _ _ Hs1 eq_refl)).
  rewrite (bind_run _ _ _ _ _ (_updateIdle_true_eq _)).
  match goal with |- context [bind _ _ ?w0] => set (w3 := w0) end.
  pose proof (bind_run _ (λ _, try_catch
             (write s
                {| messageID := fst (getNextMessageID l);
                   protocolOp := protocolOp m; controls := controls m |}
                (Some (next w)))
             (λ e0 : Err, clear_timer (next w);; call cb [AErr e0])) _ _ _
             (arm_timer_eq w3 (next w))) as Hb.
  cbn beta in Hb.
  match goal with |- context [bind ?mm ?kk w3] =>
    change (bind mm kk w3) with (bind (let* t := gets timeout in
     when (negb (t =? 0))
          (let* h := setTimeout (RequestTimeout (next w)) t in
           set_a_timer (next w) (Some h))) (λ _, try_catch
             (write s
                {| messageID := fst (getNextMessageID l);
                   protocolOp := protocolOp m; controls := controls m |}
                (Some (next w)))
             (λ e0 : Err, clear_timer (next w);; call cb [AErr e0])) w3) end.
  rewrite Hb. clear Hb.
  eexists. split; [reflexivity|].
  assert (Hx : sockets w3 =
      <[s := {| ldap := Some {| ldap_id := ldap_id l;
                                ldap_messageID := fst (getNextMessageID l);
                                ldap_messages :=
                                  <[fst (getNextMessageID l) := next w]>
                                    (ldap_messages l) |};
                unbindMessageID := unbindMessageID sock;
                writable := writable sock; write_throws := write_throws sock;
                pendingWrites := pendingWrites sock |}]> (sockets w)).
  { subst w3 w1. cbn [idleTimeout set_sockets set_acts set_next].
    assert (Hy : ∀ w0 : World,
      sockets (if idleTimeout w =? 0 then w0
               else match _idleTimer w0 with
                    | Some h => set_idleTimer None (set_timers (delete h) w0)
                    | None => w0
                    end) = sockets w0).
    { intros w0. destruct (idleTimeout w =? 0); [done|].
      by destruct (_idleTimer w0). }
    rewrite Hy. cbn [sockets set_sockets set_acts set_next].
    apply map_eq. intros i. destruct (decide (i = s)) as [->|Hne].
    - rewrite !lookup_alter_eq, lookup_insert_eq, Hs. reflexivity.
    - rewrite !lookup_alter_ne, lookup_insert_ne by done. done. }
  subst w3 w1.
  cbn [idleTimeout timeout _idleTimer next set_sockets set_acts set_next] in *.
  destruct (idleTimeout w =? 0) eqn:Hit, (timeout w =? 0) eqn:Hto;
    try destruct (_idleTimer w) as [h|] eqn:Hh;
    cbn [timeout set_sockets set_acts set_next set_timers set_idleTimer
         exec snd set_a_timer modify next] in *;
    rewrite ?Hto;
    cbn [trace socket connected queue idleTimeout timeout acts sockets
         _idleTimer timers set_sockets set_acts set_next set_timers
         set_idleTimer id];
    (split_and!; try done);
    try (apply map_eq; intros i; destruct (decide (i = next w)) as [->|Hne];
         [by rewrite lookup_alter_eq, !lookup_insert_eq
         |by rewrite lookup_alter_ne, !lookup_insert_ne by done]).
Qed.

Lemma clear_timer_eq w a act :
  acts w !! a = Some act →
  clear_timer a w =
    (Ok tt, match a_timer act with
            | Some t => set_timers (delete t) w
            | None => w
            end).
Proof.
  intros H. unfold clear_timer.
  rewrite (bind_run _ _ _ _ _ (activation_run _ _ _ H)).
  by destruct (a_timer act).
Qed.

Lemma _sendSocket_written w s sock l m e em cb :
  socket w = Some s → sockets w !! s = Some sock → ldap sock = Some l →
  write_throws sock = false →
  ∃ w',
    _sendSocket m e em cb w = (Ok tt, w') ∧
    trace w' = trace w ++
      [Wrote s {| messageID := fst (getNextMessageID l);
                  protocolOp := protocolOp m; controls := controls m |}] ∧
    socket w' = socket w ∧ connected w' = connected w ∧
    queue w' = queue w ∧ idleTimeout w' = idleTimeout w ∧
    timeout w' = timeout w ∧
    acts w' =
      <[next w := sent s m (fst (getNextMessageID l)) e em cb
                    (if timeout w =? 0 then None else Some (S (next w)))]>
        (acts w) ∧
    sockets w' =
      <[s := {| ldap := Some {| ldap_id := ldap_id l;
                                ldap_messageID := fst (getNextMessageID l);
                                ldap_messages :=
                                  <[fst (getNextMessageID l) := next w]>
                                    (ldap_messages l) |};
                unbindMessageID := unbindMessageID sock;
                writable := writable sock; write_throws := write_throws sock;
                pendingWrites := pendingWrites sock ++ [next w] |}]>
        (sockets w) ∧
    _idleTimer w' = (if idleTimeout w =? 0 then _idleTimer w else None) ∧
    timers w' =
      (if timeout w =? 0 then id
       else insert (S (next w)) (RequestTimeout (next w), timeout w))
        (if idleTimeout w =? 0 then timers w
         else match _idleTimer w with
              | Some h => delete h (timers w)
              | None => timers w
              end).
Proof.
  intros Hsock Hs Hl Hw.
  destruct (_sendSocket_before_write w s sock l m e em cb Hsock Hs Hl)
    as (w4 & -> & Htr & Hso & Hc & Hq & Hit & Hto & Ha & Hss & Hidle & Htm).
  unfold try_catch, write.
  assert (Hs4 : sockets w4 !! s = Some
    {| ldap := Some {| ldap_id := ldap_id l;
                       ldap_messageID := fst (getNextMessageID l);
                       ldap_messages :=
                         <[fst (getNextMessageID l) := next w]> (ldap_messages l) |};
       unbindMessageID := unbindMessageID sock;
       writable := writable sock; write_throws := write_throws sock;
       pendingWrites := pendingWrites sock |})
    by (by rewrite Hss, lookup_insert_eq).
  rewrite (bind_run _ _ _ _ _ (get_socket_run _ _ _ Hs4)). cbn [write_throws].
  rewrite Hw. unfold emit. rewrite bind_modify.
  eexists. split; [reflexivity|].
  cbn [trace socket connected queue idleTimeout timeout acts sockets _idleTimer
       timers set_sockets set_trace].
  rewrite Htr, Hso, Hc, Hq, Hit, Hto, Ha, Hidle, Htm. split_and!; try done.
  rewrite Hss. apply map_eq. intros i. destruct (decide (i = s)) as [->|Hne].
  - rewrite lookup_alter_eq, !lookup_insert_eq. cbn. by rewrite Hw.
  - by rewrite lookup_alter_ne, !lookup_insert_ne by done.
Qed.

Lemma _sendSocket_write_fails w s sock l m e em cb :
  socket w = Some s → sockets w !! s = Some sock → ldap sock = Some l →
  write_throws sock = true →
  ∃ w',
    _sendSocket m e em cb w = (Ok tt, w') ∧
    trace w' = trace w ++ [failure (Error "write failed") cb] ∧
    socket w' = socket w ∧ connected w' = connected w ∧ queue w' = queue w ∧
    acts w' =
      <[next w := sent s m (fst (getNextMessageID l)) e em cb
                    (if timeout w =? 0 then None else Some (S (next w)))]>
        (acts w) ∧
    sockets w' =
      <[s := {| ldap := Some {| ldap_id := ldap_id l;
                                ldap_messageID := fst (getNextMessageID l);
                                ldap_messages :=
                                  <[fst (getNextMessageID l) := next w]>
                                    (ldap_messages l) |};
                unbindMessageID := unbindMessageID sock;
                writable := writable sock; write_throws := write_throws sock;
                pendingWrites := pendingWrites sock |}]>
        (sockets w) ∧
    timers w' =
      (if timeout w =? 0 then id else delete (S (next w)))
        ((if timeout w =? 0 then id
          else insert (S (next w)) (RequestTimeout (next w), timeout w))
           (if idleTimeout w =? 0 then timers w
            else match _idleTimer w with
                 | Some h => delete h (timers w)
                 | None => timers w
                 end)).
Proof.
  intros Hsock Hs Hl Hw.
  destruct (_sendSocket_before_write w s sock l m e em cb Hsock Hs Hl)
    as (w4 & -> & Htr & Hso & Hc & Hq & Hit & Hto & Ha & Hss & Hidle & Htm).
  unfold try_catch, write.
  assert (Hs4 : sockets w4 !! s = Some
    {| ldap := Some {| ldap_id := ldap_id l;
                       ldap_messageID := fst (getNextMessageID l);
                       ldap_messages :=
                         <[fst (getNextMessageID l) := next w]> (ldap_messages l) |};
       unbindMessageID := unbindMessageID sock;
       writable := writable sock; write_throws := write_throws sock;
       pendingWrites := pendingWrites sock |})
    by (by rewrite Hss, lookup_insert_eq).
  rewrite (bind_run _ _ _ _ _ (get_socket_run _ _ _ Hs4)). cbn [write_throws].
  rewrite Hw. unfold throw at 1. cbn iota.
  assert (Ha4 : acts w4 !! next w = Some
    (sent s m (fst (getNextMessageID l)) e em cb
       (if timeout w =? 0 then None else Some (S (next w)))))
    by (by rewrite Ha, lookup_insert_eq).
  rewrite (bind_run _ _ _ _ _ (clear_timer_eq _ _ _ Ha4)).
  cbn [a_timer sent]. rewrite call_failure.
  destruct (timeout w =? 0).
  - eexists. split; [reflexivity|].
    cbn [trace socket connected queue acts sockets timers set_trace].
    rewrite Htr, Hso, Hc, Hq, Ha, Hss, Htm, ?Hw. by split_and!.
  - eexists. split; [reflexivity|].
    cbn [trace socket connected queue acts sockets timers set_trace set_timers].
    rewrite Htr, Hso, Hc, Hq, Ha, Hss, Htm, ?Hw. by split_and!.
Qed.

(** [_sendSocket] when [conn.write] raises: the callback is called with
    the error and that is all the caller sees.  The request timer, if one
    was started, is cleared again; the entry made for the request stays
    in the table of the socket, and no write callback waits for it. *)
Theorem write_failure_goes_to_the_callback (w : World) (s : nat)
  (sock : Socket) (l : Ldap) (m : Message) (e : Expect) (em : option nat)
  (cb : Callback) :
  socket w = Some s → sockets w !! s = Some sock → ldap sock = Some l →
  write_throws sock = true →
  result (_sendSocket m e em cb) w = Ok tt ∧
  trace (exec (_sendSocket m e em cb) w) =
    trace w ++ [failure (Error "write failed") cb] ∧
  (∃ sock' l',
     sockets (exec (_sendSocket m e em cb) w) !! s = Some sock' ∧
     ldap sock' = Some l' ∧
     ldap_messages l' !! fst (getNextMessageID l) = Some (next w) ∧
     pendingWrites sock' = pendingWrites sock) ∧
  (∃ tm, acts (exec (_sendSocket m e em cb) w) !! next w =
           Some (sent s m (fst (getNextMessageID l)) e em cb tm)) ∧
  (∀ t d, timers (exec (_sendSocket m e em cb) w) !! t =
            Some (RequestTimeout (next w), d) →
          timers w !! t = Some (RequestTimeout (next w), d)).
Proof.
  intros Hsock Hs Hl Hw.
  destruct (_sendSocket_write_fails w s sock l m e em cb Hsock Hs Hl Hw)
    as (w' & Hrun & Htr & _ & _ & _ & Ha & Hss & Htm).
  unfold result, exec. rewrite Hrun. cbn [fst snd].
  split; [done|]. split; [done|]. split; [|split].
  - do 2 eexists. rewrite Hss, lookup_insert_eq. split; [done|].
    split; [done|]. cbn. by rewrite lookup_insert_eq.
  - eexists. by rewrite Ha, lookup_insert_eq.
  - intros t d. rewrite Htm.
    assert (Hbase : ∀ x,
      (if idleTimeout w =? 0 then timers w
       else match _idleTimer w with
            | Some h => delete h (timers w)
            | None => timers w
            end) !! t = Some x → timers w !! t = Some x).
    { intros x. destruct (idleTimeout w =? 0); [done|].
      destruct (_idleTimer w) as [h|]; [|done].
      by intros [_ ?]%lookup_delete_Some. }
    destruct (timeout w =? 0); [apply Hbase|].
    intros [Hne H]%lookup_delete_Some. rewrite lookup_insert_ne in H by done.
    by apply Hbase.
Qed.

Lemma write_failure_goes_to_the_callback_witness :
  result (_sendSocket sample_request ExpectAbandon None (UserCb 0))
         broken_client = Ok tt ∧
  trace (exec (_sendSocket sample_request ExpectAbandon None (UserCb 0))
              broken_client) =
    trace broken_client ++ [failure (Error "write failed") (UserCb 0)] ∧
  (∃ sock' l',
     sockets (exec (_sendSocket sample_request ExpectAbandon None (UserCb 0))
                   broken_client) !! 0%nat = Some sock' ∧
     ldap sock' = Some l' ∧
     ldap_messages l' !! fst (getNextMessageID fresh_ldap) =
       Some (next broken_client) ∧
     pendingWrites sock' = pendingWrites (fresh_socket true true)) ∧
  (∃ tm, acts (exec (_sendSocket sample_request ExpectAbandon None (UserCb 0))
                    broken_client) !! next broken_client =
           Some (sent 0 sample_request (fst (getNextMessageID fresh_ldap))
                      ExpectAbandon None (UserCb 0) tm)) ∧
  (∀ t d, timers (exec (_sendSocket sample_request ExpectAbandon None
                                    (UserCb 0))
                       broken_client) !! t =
            Some (RequestTimeout (next broken_client), d) →
          timers broken_client !! t =
            Some (RequestTimeout (next broken_client), d)).
Proof.
  apply (write_failure_goes_to_the_callback broken_client 0
           (fresh_socket true true) fresh_ldap sample_request ExpectAbandon
           None (UserCb 0)); vm_compute; reflexivity.
Defined.

(** [_send] with [_bypass] on a client whose socket is writable: the
    request is written at once with the next id, whether or not the client
    counts as connected, and the queue is left as it is, so requests
    queued earlier are overtaken. *)
Theorem bypass_overtakes_the_queue (w : World) (d s : nat) (sock : Socket)
  (l : Ldap) (m : Message) (e : Expect) (em : option nat) (cb : Callback) :
  socket w = Some s → sockets w !! s = Some sock → writable sock = true →
  ldap sock = Some l → write_throws sock = false →
  result (_send d m e em cb true) w = Ok tt ∧
  trace (exec (_send d m e em cb true) w) =
    trace w ++
    [Wrote s {| messageID := fst (getNextMessageID l);
                protocolOp := protocolOp m; controls := controls m |}] ∧
  queue (exec (_send d m e em cb true) w) = queue w ∧
  connected (exec (_send d m e em cb true) w) = connected w.
Proof.
  intros Hsock Hs Hwr Hl Hw.
  assert (Hby : _send d m e em cb true w = _sendSocket m e em cb w).
  { destruct d; cbn [_send]; rewrite !bind_gets, Hsock, Hs; cbn [from_option andb];
      by rewrite Hwr. }
  destruct (_sendSocket_written w s sock l m e em cb Hsock Hs Hl Hw)
    as (w' & Hrun & Htr & _ & Hc & Hq & _).
  unfold result, exec. by rewrite Hby, Hrun.
Qed.

Lemma bypass_overtakes_the_queue_witness :
  _queue (queue connected_with_queue) =
    [queued sample_request ExpectAbandon None (UserCb 0)] ∧
  result (_send call_depth sample_request ExpectAbandon None (UserCb 1) true)
         connected_with_queue = Ok tt ∧
  trace (exec (_send call_depth sample_request ExpectAbandon None (UserCb 1)
                     true)
              connected_with_queue) =
    trace connected_with_queue ++
    [Wrote 0 {| messageID := fst (getNextMessageID fresh_ldap);
                protocolOp := protocolOp sample_request;
                controls := controls sample_request |}] ∧
  queue (exec (_send call_depth sample_request ExpectAbandon None (UserCb 1)
                     true)
              connected_with_queue) = queue connected_with_queue ∧
  connected (exec (_send call_depth sample_request ExpectAbandon None
                         (UserCb 1) true)
                  connected_with_queue) = connected connected_with_queue.
Proof.
  split; [vm_compute; reflexivity|].
  apply (bypass_overtakes_the_queue connected_with_queue call_depth 0
           (fresh_socket true false) fresh_ldap sample_request ExpectAbandon
           None (UserCb 1)); vm_compute; reflexivity.
Defined.

(** ** What a handler can touch *)

Section frames.
Context {B : Type} (f : World → B).
Hypothesis f_timers : ∀ g w, f (set_timers g w) = f w.
Hypothesis f_trace : ∀ g w, f (set_trace g w) = f w.
Hypothesis f_next : ∀ n w, f (set_next n w) = f w.
Hypothesis f_idleTimer : ∀ x w, f (set_idleTimer x w) = f w.
Hypothesis f_acts : ∀ g w, f (set_acts g w) = f w.

Lemma frames_ret {A} (a : A) : frames f (ret a).
Proof. by intros w. Qed.

Lemma frames_throw {A} e : frames f (@throw A e).
Proof. by intros w. Qed.

Lemma frames_gets {A} (g : World → A) : frames f (gets g).
Proof. by intros w. Qed.

Lemma frames_bind {A C} (m : M A) (k : A → M C) :
  frames f m → (∀ a, frames f (k a)) → frames f (bind m k).
Proof.
  intros Hm Hk w. unfold bind. specialize (Hm w).
  destruct (m w) as [[a|e] w1]; cbn in *; [|done].
  by rewrite (Hk a w1).
Qed.

Lemma frames_try_catch {A} (m : M A) (h : Err → M A) :
  frames f m → (∀ e, frames f (h e)) → frames f (try_catch m h).
Proof.
  intros Hm Hh w. unfold try_catch. specialize (Hm w).
  destruct (m w) as [[a|e] w1]; cbn in *; [done|].
  by rewrite (Hh e w1).
Qed.

Lemma frames_emit ev : frames f (emit ev).
Proof. intros w. apply f_trace. Qed.

Lemma frames_call cb args : frames f (call cb args).
Proof.
  unfold call, lift_event. destruct (call_event cb args);
    [apply frames_emit|apply frames_throw].
Qed.

Lemma frames_activation a : frames f (activation a).
Proof.
  unfold activation. apply frames_bind; [apply frames_gets|]. intros m.
  destruct (m !! a); [apply frames_ret|apply frames_throw].
Qed.

Lemma frames_clear_timer a : frames f (clear_timer a).
Proof.
  unfold clear_timer. apply frames_bind; [apply frames_activation|].
  intros act. destruct (a_timer act); [|apply frames_ret].
  intros w. apply f_timers.
Qed.

Lemma frames_done a event obj : frames f (_done a event obj).
Proof.
  unfold _done. apply frames_bind; [apply frames_activation|]. intros act.
  unfold lift_event. destruct (done_event act event obj);
    [apply frames_emit|apply frames_throw].
Qed.

Lemma frames_get_socket s : frames f (get_socket s).
Proof.
  unfold get_socket. apply frames_bind; [apply frames_gets|]. intros m.
  destruct (m !! s); [apply frames_ret|apply frames_throw].
Qed.

Lemma frames_conn_ldap s : frames f (conn_ldap s).
Proof.
  unfold conn_ldap. apply frames_bind; [apply frames_get_socket|].
  intros sock. destruct (ldap sock); [apply frames_ret|apply frames_throw].
Qed.

Lemma frames_write conn m : frames f (write conn m None).
Proof.
  unfold write. apply frames_bind; [apply frames_get_socket|]. intros sock.
  destruct (write_throws sock); [apply frames_throw|].
  apply frames_bind; [apply frames_emit|]. intros _. apply frames_ret.
Qed.

Lemma frames_continuePagedSearch_from a cs :
  frames f (_continuePagedSearch_from a cs).
Proof.
  induction cs as [|[sz cookie|oid crit] cs IH]; cbn [_continuePagedSearch_from];
    [apply frames_ret| |done].
  case_bool_decide; [done|].
  apply frames_bind; [apply frames_activation|]. intros act.
  destruct (update_cookie cookie (controls (a_message act))); [|done].
  apply frames_bind; [intros w; apply f_acts|]. intros _.
  apply frames_try_catch.
  - apply frames_bind; [apply frames_write|]. intros _. apply frames_ret.
  - intros e. apply frames_bind; [apply frames_clear_timer|]. intros _.
    apply frames_bind; [apply frames_call|]. intros _. apply frames_ret.
Qed.

Lemma frames_continuePagedSearch a msg : frames f (_continuePagedSearch a msg).
Proof.
  unfold _continuePagedSearch. destruct (msg_controls msg);
    [apply frames_continuePagedSearch_from|apply frames_ret].
Qed.

Lemma frames_isIdle b : frames f (isIdle b).
Proof.
  unfold isIdle. destruct b; [apply frames_ret|].
  do 2 (apply frames_bind; [apply frames_gets|intros ?]).
  destruct a; [|apply frames_ret]. destruct a0; [|apply frames_ret].
  apply frames_bind; [apply frames_conn_ldap|]. intros l. apply frames_ret.
Qed.

Lemma frames_setTimeout task d : frames f (setTimeout task d).
Proof.
  unfold setTimeout. apply frames_bind; [apply frames_gets|]. intros t.
  apply frames_bind; [intros w; apply f_next|]. intros _.
  apply frames_bind; [intros w; apply f_timers|]. intros _. apply frames_ret.
Qed.

Lemma frames_updateIdle b : frames f (_updateIdle b).
Proof.
  unfold _updateIdle. apply frames_bind; [apply frames_gets|intros it].
  destruct (it =? 0); [apply frames_ret|].
  apply frames_bind; [apply frames_isIdle|intros idle].
  apply frames_bind; [apply frames_gets|intros t].
  destruct idle, t; try apply frames_ret.
  - apply frames_bind; [apply frames_setTimeout|]. intros h w. apply f_idleTimer.
  - apply frames_bind; [intros w; apply f_timers|]. intros _ w. apply f_idleTimer.
Qed.

(** Up to the point where the request leaves the table, a handler
    changes no socket; with [f] blind to the table too, it never does. *)
Lemma frames_messageCallback a msg :
  (∀ s g, frames f (set_messages s g)) → frames f (messageCallback a msg).
Proof.
  intros Hset. unfold messageCallback.
  apply frames_bind; [apply frames_clear_timer|]. intros _.
  apply frames_bind; [apply frames_activation|]. intros act.
  destruct (is_abandon (a_expect act)); [apply frames_done|].
  assert (Hrest : frames f
    (let* continued := _continuePagedSearch a msg in
     if continued then ret tt
     else
       let* act := activation a in
       set_messages (a_conn act) (delete (messageID (a_message act))) ;;
       _updateIdle false ;;
       let '(event, obj) := verdict (a_expect act) msg in
       _done a event obj)).
  { apply frames_bind; [apply frames_continuePagedSearch|]. intros [|];
      [apply frames_ret|].
    apply frames_bind; [apply frames_activation|]. intros act'.
    apply frames_bind; [apply Hset|]. intros _.
    apply frames_bind; [apply frames_updateIdle|]. intros _.
    destruct (verdict (a_expect act') msg). apply frames_done. }
  destruct msg; try exact Hrest; apply frames_done.
Qed.

End frames.

Lemma client_part_set_messages s g : frames client_part (set_messages s g).
Proof.
  unfold set_messages. apply frames_bind; [by apply frames_conn_ldap|].
  by intros l w.
Qed.

Lemma client_part_messageCallback a msg :
  frames client_part (messageCallback a msg).
Proof.
  apply frames_messageCallback; try done. apply client_part_set_messages.
Qed.

Lemma bind_throw {A B} (m : M A) (k : A → M B) w e w' :
  m w = (Throw e, w') → bind m k w = (Throw e, w').
Proof. unfold bind. by intros ->. Qed.

Lemma activation_miss w a :
  acts w !! a = None →
  activation a w = (Throw (TypeError "closure is undefined"), w).
Proof. intros H. unfold activation. rewrite bind_gets. by rewrite H. Qed.

Lemma set_messages_miss s g w :
  (sockets w !! s ≫= ldap) = None →
  ∃ e, set_messages s g w = (Throw e, w).
Proof.
  intros H. unfold set_messages, conn_ldap, get_socket.
  unfold bind at 1 2 3. unfold gets at 1.
  destruct (sockets w !! s) as [sock|]; cbn in *; [|by eexists].
  rewrite H. by eexists.
Qed.

Lemma _continuePagedSearch_from_acts a cs w :
  acts (_continuePagedSearch_from a cs w).2 = acts w ∨
  ∃ act cs', acts w !! a = Some act ∧
             acts (_continuePagedSearch_from a cs w).2 =
               alter (with_message (with_controls cs' (a_message act))) a
                     (acts w).
Proof.
  induction cs as [|[sz cookie|oid crit] cs IH]; cbn [_continuePagedSearch_from];
    [by left| |done].
  case_bool_decide; [done|].
  destruct (acts w !! a) as [act|] eqn:Ha.
  2:{ left. by rewrite (bind_throw _ _ _ _ _ (activation_miss _ _ Ha)). }
  rewrite (bind_run _ _ _ _ _ (activation_run _ _ _ Ha)).
  destruct (update_cookie cookie (controls (a_message act))) as [cs'|]; [|done].
  right. exists act, cs'. split; [done|].
  unfold set_a_message. rewrite bind_modify.
  match goal with |- context [try_catch ?m ?h ?w0] =>
    assert (Hfr : frames acts (try_catch m h)) end.
  { apply frames_try_catch.
    - apply frames_bind; [by apply frames_write|]. intros _. by apply frames_ret.
    - intros e. apply frames_bind; [by apply frames_clear_timer|]. intros _.
      apply frames_bind; [by apply frames_call|]. intros _. by apply frames_ret. }
  by rewrite Hfr.
Qed.

Lemma _continuePagedSearch_acts a msg w :
  acts (_continuePagedSearch a msg w).2 = acts w ∨
  ∃ act cs', acts w !! a = Some act ∧
             acts (_continuePagedSearch a msg w).2 =
               alter (with_message (with_controls cs' (a_message act))) a
                     (acts w).
Proof.
  unfold _continuePagedSearch. destruct (msg_controls msg);
    [apply _continuePagedSearch_from_acts|by left].
Qed.

(** All a handler does to the sockets: it takes its own request out of
    the table of its socket, unless the request is an abandon. *)
Lemma messageCallback_sockets a msg w :
  sockets (messageCallback a msg w).2 = sockets w ∨
  ∃ act sock l,
    acts w !! a = Some act ∧ is_abandon (a_expect act) = false ∧
    sockets w !! a_conn act = Some sock ∧ ldap sock = Some l ∧
    sockets (messageCallback a msg w).2 =
      alter (with_messages (delete (messageID (a_message act))) l)
            (a_conn act) (sockets w).
Proof.
  destruct (acts w !! a) as [act|] eqn:Ha.
  2:{ left. unfold messageCallback, clear_timer.
      by rewrite (bind_throw _ _ _ _ _
                   (bind_throw _ _ _ _ _ (activation_miss _ _ Ha))). }
  unfold messageCallback.
  rewrite (bind_run _ _ _ _ _ (clear_timer_eq _ _ _ Ha)).
  match goal with |- context [bind (activation a) _ ?w0] => set (w1 := w0) end.
  assert (Ha1 : acts w1 !! a = Some act) by (subst w1; by destruct (a_timer act)).
  assert (Hs1 : sockets w1 = sockets w) by (subst w1; by destruct (a_timer act)).
  rewrite (bind_run _ _ _ _ _ (activation_run _ _ _ Ha1)).
  destruct (is_abandon (a_expect act)) eqn:Hab.
  { left. rewrite <- Hs1. by apply frames_done. }
  set (rest := (let* continued := _continuePagedSearch a msg in
       if continued then ret tt
       else
         let* act := activation a in
         set_messages (a_conn act) (delete (messageID (a_message act))) ;;
         _updateIdle false ;;
         let '(event, obj) := verdict (a_expect act) msg in
         _done a event obj) w1).
  assert (Hrest :
    sockets rest.2 = sockets w ∨
    ∃ sock l,
      sockets w !! a_conn act = Some sock ∧ ldap sock = Some l ∧
      sockets rest.2 =
      alter (with_messages (delete (messageID (a_message act))) l)
            (a_conn act) (sockets w)).
  { pose proof (frames_continuePagedSearch sockets
                  (λ _ _, eq_refl) (λ _ _, eq_refl) (λ _ _, eq_refl) a msg w1) as Hcs.
    pose proof (_continuePagedSearch_acts a msg w1) as Hca.
    subst rest.
    destruct (_continuePagedSearch a msg w1) as [[[|]|e] w2] eqn:Heq;
      cbn [fst snd] in *;
      rewrite ?(bind_run _ _ _ _ _ Heq), ?(bind_throw _ _ _ _ _ Heq).
    - left. cbn. congruence.
    - assert (∃ act2, acts w2 !! a = Some act2 ∧ a_conn act2 = a_conn act ∧
                messageID (a_message act2) = messageID (a_message act))
        as (act2 & Ha2 & Hconn & Hmid).
      { destruct Hca as [->|(act' & cs' & Ha' & ->)]; [by exists act|].
        rewrite Ha1 in Ha'. injection Ha' as <-.
        rewrite lookup_alter_eq, Ha1. by eexists. }
      rewrite (bind_run _ _ _ _ _ (activation_run _ _ _ Ha2)). cbn beta.
      rewrite Hconn, Hmid.
      assert (Hafter : frames sockets
        (_updateIdle false ;;
         let '(event, obj) := verdict (a_expect act2) msg in _done a event obj)).
      { apply frames_bind; [by apply frames_updateIdle|]. intros _.
        destruct (verdict (a_expect act2) msg). by apply frames_done. }
      destruct (sockets w2 !! a_conn act) as [sock|] eqn:Hsk.
      2:{ left. destruct (set_messages_miss (a_conn act)
                   (delete (messageID (a_message act))) w2) as [e He];
            [by rewrite Hsk|].
          rewrite (bind_throw _ _ _ _ _ He). cbn. congruence. }
      destruct (ldap sock) as [l|] eqn:Hl.
      2:{ left. destruct (set_messages_miss (a_conn act)
                   (delete (messageID (a_message act))) w2) as [e He];
            [by rewrite Hsk|].
          rewrite (bind_throw _ _ _ _ _ He). cbn. congruence. }
      right. exists sock, l. rewrite <- Hs1, <- Hcs. split; [done|]. split; [done|].
      rewrite (bind_run _ _ _ _ _ (set_messages_run _ _ _ _ _ Hsk Hl)).
      by rewrite Hafter.
    - left. cbn. congruence. }
  destruct msg.
  1,2: left; rewrite <- Hs1; by apply frames_done.
  all: destruct Hrest as [H|(sock & l & H1 & H2 & H3)]; [by left|right];
    by exists act, sock, l.
Qed.

Lemma client_part_onMessage conn msg : frames client_part (onMessage conn msg).
Proof.
  unfold onMessage. apply frames_bind; [by apply frames_conn_ldap|]. intros l.
  destruct (msg_id msg ≫= _); [apply client_part_messageCallback|].
  by apply frames_emit.
Qed.

Lemma isIdle_busy w s sock l k h :
  socket w = Some s → sockets w !! s = Some sock → ldap sock = Some l →
  ldap_messages l !! k = Some h →
  isIdle false w = (Ok false, w).
Proof.
  intros Hsock Hs Hl Hk. unfold isIdle. rewrite !bind_gets, Hsock.
  destruct (connected w); [|done].
  rewrite (bind_run _ _ _ _ _ (conn_ldap_run _ _ _ _ Hs Hl)).
  rewrite bool_decide_eq_false_2; [done|].
  intros Hnil. apply elem_of_map_to_list in Hk. rewrite Hnil in Hk.
  by apply elem_of_nil in Hk.
Qed.

(** The entry of an abandon is never taken out of the table by the
    router: whatever message arrives on the socket, for the abandon itself
    or for another request, the entry is still there afterwards, and
    [isIdle] answers [false] (the FIXME in [_updateIdle]). *)
Theorem abandon_keeps_the_client_busy (w : World) (conn : nat) (k : Z)
  (a : nat) (act : Activation) (sock : Socket) (l : Ldap) (msg : Msg) :
  sockets w !! conn = Some sock → ldap sock = Some l →
  table_ok w conn sock l →
  ldap_messages l !! k = Some a → acts w !! a = Some act →
  a_expect act = ExpectAbandon →
  (∃ sock' l',
     sockets (exec (onMessage conn msg) w) !! conn = Some sock' ∧
     ldap sock' = Some l' ∧ ldap_messages l' !! k = Some a) ∧
  (socket w = Some conn →
   result (isIdle false) (exec (onMessage conn msg) w) = Ok false).
Proof.
  intros Hs Hl Htab Hk Ha Hab.
  assert (Hfirst : ∃ sock' l',
     sockets (exec (onMessage conn msg) w) !! conn = Some sock' ∧
     ldap sock' = Some l' ∧ ldap_messages l' !! k = Some a).
  { unfold exec, onMessage.
    rewrite (bind_run _ _ _ _ _ (conn_ldap_run _ _ _ _ Hs Hl)).
    destruct (msg_id msg ≫= _) as [h|] eqn:Hh; [|by exists sock, l].
    destruct (msg_id msg) as [i|]; [|done]. cbn in Hh.
    destruct (Htab i h Hh) as (act_h & Hah & Hconn & Hmid & _).
    destruct (messageCallback_sockets h msg w)
      as [->|(act' & sock0 & l0 & Ha' & Hnab & Hs0 & Hl0 & ->)];
      [by exists sock, l|].
    rewrite Hah in Ha'. injection Ha' as <-. rewrite Hconn in Hs0 |- *.
    rewrite Hs in Hs0. injection Hs0 as <-. rewrite Hl in Hl0.
    injection Hl0 as <-. rewrite lookup_alter_eq, Hs. cbn.
    do 2 eexists. split; [done|]. split; [done|]. cbn. rewrite Hmid.
    rewrite lookup_delete_ne; [done|]. intros <-.
    rewrite Hk in Hh. injection Hh as <-. rewrite Ha in Hah.
    injection Hah as <-. by rewrite Hab in Hnab. }
  split; [exact Hfirst|]. intros Hsock.
  destruct Hfirst as (sock' & l' & Hs' & Hl' & Hk').
  unfold result. erewrite isIdle_busy; [done| |exact Hs'|exact Hl'|exact Hk'].
  pose proof (client_part_onMessage conn msg w) as Hcp.
  unfold client_part in Hcp. unfold exec.
  injection Hcp as _ _ _ _ _ Hso _. congruence.
Qed.

Lemma abandon_pending_table :
  table_ok abandon_pending 0 abandon_socket abandon_ldap.
Proof.
  intros k h Hh.
  change (ldap_messages abandon_ldap) with ({[ 1 := 1%nat ]} : gmap Z nat) in Hh.
  apply lookup_singleton_Some in Hh as [<- <-].
  exists abandon_activation. split; [vm_compute; reflexivity|].
  split; [done|]. split; [done|]. split; [done|]. intros _. by exists 8%nat.
Qed.

Lemma abandon_keeps_the_client_busy_witness :
  (∃ sock' l',
     sockets (exec (onMessage 0 (Result (compare_response 1 0 [])))
                   abandon_pending) !! 0%nat = Some sock' ∧
     ldap sock' = Some l' ∧ ldap_messages l' !! 1 = Some 1%nat) ∧
  (socket abandon_pending = Some 0%nat →
   result (isIdle false)
          (exec (onMessage 0 (Result (compare_response 1 0 [])))
                abandon_pending) = Ok false).
Proof.
  apply (abandon_keeps_the_client_busy abandon_pending 0 1 1
           abandon_activation abandon_socket abandon_ldap
           (Result (compare_response 1 0 []))).
  - vm_compute; reflexivity.
  - reflexivity.
  - exact abandon_pending_table.
  - vm_compute; reflexivity.
  - vm_compute; reflexivity.
  - reflexivity.
Defined.

(** ** Streaming, late responses, failed pages *)

(** A SearchEntry or SearchReference reaching the handler of a request
    with a sink: the sink gets the event ['searchEntry'] or
    ['searchReference'] with the message, the request stays in the table,
    and the request timer is cleared and not started again, so the timeout
    covers the time up to the first message only. *)
Theorem search_entry_is_streamed (w : World) (a : nat) (act : Activation)
  (em : nat) (msg : Msg) :
  acts w !! a = Some act → is_abandon (a_expect act) = false →
  a_emitter act = Some em → is_search_event msg = true →
  result (messageCallback a msg) w = Ok tt ∧
  trace (exec (messageCallback a msg) w) =
    trace w ++
    [Emitted em (match msg with
                 | SearchReference _ _ _ => "searchReference"
                 | _ => "searchEntry"
                 end) (AMsg msg)] ∧
  sockets (exec (messageCallback a msg) w) = sockets w ∧
  acts (exec (messageCallback a msg) w) = acts w ∧
  timers (exec (messageCallback a msg) w) =
    match a_timer act with
    | Some t => delete t (timers w)
    | None => timers w
    end.
Proof.
  intros Ha Hab Hem Hse. unfold result, exec, messageCallback.
  rewrite (bind_run _ _ _ _ _ (clear_timer_eq _ _ _ Ha)).
  match goal with |- context [bind (activation a) _ ?w0] => set (w1 := w0) end.
  assert (Ha1 : acts w1 !! a = Some act) by (subst w1; by destruct (a_timer act)).
  rewrite (bind_run _ _ _ _ _ (activation_run _ _ _ Ha1)). rewrite Hab.
  destruct msg as [mid name cs|mid uris cs| | |]; try done.
  - rewrite (_done_run w1 a act "searchEntry" (AMsg (SearchEntry mid name cs))
               (Emitted em "searchEntry" (AMsg (SearchEntry mid name cs))) Ha1).
    2:{ unfold done_event. by rewrite Hem. }
    subst w1. by destruct (a_timer act).
  - rewrite (_done_run w1 a act "searchReference"
               (AMsg (SearchReference mid uris cs))
               (Emitted em "searchReference" (AMsg (SearchReference mid uris cs)))
               Ha1).
    2:{ unfold done_event. by rewrite Hem. }
    subst w1. by destruct (a_timer act).
Qed.

Lemma search_entry_is_streamed_witness :
  result (messageCallback 2 (SearchEntry 1 "cn=a,dc=x" [])) paged_search_sent
    = Ok tt ∧
  trace (exec (messageCallback 2 (SearchEntry 1 "cn=a,dc=x" []))
              paged_search_sent) =
    trace paged_search_sent ++
    [Emitted 1 "searchEntry" (AMsg (SearchEntry 1 "cn=a,dc=x" []))] ∧
  sockets (exec (messageCallback 2 (SearchEntry 1 "cn=a,dc=x" []))
                paged_search_sent) = sockets paged_search_sent ∧
  acts (exec (messageCallback 2 (SearchEntry 1 "cn=a,dc=x" []))
             paged_search_sent) = acts paged_search_sent ∧
  timers (exec (messageCallback 2 (SearchEntry 1 "cn=a,dc=x" []))
               paged_search_sent) =
    match a_timer paged_activation with
    | Some t => delete t (timers paged_search_sent)
    | None => timers paged_search_sent
    end.
Proof.
  apply (search_entry_is_streamed paged_search_sent 2 paged_activation 1
           (SearchEntry 1 "cn=a,dc=x" [])); vm_compute; reflexivity.
Defined.

(** Once the handler of a request has run to the end (a final response,
    the made-up result of a timeout, or an error), another message with
    the id of the request is unsolicited: the router logs it and calls
    nothing. *)
Theorem late_response_is_dropped (w : World) (a : nat)
  (act : Activation) (sock : Socket) (l : Ldap) (msg late : Msg) :
  acts w !! a = Some act →
  sockets w !! a_conn act = Some sock → ldap sock = Some l →
  socket_ok w →
  is_abandon (a_expect act) = false → is_search_event msg = false →
  unpaged act msg →
  msg_id late = Some (messageID (a_message act)) →
  result (messageCallback a msg) w = Ok tt ∧
  onMessage (a_conn act) late (exec (messageCallback a msg) w) =
    (Ok tt,
     set_trace (λ t, t ++ [Unsolicited (a_conn act) late])
               (exec (messageCallback a msg) w)).
Proof.
  intros Ha Hs Hl Hok Hab Hse Hun Hid.
  destruct (verdict_delivers act msg Hse) as (ev & Hev & _).
  destruct (messageCallback_terminal w a act msg sock l ev
              Ha Hs Hl Hok Hab Hse Hun Hev) as (f1 & x & f2 & n & Hmc).
  unfold result, exec. rewrite Hmc. cbn [fst snd]. split; [done|].
  unfold onMessage.
  erewrite bind_run.
  2:{ eapply conn_ldap_run.
      - cbn [sockets set_trace set_idleTimer set_timers set_next set_sockets].
        rewrite lookup_alter_eq, Hs. reflexivity.
      - reflexivity. }
  rewrite Hid. cbn [mbind option_bind ldap_messages].
  by rewrite lookup_delete_eq.
Qed.

Lemma compare_sent_socket_ok : socket_ok compare_sent.
Proof.
  intros s Hsock. exists compare_socket, compare_ldap. split; [|reflexivity].
  vm_compute in Hsock. injection Hsock as <-. vm_compute; reflexivity.
Qed.

Lemma late_response_is_dropped_witness :
  result (messageCallback 1 (Result (compare_response 1 6 []))) compare_sent
    = Ok tt ∧
  onMessage (a_conn compare_sent_activation)
            (Result (compare_response 1 6 []))
            (exec (messageCallback 1 (Result (compare_response 1 6 [])))
                  compare_sent) =
    (Ok tt,
     set_trace (λ t, t ++ [Unsolicited (a_conn compare_sent_activation)
                             (Result (compare_response 1 6 []))])
               (exec (messageCallback 1 (Result (compare_response 1 6 [])))
                     compare_sent)).
Proof.
  apply (late_response_is_dropped compare_sent 1 compare_sent_activation
           compare_socket compare_ldap (Result (compare_response 1 6 []))
           (Result (compare_response 1 6 []))).
  - vm_compute; reflexivity.
  - vm_compute; reflexivity.
  - reflexivity.
  - exact compare_sent_socket_ok.
  - reflexivity.
  - reflexivity.
  - left. reflexivity.
  - reflexivity.
Defined.

(** The end of a handler, once [_continuePagedSearch] has said no: the
    request leaves the table, the idle timer is looked after, and the
    continuation gets its verdict. *)
Lemma messageCallback_tail w a act msg sock l ev :
  acts w !! a = Some act →
  sockets w !! a_conn act = Some sock → ldap sock = Some l →
  socket_ok w →
  done_event act (verdict (a_expect act) msg).1 (verdict (a_expect act) msg).2
    = Ok ev →
  ∃ x f2 n,
    (let* act := activation a in
     set_messages (a_conn act) (delete (messageID (a_message act))) ;;
     _updateIdle false ;;
     let '(event, obj) := verdict (a_expect act) msg in
     _done a event obj) w =
      (Ok tt,
       set_trace (λ t, t ++ [ev])
         (set_idleTimer x (set_timers f2 (set_next n
            (set_sockets
               (alter (with_messages (delete (messageID (a_message act))) l)
                      (a_conn act))
               w))))).
Proof.
  intros Ha Hs Hl Hok Hev.
  rewrite (bind_run _ _ _ _ _ (activation_run _ _ _ Ha)).
  rewrite (bind_run _ _ _ _ _ (set_messages_run _ _ _ _ _ Hs Hl)).
  set (w2 := set_sockets _ w).
  assert (Hok2 : socket_ok w2).
  { eapply socket_ok_frame; [| |exact Hok]; [done|].
    intros s sock0 l0 H0 Hl0. apply (lookup_with_messages _ _ _ _ _ _ _ H0 Hl0). }
  destruct (_updateIdle_run w2 false Hok2) as (x & f2 & n & Hui).
  rewrite (bind_run _ _ _ _ _ Hui).
  destruct (verdict (a_expect act) msg) as [event obj]. cbn in Hev.
  exists x, f2, n. by apply (_done_run _ a act).
Qed.

Lemma write_throws_run w conn m cb sock :
  sockets w !! conn = Some sock → write_throws sock = true →
  write conn m cb w = (Throw (Error "write failed"), w).
Proof.
  intros H Hw. unfold write.
  rewrite (bind_run _ _ _ _ _ (get_socket_run _ _ _ H)). by rewrite Hw.
Qed.

Lemma _continuePagedSearch_from_fails w a act cs cookie cs' sock :
  acts w !! a = Some act →
  sockets w !! a_conn act = Some sock → write_throws sock = true →
  paged_cookie cs = Some cookie →
  update_cookie cookie (controls (a_message act)) = Some cs' →
  _continuePagedSearch_from a cs w =
    (Ok false,
     set_trace (λ t, t ++ [failure (Error "write failed") (a_callback act)])
       (match a_timer act with
        | Some t =>
            set_timers (delete t)
              (set_acts (alter (with_message (with_controls cs' (a_message act))) a) w)
        | None =>
            set_acts (alter (with_message (with_controls cs' (a_message act))) a) w
        end)).
Proof.
  intros Ha Hs Hw Hc Hu.
  induction cs as [|[sz c|oid crit] cs IH]; cbn in *; [done| |by apply IH].
  case_bool_decide as Hne; [by apply IH|]. injection Hc as ->.
  rewrite (bind_run _ _ _ _ _ (activation_run _ _ _ Ha)). rewrite Hu.
  unfold bind at 1, set_a_message at 1, modify at 1. cbn.
  unfold try_catch.
  set (w1 := set_acts _ w).
  assert (Hs1 : sockets w1 !! a_conn act = Some sock) by done.
  rewrite (bind_throw _ _ _ _ _ (write_throws_run w1 _ _ _ _ Hs1 Hw)).
  assert (Ha1 : acts w1 !! a =
                Some (with_message (with_controls cs' (a_message act)) act)).
  { subst w1. cbn. by rewrite lookup_alter_eq, Ha. }
  rewrite (bind_run _ _ _ _ _ (clear_timer_eq _ _ _ Ha1)).
  cbn [a_timer with_message].
  rewrite (bind_run _ _ _ _ _ (call_failure _ _ _)). reflexivity.
Qed.

(** A paged search whose next page cannot be written: the callback of
    the request is called with the write error, [_continuePagedSearch]
    answers [false], and the handler goes on as for a final response, so
    the request leaves the table and is completed a second time: its sink,
    or the same callback again, is told what the response says. *)
Theorem failed_page_completes_twice (w : World) (a : nat) (act : Activation)
  (msg : Msg) (cs : list Control) (cookie : list Byte.byte)
  (cs' : list Control) (sock : Socket) (l : Ldap) :
  acts w !! a = Some act →
  sockets w !! a_conn act = Some sock → ldap sock = Some l →
  write_throws sock = true →
  socket_ok w →
  is_abandon (a_expect act) = false → is_search_event msg = false →
  msg_controls msg = Some cs → paged_cookie cs = Some cookie →
  update_cookie cookie (controls (a_message act)) = Some cs' →
  ∃ ev,
    result (messageCallback a msg) w = Ok tt ∧
    trace (exec (messageCallback a msg) w) =
      trace w ++ [failure (Error "write failed") (a_callback act); ev] ∧
    (∀ r, msg = Result r → not_expected (a_expect act) (status r) = false →
          ev = ends_with act r) ∧
    (∀ err, verdict (a_expect act) msg = ("error", AErr err) →
            ev = fails_with act err) ∧
    ∃ sock' l',
      sockets (exec (messageCallback a msg) w) !! a_conn act = Some sock' ∧
      ldap sock' = Some l' ∧
      ldap_messages l' !! messageID (a_message act) = None.
Proof.
  intros Ha Hs Hl Hw Hok Hab Hse Hmc Hc Hu.
  set (ev := completes_with act msg).
  assert (Hend : ∀ r, msg = Result r →
            not_expected (a_expect act) (status r) = false →
            ev = ends_with act r).
  { intros r -> Hr. by apply completion_end. }
  assert (Herr : ∀ err, verdict (a_expect act) msg = ("error", AErr err) →
            ev = fails_with act err).
  { intros err Hv. by apply completion_error. }
  exists ev. unfold result, exec, messageCallback.
  rewrite (bind_run _ _ _ _ _ (clear_timer_eq _ _ _ Ha)).
  match goal with |- context [bind (activation a) _ ?w0] => set (w1 := w0) end.
  assert (Ha1 : acts w1 !! a = Some act) by (subst w1; by destruct (a_timer act)).
  assert (Hs1 : sockets w1 !! a_conn act = Some sock)
    by (subst w1; by destruct (a_timer act)).
  assert (Htr1 : trace w1 = trace w) by (subst w1; by destruct (a_timer act)).
  assert (Hok1 : socket_ok w1).
  { eapply socket_ok_frame; [| |exact Hok]; subst w1;
      destruct (a_timer act); eauto. }
  clearbody w1.
  rewrite (bind_run _ _ _ _ _ (activation_run _ _ _ Ha1)). rewrite Hab.
  pose proof (_continuePagedSearch_from_fails w1 a act cs cookie cs' sock
                Ha1 Hs1 Hw Hc Hu) as Hcont.
  match type of Hcont with _ = (_, ?w0) => set (w2 := w0) in * end.
  assert (Hcont' : _continuePagedSearch a msg w1 = (Ok false, w2))
    by (unfold _continuePagedSearch; by rewrite Hmc).
  set (act2 := with_message (with_controls cs' (a_message act)) act).
  assert (Ha2 : acts w2 !! a = Some act2).
  { subst w2. destruct (a_timer act); cbn; by rewrite lookup_alter_eq, Ha1. }
  assert (Hs2 : sockets w2 !! a_conn act2 = Some sock)
    by (subst w2; by destruct (a_timer act)).
  assert (Htr2 : trace w2 =
            trace w ++ [failure (Error "write failed") (a_callback act)])
    by (subst w2; rewrite <- Htr1; by destruct (a_timer act)).
  assert (Hok2 : socket_ok w2).
  { eapply socket_ok_frame; [| |exact Hok1]; subst w2;
      destruct (a_timer act); eauto. }
  clearbody w2.
  destruct (messageCallback_tail w2 a act2 msg sock l ev Ha2 Hs2 Hl Hok2
              (done_event_completes_with act2 msg Hse))
    as (x & f2 & n & Htail).
  assert (Hall :
    (let* continued := _continuePagedSearch a msg in
     if continued then ret tt
     else
       let* act := activation a in
       set_messages (a_conn act) (delete (messageID (a_message act))) ;;
       _updateIdle false ;;
       let '(event, obj) := verdict (a_expect act) msg in
       _done a event obj) w1 =
    (Ok tt,
     set_trace (λ t, t ++ [ev])
       (set_idleTimer x (set_timers f2 (set_next n
          (set_sockets
             (alter (with_messages (delete (messageID (a_message act2))) l)
                    (a_conn act2))
             w2)))))).
  { rewrite (bind_run _ _ _ _ _ Hcont'). exact Htail. }
  destruct msg; try done; rewrite Hall;
    cbn [fst snd trace sockets set_trace set_idleTimer set_timers set_next
         set_sockets];
    rewrite Htr2, lookup_alter_eq, Hs2; cbn;
    (split; [done|]); (split; [by rewrite <- app_assoc|]);
    (split; [exact Hend|]); (split; [exact Herr|]);
    do 2 eexists; (split; [done|]); (split; [done|]); cbn;
    apply lookup_delete_eq.
Qed.

Lemma paged_search_broken_socket_ok : socket_ok paged_search_broken.
Proof.
  intros s Hsock. exists broken_paged_socket, paged_ldap. split; [|reflexivity].
  vm_compute in Hsock. injection Hsock as <-. vm_compute; reflexivity.
Qed.

Lemma failed_page_completes_twice_witness :
  a_callback paged_activation = UserCb 3 ∧
  a_emitter paged_activation = Some 1%nat ∧
  result (messageCallback 2 (page_done cookie_a)) paged_search_broken
    = Ok tt ∧
  trace (exec (messageCallback 2 (page_done cookie_a)) paged_search_broken) =
    trace paged_search_broken ++
    [Called 3 [AErr (Error "write failed")];
     Emitted 1 "end" (AMsg (page_done cookie_a))] ∧
  ∃ sock' l',
    sockets (exec (messageCallback 2 (page_done cookie_a))
                  paged_search_broken) !! a_conn paged_activation
      = Some sock' ∧
    ldap sock' = Some l' ∧
    ldap_messages l' !! messageID (a_message paged_activation) = None.
Proof.
  split; [reflexivity|]. split; [reflexivity|].
  destruct (failed_page_completes_twice paged_search_broken 2 paged_activation
              (page_done cookie_a) [PagedResultsControl 0 cookie_a] cookie_a
              [PagedResultsControl 5 cookie_a] broken_paged_socket paged_ldap)
    as (ev & Hres & Htr & Hend & _ & Htab).
  - vm_compute; reflexivity.
  - vm_compute; reflexivity.
  - reflexivity.
  - reflexivity.
  - exact paged_search_broken_socket_ok.
  - reflexivity.
  - reflexivity.
  - reflexivity.
  - reflexivity.
  - reflexivity.
  - split; [exact Hres|]. split; [|exact Htab].
    rewrite Htr. by rewrite (Hend _ eq_refl eq_refl).
Defined.

(** ** Closing and reconnecting *)

Lemma frames_forEach {A B} (f : World → B) (xs : list A) (g : A → M unit) :
  (∀ x, frames f (g x)) → frames f (forEach xs g).
Proof.
  intros Hg. induction xs as [|x xs IH]; cbn [forEach]; [by intros w|].
  apply frames_bind; [apply Hg|]. intros _. exact IH.
Qed.

Lemma client_part_onClose_entry s k : frames client_part (onClose_entry s k).
Proof.
  unfold onClose_entry.
  apply frames_bind; [by apply frames_get_socket|]. intros sock.
  apply frames_bind; [by apply frames_conn_ldap|]. intros l.
  destruct (ldap_messages l !! k); [|by apply frames_ret].
  apply frames_bind; [apply client_part_set_messages|]. intros _.
  apply client_part_messageCallback.
Qed.

(** The client's socket [s] closes.  After the close handler the client
    has no socket and is not connected.  A new connection attempt is
    started only when the socket closed with an error, a reconnect policy
    is set and no attempt is under way; then a new socket is dialled with
    the retry call [_connect] configures.  After a clean close, or without
    a policy, nothing is dialled, and the socket has lost its [ldap]
    record. *)
Theorem close_reconnects_only_after_an_error (w : World) (s : nat)
  (sock : Socket) (l : Ldap) (had_err : bool) :
  socket w = Some s → sockets w !! s = Some sock → ldap sock = Some l →
  table_ok w s sock l →
  result (onSocketClose s had_err) w = Ok tt ∧
  socket (exec (onSocketClose s had_err) w) = None ∧
  connected (exec (onSocketClose s had_err) w) = false ∧
  (had_err = false ∨ reconnect w = None ∨ connecting w = true →
     connecting (exec (onSocketClose s had_err) w) = connecting w ∧
     dialing (exec (onSocketClose s had_err) w) = dialing w ∧
     retries (exec (onSocketClose s had_err) w) = retries w ∧
     ∃ sock', sockets (exec (onSocketClose s had_err) w) !! s = Some sock' ∧
              ldap sock' = None) ∧
  (had_err = true → is_Some (reconnect w) → connecting w = false →
     connecting (exec (onSocketClose s had_err) w) = true ∧
     retries (exec (onSocketClose s had_err) w) =
       new_retry (reconnect w) :: retries w ∧
     ∃ s', dialing (exec (onSocketClose s had_err) w) = Some s' ∧
           sockets (exec (onSocketClose s had_err) w) !! s' =
             Some {| ldap := Some (initSocket_ldap (url w));
                     unbindMessageID := None; writable := false;
                     write_throws := false; pendingWrites := [] |}).
Proof.
  intros Hsock Hs Hl Htab. unfold result, exec, onSocketClose, _onClose.
  rewrite bind_gets, Hsock, !bind_modify. unfold emit. rewrite bind_modify.
  set (w1 := set_trace _ _).
  assert (Hs1 : sockets w1 !! s = Some sock) by done.
  rewrite (bind_run _ _ _ _ _ (conn_ldap_run _ _ _ _ Hs1 Hl)).
  destruct (forEach_onClose w1 s sock l (Object_keys (ldap_messages l)))
    as (evs & w2 & sock2 & l2 & Hloop & Htr & Hall & Hrc & Hs2 & Hl2);
    try done.
  { apply Object_keys_NoDup. }
  { intros k [h Hh]%Object_keys_elem.
    destruct (Htab k h Hh) as (act & Ha & He). by exists h, act. }
  pose proof (frames_forEach client_part (Object_keys (ldap_messages l))
                (onClose_entry s) (client_part_onClose_entry s) w1) as Hcp.
  rewrite Hloop in Hcp. cbn [snd] in Hcp. unfold client_part in Hcp.
  assert (url w2 = url w ∧ reconnect w2 = reconnect w ∧ socket w2 = None ∧
          connected w2 = false ∧ connecting w2 = connecting w ∧
          dialing w2 = dialing w ∧ retries w2 = retries w)
    as (Hu2 & Hr2 & Hso2 & Hc2 & Hcg2 & Hd2 & Hre2).
  { injection Hcp as -> _ _ -> _ -> -> -> _ -> ->. by subst w1. }
  rewrite (bind_run _ _ _ _ _ Hloop).
  unfold set_ldap. rewrite bind_modify, bind_gets.
  set (w3 := set_sockets _ w2).
  assert (Hs3 : ∃ sock', sockets w3 !! s = Some sock' ∧ ldap sock' = None).
  { subst w3. cbn [sockets set_sockets]. rewrite lookup_alter_eq, Hs2. cbn.
    by eexists. }
  assert (url w3 = url w ∧ reconnect w3 = reconnect w ∧ socket w3 = None ∧
          connected w3 = false ∧ connecting w3 = connecting w ∧
          dialing w3 = dialing w ∧ retries w3 = retries w)
    as (Hu3 & Hr3 & Hso3 & Hc3 & Hcg3 & Hd3 & Hre3) by done.
  clearbody w3. rewrite Hr3.
  destruct had_err; cbn [andb].
  - destruct (reconnect w) as [rc|] eqn:Hrc0.
    + rewrite bool_decide_eq_true_2 by eauto. cbn [when].
      unfold _connect. rewrite bind_gets, Hcg3.
      destruct (connecting w) eqn:Hcg.
      * cbn [fst snd]. split; [done|]. split; [done|]. split; [done|].
        split; [|done]. intros _. by split_and!.
      * rewrite bind_gets, bind_modify, Hr3. unfold connectSocket.
        unfold bind, gets, modify, ret, emit, modify. cbn [fst snd].
        cbn [socket connected connecting retries dialing sockets set_trace
             set_retries set_dialing set_sockets set_next set_connecting url
             next].
        rewrite Hu3, Hso3, Hc3, Hre3.
        split; [done|]. split; [done|]. split; [done|].
        split; [by intros [?|[?|?]]|]. intros _ _ _.
        split; [done|]. split; [done|]. eexists. split; [done|].
        by rewrite lookup_insert_eq.
    + rewrite bool_decide_eq_false_2 by (by intros [? ?]). cbn.
      split; [done|]. split; [done|]. split; [done|].
      split; [by intros _|]. by intros _ [? ?].
  - cbn. split; [done|]. split; [done|]. split; [done|].
    split; [by intros _|]. done.
Qed.

Lemma reconnect_compare_sent_table :
  table_ok reconnect_compare_sent 0 compare_socket compare_ldap.
Proof.
  intros k h Hh. apply elem_of_map_to_list in Hh. vm_compute in Hh.
  inversion Hh as [|? ? ? Hh1]; subst.
  { eexists. split; [vm_compute; reflexivity|]. by repeat split. }
  inversion Hh1.
Qed.

Lemma close_reconnects_only_after_an_error_witness :
  (* a client with a reconnect policy, its socket closes with an error *)
  (socket reconnect_compare_sent = Some 0%nat ∧
   is_Some (reconnect reconnect_compare_sent) ∧
   result (onSocketClose 0 true) reconnect_compare_sent = Ok tt ∧
   socket (exec (onSocketClose 0 true) reconnect_compare_sent) = None ∧
   connected (exec (onSocketClose 0 true) reconnect_compare_sent) = false ∧
   connecting (exec (onSocketClose 0 true) reconnect_compare_sent) = true ∧
   retries (exec (onSocketClose 0 true) reconnect_compare_sent) =
     new_retry (reconnect reconnect_compare_sent) ::
     retries reconnect_compare_sent ∧
   ∃ s', dialing (exec (onSocketClose 0 true) reconnect_compare_sent)
           = Some s' ∧
         sockets (exec (onSocketClose 0 true) reconnect_compare_sent) !! s' =
           Some {| ldap := Some (initSocket_ldap (url reconnect_compare_sent));
                   unbindMessageID := None; writable := false;
                   write_throws := false; pendingWrites := [] |}) ∧
  (* a client without one, its socket closes cleanly *)
  (socket three_pending = Some 0%nat ∧
   result (onSocketClose 0 false) three_pending = Ok tt ∧
   socket (exec (onSocketClose 0 false) three_pending) = None ∧
   connected (exec (onSocketClose 0 false) three_pending) = false ∧
   connecting (exec (onSocketClose 0 false) three_pending) =
     connecting three_pending ∧
   dialing (exec (onSocketClose 0 false) three_pending) =
     dialing three_pending ∧
   retries (exec (onSocketClose 0 false) three_pending) =
     retries three_pending ∧
   ∃ sock', sockets (exec (onSocketClose 0 false) three_pending) !! 0%nat
              = Some sock' ∧
            ldap sock' = None).
Proof.
  split.
  - destruct (close_reconnects_only_after_an_error reconnect_compare_sent 0
                compare_socket compare_ldap true)
      as (Hres & Hsock & Hconn & _ & Hyes).
    + vm_compute; reflexivity.
    + vm_compute; reflexivity.
    + reflexivity.
    + exact reconnect_compare_sent_table.
    + split; [vm_compute; reflexivity|]. split; [by eexists|].
      split; [exact Hres|]. split; [exact Hsock|]. split; [exact Hconn|].
      apply Hyes; [reflexivity | by eexists | vm_compute; reflexivity].
  - destruct (close_reconnects_only_after_an_error three_pending 0
                three_socket three_ldap false)
      as (Hres & Hsock & Hconn & Hno & _).
    + vm_compute; reflexivity.
    + vm_compute; reflexivity.
    + reflexivity.
    + exact three_pending_table.
    + split; [vm_compute; reflexivity|].
      split; [exact Hres|]. split; [exact Hsock|]. split; [exact Hconn|].
      apply Hno. by left.
Defined.

(** ** The idle timer *)

Lemma messageCallback_tail_exec w a act msg sock l ev :
  acts w !! a = Some act →
  sockets w !! a_conn act = Some sock → ldap sock = Some l →
  socket_ok w →
  done_event act (verdict (a_expect act) msg).1 (verdict (a_expect act) msg).2
    = Ok ev →
  (let* act := activation a in
   set_messages (a_conn act) (delete (messageID (a_message act))) ;;
   _updateIdle false ;;
   let '(event, obj) := verdict (a_expect act) msg in
   _done a event obj) w =
    (Ok tt,
     set_trace (λ t, t ++ [ev])
       (exec (_updateIdle false)
          (set_sockets
             (alter (with_messages (delete (messageID (a_message act))) l)
                    (a_conn act))
             w))).
Proof.
  intros Ha Hs Hl Hok Hev.
  rewrite (bind_run _ _ _ _ _ (activation_run _ _ _ Ha)).
  rewrite (bind_run _ _ _ _ _ (set_messages_run _ _ _ _ _ Hs Hl)).
  set (w2 := set_sockets _ w).
  assert (Hok2 : socket_ok w2).
  { eapply socket_ok_frame; [| |exact Hok]; [done|].
    intros s sock0 l0 H0 Hl0. apply (lookup_with_messages _ _ _ _ _ _ _ H0 Hl0). }
  destruct (_updateIdle_run w2 false Hok2) as (x & f2 & n & Hui).
  rewrite (bind_run _ _ _ _ _ Hui). unfold exec. rewrite Hui. cbn [snd].
  destruct (verdict (a_expect act) msg) as [event obj]. cbn in Hev.
  by apply (_done_run _ a act).
Qed.

Lemma _updateIdle_false_eq w s sock l :
  socket w = Some s → connected w = true →
  sockets w !! s = Some sock → ldap sock = Some l →
  _updateIdle false w =
    (Ok tt,
     if idleTimeout w =? 0 then w
     else if bool_decide (map_to_list (ldap_messages l) = []) then
       match _idleTimer w with
       | None =>
           set_idleTimer (Some (next w))
             (set_timers (insert (next w) (IdleTimeout, idleTimeout w))
                (set_next (S (next w)) w))
       | Some _ => w
       end
     else
       match _idleTimer w with
       | Some h => set_idleTimer None (set_timers (delete h) w)
       | None => w
       end).
Proof.
  intros Hsock Hc Hs Hl. unfold _updateIdle. rewrite bind_gets.
  destruct (idleTimeout w =? 0); [done|].
  assert (Hidle : isIdle false w =
                  (Ok (bool_decide (map_to_list (ldap_messages l) = [])), w)).
  { unfold isIdle. rewrite !bind_gets, Hsock, Hc.
    by rewrite (bind_run _ _ _ _ _ (conn_ldap_run _ _ _ _ Hs Hl)). }
  rewrite (bind_run _ _ _ _ _ Hidle). rewrite bind_gets.
  destruct (bool_decide _), (_idleTimer w); reflexivity.
Qed.

(** A request goes out on socket [s] and the response [msg] for its id
    comes back and ends it. *)
Lemma exchange_run w s sock l m e em cb msg :
  socket w = Some s → sockets w !! s = Some sock → ldap sock = Some l →
  write_throws sock = false →
  is_abandon e = false →
  msg_id msg = Some (fst (getNextMessageID l)) →
  is_search_event msg = false →
  (msg_controls msg ≫= paged_cookie) = None ∨
    Forall (λ c, is_paged c = false) (controls m) →
  ∃ w1 w2,
    _sendSocket m e em cb w = (Ok tt, w1) ∧
    _idleTimer w1 = (if idleTimeout w =? 0 then _idleTimer w else None) ∧
    onMessage s msg w1 =
      (Ok tt,
       set_trace (λ t, t ++ [completion e em false cb msg])
         (exec (_updateIdle false)
            (set_sockets
               (alter (with_messages (delete (fst (getNextMessageID l)))
                         {| ldap_id := ldap_id l;
                            ldap_messageID := fst (getNextMessageID l);
                            ldap_messages :=
                              <[fst (getNextMessageID l) := next w]>
                                (ldap_messages l) |})
                      s)
               w2))) ∧
    trace w2 = trace w ++
      [Wrote s {| messageID := fst (getNextMessageID l);
                  protocolOp := protocolOp m; controls := controls m |}] ∧
    socket w2 = Some s ∧ connected w2 = connected w ∧
    idleTimeout w2 = idleTimeout w ∧ _idleTimer w2 = _idleTimer w1 ∧
    sockets w2 =
      <[s := {| ldap := Some {| ldap_id := ldap_id l;
                                ldap_messageID := fst (getNextMessageID l);
                                ldap_messages :=
                                  <[fst (getNextMessageID l) := next w]>
                                    (ldap_messages l) |};
                unbindMessageID := unbindMessageID sock;
                writable := writable sock; write_throws := write_throws sock;
                pendingWrites := pendingWrites sock ++ [next w] |}]>
        (sockets w).
Proof.
  intros Hsock Hs Hl Hw Hab Hid Hse Hun.
  destruct (_sendSocket_written w s sock l m e em cb Hsock Hs Hl Hw)
    as (w1 & Hrun & Htr1 & Hso1 & Hc1 & _ & Hit1 & _ & Ha1 & Hss1 & Hidle1 & _).
  set (mid := fst (getNextMessageID l)) in *.
  set (act := sent s m mid e em cb
                (if timeout w =? 0 then None else Some (S (next w)))) in *.
  assert (Hact : acts w1 !! next w = Some act) by (by rewrite Ha1, lookup_insert_eq).
  match type of Hss1 with _ = <[s := ?x]> _ => set (sock1 := x) in * end.
  assert (Hsk1 : sockets w1 !! s = Some sock1) by (by rewrite Hss1, lookup_insert_eq).
  pose proof (done_event_completes_with act msg Hse) as Hev.
  change (completes_with act msg) with (completion e em false cb msg) in Hev.
  exists w1,
    (match a_timer act with
     | Some t => set_timers (delete t) w1
     | None => w1
     end).
  split; [done|]. split; [done|].
  rewrite (onMessage_run w1 s msg sock1 _ mid (next w) Hsk1 eq_refl Hid)
    by (cbn; by rewrite lookup_insert_eq).
  unfold messageCallback.
  rewrite (bind_run _ _ _ _ _ (clear_timer_eq _ _ _ Hact)).
  match goal with |- context [bind (activation _) _ ?w0] => set (w2 := w0) end.
  assert (Hact2 : acts w2 !! next w = Some act)
    by (subst w2; by destruct (a_timer act)).
  assert (Hsk2 : sockets w2 !! a_conn act = Some sock1)
    by (subst w2; by destruct (a_timer act)).
  assert (Hfld2 : socket w2 = Some s ∧ connected w2 = connected w ∧
                  idleTimeout w2 = idleTimeout w ∧ _idleTimer w2 = _idleTimer w1 ∧
                  trace w2 = trace w1 ∧ sockets w2 = sockets w1).
  { subst w2. destruct (a_timer act); cbn; by rewrite Hso1, Hc1, Hit1. }
  destruct Hfld2 as (Hso2 & Hc2 & Hit2 & Hidle2 & Htr2 & Hss2).
  assert (Hok2 : socket_ok w2).
  { intros s0 Hs0. rewrite Hso2 in Hs0. injection Hs0 as <-.
    exists sock1. eexists. split; [exact Hsk2|reflexivity]. }
  clearbody w2.
  rewrite (bind_run _ _ _ _ _ (activation_run _ _ _ Hact2)).
  change (is_abandon (a_expect act)) with (is_abandon e). rewrite Hab.
  assert (Hunp : unpaged act msg) by (destruct Hun as [H|H]; [by left|by right]).
  assert (Hall :
    (let* continued := _continuePagedSearch (next w) msg in
     if continued then ret tt
     else
       let* act := activation (next w) in
       set_messages (a_conn act) (delete (messageID (a_message act))) ;;
       _updateIdle false ;;
       let '(event, obj) := verdict (a_expect act) msg in
       _done (next w) event obj) w2 =
    (Ok tt,
     set_trace (λ t, t ++ [completion e em false cb msg])
       (exec (_updateIdle false)
          (set_sockets
             (alter (with_messages (delete mid)
                       {| ldap_id := ldap_id l; ldap_messageID := mid;
                          ldap_messages := <[mid := next w]> (ldap_messages l) |})
                    s)
             w2)))).
  { rewrite (bind_run _ _ _ _ _
               (_continuePagedSearch_unpaged w2 (next w) act msg Hact2 Hunp)).
    by apply (messageCallback_tail_exec w2 (next w) act msg sock1). }
  split.
  { destruct msg; try done; by rewrite Hall. }
  split; [by rewrite Htr2, Htr1|]. split; [done|].
  split; [done|]. split; [done|]. split; [done|]. by rewrite Hss2, Hss1.
Qed.

(** With an idle timeout set, on a connected client whose table is
    empty: sending a request leaves no idle timer, and when the final
    response of that request has emptied the table again an idle timer
    runs with the configured delay. *)
Theorem idle_timer_follows_the_table (w : World) (s : nat) (sock : Socket)
  (l : Ldap) (m : Message) (e : Expect) (em : option nat) (cb : Callback)
  (msg : Msg) :
  socket w = Some s → connected w = true →
  sockets w !! s = Some sock → ldap sock = Some l →
  write_throws sock = false → ldap_messages l = ∅ →
  idleTimeout w ≠ 0 →
  is_abandon e = false →
  msg_id msg = Some (fst (getNextMessageID l)) →
  is_search_event msg = false →
  (msg_controls msg ≫= paged_cookie) = None ∨
    Forall (λ c, is_paged c = false) (controls m) →
  _idleTimer (exec (_sendSocket m e em cb) w) = None ∧
  ∃ h,
    _idleTimer (exec (_sendSocket m e em cb ;; onMessage s msg) w) = Some h ∧
    timers (exec (_sendSocket m e em cb ;; onMessage s msg) w) !! h =
      Some (IdleTimeout, idleTimeout w).
Proof.
  intros Hsock Hc Hs Hl Hw Hemp Hit Hab Hid Hse Hun.
  destruct (exchange_run w s sock l m e em cb msg Hsock Hs Hl Hw Hab Hid Hse Hun)
    as (w1 & w2 & Hrun & Hidle1 & Hmsg & _ & Hso2 & Hc2 & Hit2 &
        Hidle2 & Hss2).
  apply Z.eqb_neq in Hit. rewrite Hit in Hidle1.
  unfold exec. rewrite (bind_run _ _ _ _ _ Hrun), Hrun, Hmsg. cbn [snd].
  split; [done|].
  match goal with |- context [exec _ ?w0] => set (w4 := w0) end.
  assert (Hs4 : ∃ sock4, sockets w4 !! s = Some sock4 ∧
            ldap sock4 = Some
              {| ldap_id := ldap_id l;
                 ldap_messageID := fst (getNextMessageID l);
                 ldap_messages := ∅ |}).
  { subst w4. cbn [sockets set_sockets].
    rewrite lookup_alter_eq, Hss2, lookup_insert_eq. cbn.
    eexists. split; [done|]. cbn. rewrite Hemp, delete_insert_eq.
    by rewrite delete_empty. }
  destruct Hs4 as (sock4 & Hs4 & Hl4).
  unfold exec.
  rewrite (_updateIdle_false_eq w4 s _ _ Hso2 (eq_trans Hc2 Hc) Hs4 Hl4).
  cbn [snd]. subst w4. cbn [idleTimeout _idleTimer set_sockets ldap_messages].
  rewrite Hit2, Hit, Hidle2, Hidle1, map_to_list_empty.
  rewrite bool_decide_eq_true_2 by done.
  eexists. split; [reflexivity|]. cbn. by rewrite lookup_insert_eq.
Qed.

Lemma idle_timer_follows_the_table_witness :
  _idleTimer (exec (_sendSocket (compare_request ["cn=a"] "sn" "b" [] 0)
                                CMP_EXPECT None (CompareCb 7))
                   (connected_client idle_options)) = None ∧
  ∃ h,
    _idleTimer (exec (_sendSocket (compare_request ["cn=a"] "sn" "b" [] 0)
                                  CMP_EXPECT None (CompareCb 7) ;;
                      onMessage 0 (Result (compare_response 1 6 [])))
                     (connected_client idle_options)) = Some h ∧
    timers (exec (_sendSocket (compare_request ["cn=a"] "sn" "b" [] 0)
                              CMP_EXPECT None (CompareCb 7) ;;
                  onMessage 0 (Result (compare_response 1 6 [])))
                 (connected_client idle_options)) !! h =
      Some (IdleTimeout, idleTimeout (connected_client idle_options)).
Proof.
  apply (idle_timer_follows_the_table (connected_client idle_options) 0
           (fresh_socket true false) fresh_ldap
           (compare_request ["cn=a"] "sn" "b" [] 0) CMP_EXPECT None
           (CompareCb 7) (Result (compare_response 1 6 []))).
  - vm_compute; reflexivity.
  - vm_compute; reflexivity.
  - vm_compute; reflexivity.
  - reflexivity.
  - reflexivity.
  - reflexivity.
  - vm_compute. discriminate.
  - reflexivity.
  - reflexivity.
  - reflexivity.
  - left. reflexivity.
Defined.

(** A request and its final response: the request is written with the
    next id; its sink or, as the sink has not been handed over yet, its
    callback for an error, is told what the response says; and afterwards
    the table of the socket is what it was before (the id was free), the
    counter being at the id that was used. *)
Theorem exchange_restores_the_table (w : World) (s : nat) (sock : Socket)
  (l : Ldap) (m : Message) (e : Expect) (em : option nat) (cb : Callback)
  (msg : Msg) :
  socket w = Some s → sockets w !! s = Some sock → ldap sock = Some l →
  write_throws sock = false →
  ldap_messages l !! fst (getNextMessageID l) = None →
  is_abandon e = false →
  msg_id msg = Some (fst (getNextMessageID l)) →
  is_search_event msg = false →
  (msg_controls msg ≫= paged_cookie) = None ∨
    Forall (λ c, is_paged c = false) (controls m) →
  ∃ ev sock' l',
    result (_sendSocket m e em cb ;; onMessage s msg) w = Ok tt ∧
    trace (exec (_sendSocket m e em cb ;; onMessage s msg) w) =
      trace w ++
      [Wrote s {| messageID := fst (getNextMessageID l);
                  protocolOp := protocolOp m; controls := controls m |};
       ev] ∧
    (∀ r, msg = Result r → not_expected e (status r) = false →
          ev = end_to em cb r) ∧
    (∀ err, verdict e msg = ("error", AErr err) →
            ev = error_to em false cb err) ∧
    sockets (exec (_sendSocket m e em cb ;; onMessage s msg) w) !! s =
      Some sock' ∧
    ldap sock' = Some l' ∧
    ldap_messages l' = ldap_messages l ∧
    ldap_messageID l' = fst (getNextMessageID l).
Proof.
  intros Hsock Hs Hl Hw Hfresh Hab Hid Hse Hun.
  destruct (exchange_run w s sock l m e em cb msg Hsock Hs Hl Hw Hab Hid Hse Hun)
    as (w1 & w2 & Hrun & Hidle1 & Hmsg & Htr2 & Hso2 & Hc2 & Hit2 &
        Hidle2 & Hss2).
  exists (completion e em false cb msg). unfold result, exec.
  rewrite (bind_run _ _ _ _ _ Hrun), Hmsg. cbn [fst snd].
  match goal with |- context [exec _ ?w0] => set (w4 := w0) end.
  pose proof (frames_updateIdle sockets (λ _ _, eq_refl) (λ _ _, eq_refl)
                (λ _ _, eq_refl) false w4) as Hsk.
  pose proof (frames_updateIdle trace (λ _ _, eq_refl) (λ _ _, eq_refl)
                (λ _ _, eq_refl) false w4) as Htr.
  unfold exec. cbn [trace sockets set_trace]. rewrite Hsk, Htr. subst w4.
  cbn [trace sockets set_sockets]. rewrite Htr2.
  rewrite lookup_alter_eq, Hss2, lookup_insert_eq. cbn.
  do 2 eexists. split; [done|]. split; [by rewrite <- app_assoc|].
  split; [by intros r -> Hr; apply completion_end|].
  split; [by intros err Hv; apply completion_error|].
  split; [done|]. split; [done|]. cbn. split; [|done].
  rewrite delete_insert_eq. by apply delete_id.
Qed.

Lemma exchange_restores_the_table_witness :
  ∃ sock' l',
    result (_sendSocket (compare_request ["cn=a"] "sn" "b" [] 0) CMP_EXPECT
                        None (CompareCb 7) ;;
            onMessage 0 (Result (compare_response 1 6 [])))
           (connected_client plain_options) = Ok tt ∧
    trace (exec (_sendSocket (compare_request ["cn=a"] "sn" "b" [] 0)
                             CMP_EXPECT None (CompareCb 7) ;;
                 onMessage 0 (Result (compare_response 1 6 [])))
                (connected_client plain_options)) =
      trace (connected_client plain_options) ++
      [Wrote 0 {| messageID := fst (getNextMessageID fresh_ldap);
                  protocolOp :=
                    protocolOp (compare_request ["cn=a"] "sn" "b" [] 0);
                  controls :=
                    controls (compare_request ["cn=a"] "sn" "b" [] 0) |};
       Called 7 [ANull; ABool true;
                 AMsg (Result (compare_response 1 6 []))]] ∧
    sockets (exec (_sendSocket (compare_request ["cn=a"] "sn" "b" [] 0)
                               CMP_EXPECT None (CompareCb 7) ;;
                   onMessage 0 (Result (compare_response 1 6 [])))
                  (connected_client plain_options)) !! 0%nat = Some sock' ∧
    ldap sock' = Some l' ∧
    ldap_messages l' = ldap_messages fresh_ldap ∧
    ldap_messageID l' = fst (getNextMessageID fresh_ldap).
Proof.
  destruct (exchange_restores_the_table (connected_client plain_options) 0
              (fresh_socket true false) fresh_ldap
              (compare_request ["cn=a"] "sn" "b" [] 0) CMP_EXPECT None
              (CompareCb 7) (Result (compare_response 1 6 [])))
    as (ev & sock' & l' & Hres & Htr & Hend & _ & Hrest).
  - vm_compute; reflexivity.
  - vm_compute; reflexivity.
  - reflexivity.
  - reflexivity.
  - reflexivity.
  - reflexivity.
  - reflexivity.
  - reflexivity.
  - left. reflexivity.
  - exists sock', l'. split; [exact Hres|]. split; [|exact Hrest].
    rewrite Htr. by rewrite (Hend _ eq_refl eq_refl).
Defined.

(** ** Flushing the queue when the connection is up *)

Lemma flush_ret_run w : flush (λ _, ret tt) w = (Ok tt, exec (flush (λ _, ret tt)) w).
Proof.
  unfold exec, flush. rewrite !bind_gets.
  destruct (_timer (queue w));
    unfold clearTimeout, set_q_timer, set_q_queue, bind, modify, ret;
    cbn beta iota; by rewrite forEach_ret.
Qed.

Lemma _send_steady_run d w s sock l m e em cb :
  _queue (queue w) = [] → connected w = true →
  socket w = Some s → sockets w !! s = Some sock → ldap sock = Some l →
  write_throws sock = false →
  ∃ w' sock' l',
    _send d m e em cb false w = (Ok tt, w') ∧
    trace w' = trace w ++
      [Wrote s {| messageID := fst (getNextMessageID l);
                  protocolOp := protocolOp m; controls := controls m |}] ∧
    _queue (queue w') = [] ∧ connected w' = true ∧ socket w' = Some s ∧
    sockets w' !! s = Some sock' ∧ ldap sock' = Some l' ∧
    write_throws sock' = false ∧
    ldap_messageID l' = fst (getNextMessageID l).
Proof.
  intros Hq Hc Hsock Hs Hl Hw.
  rewrite (_send_steady d m e em cb w) by (split_and!; eauto).
  rewrite (bind_run _ _ _ _ _ (flush_ret_run w)).
  destruct (flush_ret_fields w)
    as (Hq1 & _ & _ & _ & Htr1 & Hso1 & Hc1 & Hss1 & _).
  set (w1 := exec (flush (λ _, ret tt)) w) in *. clearbody w1.
  assert (Hs1 : sockets w1 !! s = Some sock) by (by rewrite Hss1).
  destruct (_sendSocket_written w1 s sock l m e em cb)
    as (w' & Hrun & Htr & Hso & Hc' & Hq' & _ & _ & _ & Hss & _);
    [congruence|done|done|done|].
  exists w'. do 2 eexists. split; [exact Hrun|].
  rewrite Htr, Htr1, Hq', Hq1, Hc', Hc1, Hc, Hso, Hso1, Hsock, Hss.
  rewrite lookup_insert_eq. by split_and!.
Qed.

Lemma forEach_send_in_order d es w s sock l :
  _queue (queue w) = [] → connected w = true →
  socket w = Some s → sockets w !! s = Some sock → ldap sock = Some l →
  write_throws sock = false →
  ldap_messageID l + Z.of_nat (length es) < MAX_MSGID →
  ∃ w',
    forEach es
      (λ q, _send d (qe_msg q) (qe_expect q) (qe_emitter q) (qe_cb q) false) w =
      (Ok tt, w') ∧
    trace w' = trace w ++
      imap (λ i q, Wrote s {| messageID := ldap_messageID l + 1 + Z.of_nat i;
                              protocolOp := protocolOp (qe_msg q);
                              controls := controls (qe_msg q) |}) es ∧
    _queue (queue w') = [] ∧ connected w' = true ∧ socket w' = Some s.
Proof.
  revert w sock l. induction es as [|q es IH]; intros w sock l Hq Hc Hsock Hs Hl Hw Hid.
  - exists w. cbn. by rewrite app_nil_r.
  - cbn [forEach].
    destruct (_send_steady_run d w s sock l (qe_msg q) (qe_expect q)
                (qe_emitter q) (qe_cb q) Hq Hc Hsock Hs Hl Hw)
      as (w1 & sock1 & l1 & Hrun & Htr1 & Hq1 & Hc1 & Hso1 & Hs1 & Hl1 & Hw1 & Hid1).
    rewrite (bind_run _ _ _ _ _ Hrun).
    assert (Hmid : fst (getNextMessageID l) = ldap_messageID l + 1).
    { rewrite getNextMessageID_fst. cbn [length] in Hid.
      destruct (Z.leb_spec MAX_MSGID (ldap_messageID l + 1)); lia. }
    destruct (IH w1 sock1 l1 Hq1 Hc1 Hso1 Hs1 Hl1 Hw1)
      as (w' & Hloop & Htr & Hq' & Hc' & Hso').
    { rewrite Hid1, Hmid. cbn [length] in Hid. lia. }
    exists w'. split; [exact Hloop|]. split; [|done].
    rewrite Htr, Htr1, Hid1, Hmid, <- app_assoc. cbn [imap app].
    rewrite Z.add_0_r. do 2 f_equal. apply imap_ext. intros i x _. cbn.
    do 2 f_equal. lia.
Qed.

Lemma prefix_ldap_id_run w s sock l :
  sockets w !! s = Some sock → ldap sock = Some l →
  prefix_ldap_id s w =
    (Ok tt,
     set_sockets
       (alter (λ sock,
          {| ldap := Some {| ldap_id := pretty (nextClientId (CLIENT_ID w)).1
                                          +:+ "__" +:+ ldap_id l;
                             ldap_messageID := ldap_messageID l;
                             ldap_messages := ldap_messages l |};
             unbindMessageID := unbindMessageID sock;
             writable := writable sock; write_throws := write_throws sock;
             pendingWrites := pendingWrites sock |}) s)
       (set_CLIENT_ID (nextClientId (CLIENT_ID w)).2 w)).
Proof.
  intros Hs Hl. unfold prefix_ldap_id. rewrite bind_gets.
  destruct (nextClientId (CLIENT_ID w)) as [id c'] eqn:Hid.
  rewrite bind_modify.
  assert (Hs1 : sockets (set_CLIENT_ID c' w) !! s = Some sock) by done.
  by rewrite (bind_run _ _ _ _ _ (conn_ldap_run _ _ _ _ Hs1 Hl)).
Qed.

(** When the socket being dialled connects, ['connect'] is emitted and
    then every queued request is written to it, oldest first, with
    consecutive ids starting after the counter of the socket; the queue is
    empty afterwards and the client connected. *)
Theorem queued_requests_go_out_in_order (w : World) (s : nat)
  (sock : Socket) (l : Ldap) :
  dialing w = Some s → sockets w !! s = Some sock → ldap sock = Some l →
  write_throws sock = false →
  from_option running false (head (retries w)) = true →
  ldap_messageID l + Z.of_nat (length (_queue (queue w))) < MAX_MSGID →
  result onConnect w = Ok tt ∧
  trace (exec onConnect w) =
    trace w ++
    ClientEmit "connect" [ASocket s] ::
    imap (λ i q, Wrote s {| messageID := ldap_messageID l + 1 + Z.of_nat i;
                            protocolOp := protocolOp (qe_msg q);
                            controls := controls (qe_msg q) |})
         (_queue (queue w)) ∧
  _queue (queue (exec onConnect w)) = [] ∧
  connected (exec onConnect w) = true ∧
  socket (exec onConnect w) = Some s.
Proof.
  intros Hd Hs Hl Hw Hrun Hid. unfold result, exec, onConnect.
  rewrite bind_gets, Hd, bind_modify.
  set (w1 := set_sockets _ w).
  assert (Hs1 : sockets w1 !! s = Some
            {| ldap := ldap sock; unbindMessageID := unbindMessageID sock;
               writable := true; write_throws := write_throws sock;
               pendingWrites := pendingWrites sock |}).
  { subst w1. cbn. by rewrite lookup_alter_eq, Hs. }
  rewrite (bind_run _ _ _ _ _ (prefix_ldap_id_run w1 s _ l Hs1 Hl)).
  rewrite bind_modify, bind_gets.
  subst w1. cbn [retries set_socket set_sockets set_CLIENT_ID]. rewrite Hrun.
  cbn [when]. set (w1 := set_sockets _ w) in *.
  rewrite !bind_modify. unfold emit. rewrite bind_modify.
  unfold _flushQueue. rewrite flush_forEach.
  match goal with |- context [exec _ ?w0] => set (w5 := w0) end.
  destruct (flush_ret_fields w5)
    as (Hq6 & _ & _ & _ & Htr6 & Hso6 & Hc6 & Hss6 & _).
  set (w6 := exec (flush (λ _, ret tt)) w5) in *.
  set (l' := {| ldap_id := pretty (nextClientId (CLIENT_ID w1)).1
                             +:+ "__" +:+ ldap_id l;
                ldap_messageID := ldap_messageID l;
                ldap_messages := ldap_messages l |}).
  assert (Hs6 : sockets w6 !! s = Some
            {| ldap := Some l'; unbindMessageID := unbindMessageID sock;
               writable := true; write_throws := write_throws sock;
               pendingWrites := pendingWrites sock |}).
  { rewrite Hss6. subst w5.
    cbn [sockets set_trace set_connected set_connecting set_retries
         set_socket set_sockets set_CLIENT_ID].
    by rewrite lookup_alter_eq, Hs1. }
  change (queue w5) with (queue w).
  destruct (forEach_send_in_order call_depth (_queue (queue w)) w6 s _ l'
              Hq6 Hc6 Hso6 Hs6 eq_refl Hw Hid)
    as (w' & Hloop & Htr & Hq' & Hc' & Hso').
  rewrite Hloop. cbn [fst snd]. split; [done|]. split; [|done].
  rewrite Htr, Htr6. subst w5. cbn. by rewrite <- app_assoc.
Qed.

Lemma queued_requests_go_out_in_order_witness :
  result onConnect two_queued = Ok tt ∧
  trace (exec onConnect two_queued) =
    trace two_queued ++
    ClientEmit "connect" [ASocket 0] ::
    imap (λ i q, Wrote 0 {| messageID :=
                              ldap_messageID dialled_ldap + 1 + Z.of_nat i;
                            protocolOp := protocolOp (qe_msg q);
                            controls := controls (qe_msg q) |})
         (_queue (queue two_queued)) ∧
  _queue (queue (exec onConnect two_queued)) = [] ∧
  connected (exec onConnect two_queued) = true ∧
  socket (exec onConnect two_queued) = Some 0%nat.
Proof.
  apply (queued_requests_go_out_in_order two_queued 0
           dialled_socket dialled_ldap); vm_compute; reflexivity.
Defined.

(** ** unbind *)

(** [unbind] on a connected client writes an UnbindRequest and leaves
    the client connected.  When the write is flushed the socket records
    the id of the unbind, the client is marked disconnected and the socket
    is ended; the callback has not been called by then, and the entry of
    the unbind waits in the table for the close handler. *)
Theorem unbind_disconnects_after_the_write (w : World) (s : nat)
  (sock : Socket) (l : Ldap) (cb : option Callback) :
  _queue (queue w) = [] → connected w = true →
  socket w = Some s → sockets w !! s = Some sock → ldap sock = Some l →
  write_throws sock = false → pendingWrites sock = [] →
  result (unbind cb ;; onFlushed s) w = Ok tt ∧
  trace (exec (unbind cb) w) =
    trace w ++
    [Wrote s {| messageID := fst (getNextMessageID l);
                protocolOp := UnbindRequest; controls := [] |}] ∧
  connected (exec (unbind cb) w) = true ∧
  trace (exec (unbind cb ;; onFlushed s) w) =
    trace w ++
    [Wrote s {| messageID := fst (getNextMessageID l);
                protocolOp := UnbindRequest; controls := [] |};
     Ended s] ∧
  connected (exec (unbind cb ;; onFlushed s) w) = false ∧
  socket (exec (unbind cb ;; onFlushed s) w) = Some s ∧
  ∃ sock' l' a tm,
    sockets (exec (unbind cb ;; onFlushed s) w) !! s = Some sock' ∧
    unbindMessageID sock' = Some (fst (getNextMessageID l)) ∧
    writable sock' = false ∧ ldap sock' = Some l' ∧
    ldap_messages l' !! fst (getNextMessageID l) = Some a ∧
    acts (exec (unbind cb ;; onFlushed s) w) !! a =
      Some (sent s unbind_request (fst (getNextMessageID l)) ExpectUnbind None
                 (default NoopCb cb) tm).
Proof.
  intros Hq Hc Hsock Hs Hl Hw Hpend.
  assert (Hub : unbind cb w =
    (flush (λ _, ret tt) ;;
     _sendSocket unbind_request ExpectUnbind None (default NoopCb cb)) w).
  { unfold unbind. rewrite bind_gets, Hsock.
    apply _send_steady. split_and!; eauto. }
  destruct (flush_ret_fields w)
    as (Hq1 & _ & _ & _ & Htr1 & Hso1 & Hc1 & Hss1 & _).
  rewrite (bind_run _ _ _ _ _ (flush_ret_run w)) in Hub.
  set (w1 := exec (flush (λ _, ret tt)) w) in *. clearbody w1.
  assert (Hs1 : sockets w1 !! s = Some sock) by (by rewrite Hss1).
  destruct (_sendSocket_written w1 s sock l unbind_request ExpectUnbind None
              (default NoopCb cb))
    as (w2 & Hrun & Htr & Hso & Hc' & _ & _ & _ & Ha & Hss & _);
    [congruence|done|done|done|].
  rewrite Hrun in Hub. unfold result, exec.
  rewrite (bind_run _ _ _ _ _ Hub), Hub. cbn [snd].
  match type of Hss with _ = <[s := ?x]> _ => set (sock2 := x) in * end.
  assert (Hs2 : sockets w2 !! s = Some sock2) by (by rewrite Hss, lookup_insert_eq).
  unfold onFlushed.
  rewrite (bind_run _ _ _ _ _ (get_socket_run _ _ _ Hs2)).
  cbn [pendingWrites sock2]. rewrite Hpend. cbn [app].
  rewrite bind_modify. unfold writeCallback.
  match goal with |- context [bind (activation _) _ ?w0] => set (w3 := w0) end.
  assert (Ha3 : acts w3 !! next w1 = Some
            (sent s unbind_request (fst (getNextMessageID l)) ExpectUnbind None
                  (default NoopCb cb)
                  (if timeout w1 =? 0 then None else Some (S (next w1)))))
    by (subst w3; cbn [acts set_sockets]; by rewrite Ha, lookup_insert_eq).
  rewrite (bind_run _ _ _ _ _ (activation_run _ _ _ Ha3)).
  cbn [a_expect sent a_conn a_message messageID].
  rewrite !bind_modify. unfold end_socket, emit. rewrite bind_modify.
  unfold modify. cbn [fst snd].
  subst w3.
  cbn [trace connected socket sockets acts set_sockets set_trace set_connected].
  rewrite !lookup_alter_eq, Hs2. cbn [fmap option_fmap option_map].
  rewrite Htr, Htr1, Hso, Hso1, Hsock, Hc', Hc1, Hc.
  split; [done|]. split; [done|]. split; [done|].
  split; [by rewrite <- app_assoc|]. split; [done|]. split; [done|].
  do 4 eexists. split; [reflexivity|]. cbn.
  split; [done|]. split; [done|]. split; [done|]. split.
  - cbn. by rewrite lookup_insert_eq.
  - rewrite Ha. by rewrite lookup_insert_eq.
Qed.

Lemma unbind_disconnects_after_the_write_witness :
  result (unbind (Some (UserCb 9)) ;; onFlushed 0)
         (connected_client plain_options) = Ok tt ∧
  trace (exec (unbind (Some (UserCb 9))) (connected_client plain_options)) =
    trace (connected_client plain_options) ++
    [Wrote 0 {| messageID := fst (getNextMessageID fresh_ldap);
                protocolOp := UnbindRequest; controls := [] |}] ∧
  connected (exec (unbind (Some (UserCb 9))) (connected_client plain_options))
    = true ∧
  trace (exec (unbind (Some (UserCb 9)) ;; onFlushed 0)
              (connected_client plain_options)) =
    trace (connected_client plain_options) ++
    [Wrote 0 {| messageID := fst (getNextMessageID fresh_ldap);
                protocolOp := UnbindRequest; controls := [] |};
     Ended 0] ∧
  connected (exec (unbind (Some (UserCb 9)) ;; onFlushed 0)
                  (connected_client plain_options)) = false ∧
  socket (exec (unbind (Some (UserCb 9)) ;; onFlushed 0)
               (connected_client plain_options)) = Some 0%nat ∧
  ∃ sock' l' a tm,
    sockets (exec (unbind (Some (UserCb 9)) ;; onFlushed 0)
                  (connected_client plain_options)) !! 0%nat = Some sock' ∧
    unbindMessageID sock' = Some (fst (getNextMessageID fresh_ldap)) ∧
    writable sock' = false ∧ ldap sock' = Some l' ∧
    ldap_messages l' !! fst (getNextMessageID fresh_ldap) = Some a ∧
    acts (exec (unbind (Some (UserCb 9)) ;; onFlushed 0)
               (connected_client plain_options)) !! a =
      Some (sent 0 unbind_request (fst (getNextMessageID fresh_ldap))
                 ExpectUnbind None (default NoopCb (Some (UserCb 9))) tm).
Proof.
  apply (unbind_disconnects_after_the_write (connected_client plain_options) 0
           (fresh_socket true false) fresh_ldap (Some (UserCb 9)));
    vm_compute; reflexivity.
Defined.

(** ** When the write is flushed *)

Lemma _send_then_flushed d w s sock l m e em cb :
  _queue (queue w) = [] → connected w = true →
  socket w = Some s → sockets w !! s = Some sock → ldap sock = Some l →
  write_throws sock = false → pendingWrites sock = [] →
  ∃ w2 w3 a tm,
    _send d m e em cb false w = (Ok tt, w2) ∧
    onFlushed s w2 = writeCallback a w3 ∧
    trace w2 = trace w ++
      [Wrote s {| messageID := fst (getNextMessageID l);
                  protocolOp := protocolOp m; controls := controls m |}] ∧
    trace w3 = trace w2 ∧ connected w3 = true ∧ socket w3 = Some s ∧
    acts w3 !! a = Some (sent s m (fst (getNextMessageID l)) e em cb tm) ∧
    sockets w3 !! s =
      Some {| ldap := Some {| ldap_id := ldap_id l;
                              ldap_messageID := fst (getNextMessageID l);
                              ldap_messages :=
                                <[fst (getNextMessageID l) := a]>
                                  (ldap_messages l) |};
              unbindMessageID := unbindMessageID sock;
              writable := writable sock; write_throws := false;
              pendingWrites := [] |}.
Proof.
  intros Hq Hc Hsock Hs Hl Hw Hpend.
  rewrite (_send_steady d m e em cb w) by (split_and!; eauto).
  destruct (flush_ret_fields w)
    as (Hq1 & _ & _ & _ & Htr1 & Hso1 & Hc1 & Hss1 & _).
  rewrite (bind_run _ _ _ _ _ (flush_ret_run w)).
  set (w1 := exec (flush (λ _, ret tt)) w) in *. clearbody w1.
  assert (Hs1 : sockets w1 !! s = Some sock) by (by rewrite Hss1).
  destruct (_sendSocket_written w1 s sock l m e em cb)
    as (w2 & Hrun & Htr & Hso & Hc' & _ & _ & _ & Ha & Hss & _);
    [congruence|done|done|done|].
  match type of Hss with _ = <[s := ?x]> _ => set (sock2 := x) in * end.
  assert (Hs2 : sockets w2 !! s = Some sock2) by (by rewrite Hss, lookup_insert_eq).
  eexists w2, _, (next w1), _. split; [exact Hrun|]. split.
  { unfold onFlushed.
    rewrite (bind_run _ _ _ _ _ (get_socket_run _ _ _ Hs2)).
    cbn [pendingWrites sock2]. rewrite Hpend. cbn [app].
    rewrite bind_modify. reflexivity. }
  cbn [trace connected socket acts sockets set_sockets].
  rewrite lookup_alter_eq, Hs2, Ha, lookup_insert_eq. cbn.
  rewrite Htr, Htr1, Hc', Hc1, Hso, Hso1, Hw. by split_and!.
Qed.

(** [abandon] on a connected client writes an AbandonRequest; its
    callback is called, with [null], as soon as the write is flushed and
    not before.  The entry of the abandon is still in the table then. *)
Theorem abandon_completes_on_flush (w : World) (s : nat) (sock : Socket)
  (l : Ldap) (id : Z) (cs : list Control) (k : nat) :
  _queue (queue w) = [] → connected w = true →
  socket w = Some s → sockets w !! s = Some sock → ldap sock = Some l →
  write_throws sock = false → pendingWrites sock = [] →
  trace (exec (abandon id cs k) w) =
    trace w ++
    [Wrote s {| messageID := fst (getNextMessageID l);
                protocolOp := AbandonRequest id; controls := cs |}] ∧
  result (abandon id cs k ;; onFlushed s) w = Ok tt ∧
  trace (exec (abandon id cs k ;; onFlushed s) w) =
    trace w ++
    [Wrote s {| messageID := fst (getNextMessageID l);
                protocolOp := AbandonRequest id; controls := cs |};
     Called k [ANull]] ∧
  ∃ sock' l' a,
    sockets (exec (abandon id cs k ;; onFlushed s) w) !! s = Some sock' ∧
    ldap sock' = Some l' ∧
    ldap_messages l' !! fst (getNextMessageID l) = Some a.
Proof.
  intros Hq Hc Hsock Hs Hl Hw Hpend. unfold abandon.
  destruct (_send_then_flushed call_depth w s sock l
              {| messageID := 0; protocolOp := AbandonRequest id; controls := cs |}
              ExpectAbandon None (UserCb k) Hq Hc Hsock Hs Hl Hw Hpend)
    as (w2 & w3 & a & tm & Hrun & Hfl & Htr2 & Htr3 & _ & _ & Ha3 & Hs3).
  unfold result, exec. rewrite (bind_run _ _ _ _ _ Hrun), Hrun, Hfl.
  cbn [snd]. split; [done|].
  unfold writeCallback.
  rewrite (bind_run _ _ _ _ _ (activation_run _ _ _ Ha3)).
  cbn [a_expect sent a_callback call call_event lift_event emit modify fst snd
       trace sockets set_trace].
  rewrite Htr3, Htr2, <- app_assoc. split; [done|]. split; [done|].
  do 3 eexists. split; [exact Hs3|]. split; [done|]. cbn.
  by rewrite lookup_insert_eq.
Qed.

Lemma abandon_completes_on_flush_witness :
  trace (exec (abandon 5 [] 8) (connected_client plain_options)) =
    trace (connected_client plain_options) ++
    [Wrote 0 {| messageID := fst (getNextMessageID fresh_ldap);
                protocolOp := AbandonRequest 5; controls := [] |}] ∧
  result (abandon 5 [] 8 ;; onFlushed 0) (connected_client plain_options)
    = Ok tt ∧
  trace (exec (abandon 5 [] 8 ;; onFlushed 0)
              (connected_client plain_options)) =
    trace (connected_client plain_options) ++
    [Wrote 0 {| messageID := fst (getNextMessageID fresh_ldap);
                protocolOp := AbandonRequest 5; controls := [] |};
     Called 8 [ANull]] ∧
  ∃ sock' l' a,
    sockets (exec (abandon 5 [] 8 ;; onFlushed 0)
                  (connected_client plain_options)) !! 0%nat = Some sock' ∧
    ldap sock' = Some l' ∧
    ldap_messages l' !! fst (getNextMessageID fresh_ldap) = Some a.
Proof.
  apply (abandon_completes_on_flush (connected_client plain_options) 0
           (fresh_socket true false) fresh_ldap 5 [] 8);
    vm_compute; reflexivity.
Defined.

(** [search] on a connected client writes the SearchRequest and makes a
    new sink for it.  The callback is not called before the write is
    flushed; then it is called once, with [null] and the sink, and from
    then on the request counts as having handed its sink over. *)
Theorem search_hands_over_its_emitter (parse : string → option DN)
  (w : World) (s : nat) (sock : Socket) (l : Ldap) (base : string)
  (baseObject : DN) (options : SearchOptions) (cs : list Control) (k : nat) :
  _queue (queue w) = [] → connected w = true →
  socket w = Some s → sockets w !! s = Some sock → ldap sock = Some l →
  write_throws sock = false → pendingWrites sock = [] →
  parse base = Some baseObject →
  trace (exec (search parse base options cs k false) w) =
    trace w ++
    [Wrote s {| messageID := fst (getNextMessageID l);
                protocolOp := protocolOp (search_request baseObject options cs);
                controls := cs |}] ∧
  result (search parse base options cs k false ;; onFlushed s) w = Ok tt ∧
  trace (exec (search parse base options cs k false ;; onFlushed s) w) =
    trace w ++
    [Wrote s {| messageID := fst (getNextMessageID l);
                protocolOp := protocolOp (search_request baseObject options cs);
                controls := cs |};
     Called k [ANull; AEmitter (next w)]] ∧
  ∃ sock' l' a act,
    sockets (exec (search parse base options cs k false ;; onFlushed s) w) !! s
      = Some sock' ∧
    ldap sock' = Some l' ∧
    ldap_messages l' !! fst (getNextMessageID l) = Some a ∧
    acts (exec (search parse base options cs k false ;; onFlushed s) w) !! a
      = Some act ∧
    a_conn act = s ∧ a_expect act = Codes [LDAP_SUCCESS] ∧
    a_emitter act = Some (next w) ∧ a_callback act = UserCb k ∧
    a_sentEmitter act = true ∧
    messageID (a_message act) = fst (getNextMessageID l).
Proof.
  intros Hq Hc Hsock Hs Hl Hw Hpend Hp.
  assert (Hsearch : search parse base options cs k false w =
    _send call_depth (search_request baseObject options cs)
          (Codes [LDAP_SUCCESS]) (Some (next w)) (UserCb k) false
          (set_next (S (next w)) w)).
  { unfold search, parse_dn. rewrite Hp, bind_ret, bind_gets, bind_modify.
    reflexivity. }
  destruct (_send_then_flushed call_depth (set_next (S (next w)) w) s sock l
              (search_request baseObject options cs)
              (Codes [LDAP_SUCCESS]) (Some (next w)) (UserCb k)
              Hq Hc Hsock Hs Hl Hw Hpend)
    as (w2 & w3 & a & tm & Hrun & Hfl & Htr2 & Htr3 & _ & _ & Ha3 & Hs3).
  rewrite <- Hsearch in Hrun.
  unfold result, exec. rewrite (bind_run _ _ _ _ _ Hrun), Hrun, Hfl.
  cbn [snd]. split; [done|].
  unfold writeCallback.
  rewrite (bind_run _ _ _ _ _ (activation_run _ _ _ Ha3)).
  cbn [a_expect sent a_emitter a_callback].
  unfold set_a_sentEmitter. rewrite bind_modify.
  cbn [call call_event lift_event emit modify fst snd trace sockets acts
       set_trace set_acts].
  rewrite Htr3, Htr2, <- app_assoc. split; [done|]. split; [done|].
  do 4 eexists. split; [exact Hs3|]. split; [done|]. split.
  { cbn. by rewrite lookup_insert_eq. }
  rewrite lookup_alter_eq, Ha3. cbn. by split_and!.
Qed.

Lemma search_hands_over_its_emitter_witness :
  trace (exec (search parse_commas "dc=x" all_options [] 3 false)
              (connected_client plain_options)) =
    trace (connected_client plain_options) ++
    [Wrote 0 {| messageID := fst (getNextMessageID fresh_ldap);
                protocolOp :=
                  protocolOp (search_request ["dc=x"] all_options []);
                controls := [] |}] ∧
  result (search parse_commas "dc=x" all_options [] 3 false ;; onFlushed 0)
         (connected_client plain_options) = Ok tt ∧
  trace (exec (search parse_commas "dc=x" all_options [] 3 false ;;
               onFlushed 0)
              (connected_client plain_options)) =
    trace (connected_client plain_options) ++
    [Wrote 0 {| messageID := fst (getNextMessageID fresh_ldap);
                protocolOp :=
                  protocolOp (search_request ["dc=x"] all_options []);
                controls := [] |};
     Called 3 [ANull; AEmitter (next (connected_client plain_options))]] ∧
  ∃ sock' l' a act,
    sockets (exec (search parse_commas "dc=x" all_options [] 3 false ;;
                   onFlushed 0)
                  (connected_client plain_options)) !! 0%nat = Some sock' ∧
    ldap sock' = Some l' ∧
    ldap_messages l' !! fst (getNextMessageID fresh_ldap) = Some a ∧
    acts (exec (search parse_commas "dc=x" all_options [] 3 false ;;
                onFlushed 0)
               (connected_client plain_options)) !! a = Some act ∧
    a_conn act = 0%nat ∧ a_expect act = Codes [LDAP_SUCCESS] ∧
    a_emitter act = Some (next (connected_client plain_options)) ∧
    a_callback act = UserCb 3 ∧ a_sentEmitter act = true ∧
    messageID (a_message act) = fst (getNextMessageID fresh_ldap).
Proof.
  apply (search_hands_over_its_emitter parse_commas
           (connected_client plain_options) 0 (fresh_socket true false)
           fresh_ldap "dc=x" ["dc=x"] all_options [] 3);
    vm_compute; reflexivity.
Defined.

(** An error that ends a request with a sink goes to the sink, as the
    event ['error'], when the sink has been handed to the caller, and to
    the callback when it has not. *)
Theorem error_goes_to_whoever_listens (w : World) (a : nat)
  (act : Activation) (msg : Msg) (sock : Socket) (l : Ldap) (em : nat)
  (err : Err) :
  acts w !! a = Some act →
  sockets w !! a_conn act = Some sock → ldap sock = Some l →
  socket_ok w →
  is_abandon (a_expect act) = false → is_search_event msg = false →
  unpaged act msg →
  a_emitter act = Some em →
  verdict (a_expect act) msg = ("error", AErr err) →
  result (messageCallback a msg) w = Ok tt ∧
  trace (exec (messageCallback a msg) w) =
    trace w ++
    [if a_sentEmitter act then Emitted em "error" (AErr err)
     else failure err (a_callback act)].
Proof.
  intros Ha Hs Hl Hok Hab Hse Hun Hem Hv.
  assert (Hev : done_event act (verdict (a_expect act) msg).1
                               (verdict (a_expect act) msg).2 =
                Ok (if a_sentEmitter act then Emitted em "error" (AErr err)
                    else failure err (a_callback act))).
  { rewrite Hv. unfold done_event. rewrite Hem. cbn.
    destruct (a_sentEmitter act); [done|]. by destruct (a_callback act). }
  destruct (messageCallback_terminal w a act msg sock l _
              Ha Hs Hl Hok Hab Hse Hun Hev) as (f1 & x & f2 & n & Hmc).
  unfold result, exec. by rewrite Hmc.
Qed.

Lemma paged_search_sent_socket_ok : socket_ok paged_search_sent.
Proof.
  intros s Hsock. exists paged_socket, paged_ldap. split; [|reflexivity].
  vm_compute in Hsock. injection Hsock as <-. vm_compute; reflexivity.
Qed.

Lemma error_goes_to_whoever_listens_witness :
  result (messageCallback 2 (Result no_such_object)) paged_search_sent
    = Ok tt ∧
  trace (exec (messageCallback 2 (Result no_such_object)) paged_search_sent) =
    trace paged_search_sent ++
    [if a_sentEmitter paged_activation
     then Emitted 1 "error" (AErr (getError no_such_object))
     else failure (getError no_such_object) (a_callback paged_activation)].
Proof.
  apply (error_goes_to_whoever_listens paged_search_sent 2 paged_activation
           (Result no_such_object) paged_socket paged_ldap 1
           (getError no_such_object)).
  - vm_compute; reflexivity.
  - vm_compute; reflexivity.
  - reflexivity.
  - exact paged_search_sent_socket_ok.
  - reflexivity.
  - reflexivity.
  - left. reflexivity.
  - reflexivity.
  - reflexivity.
Defined.

(** ** The command line of [bin/ldapjs-add] *)

Lemma push_for_each_replicate o items file :
  push_for_each o items file = file ++ replicate (length items) o.
Proof.
  revert file. induction items as [|i items IH]; intros file; cbn.
  - by rewrite app_nil_r.
  - by rewrite IH, <- app_assoc.
Qed.

Lemma collect_args_app args file :
  collect_args args file =
    file ++ args ≫= (λ o, match o with
                          | JsonArray items => replicate (length items) o
                          | _ => [o]
                          end).
Proof.
  revert file. induction args as [|o args IH]; intros file; cbn.
  - by rewrite app_nil_r.
  - rewrite IH. destruct o; rewrite ?push_for_each_replicate;
      by rewrite <- app_assoc.
Qed.

(** The entries [ldapjs-add] takes from its arguments.  An argument
    that is an array contributes the array itself, once for each of its
    elements, and never one of its elements; any other argument
    contributes itself.  So every entry is one of the arguments, and
    nothing is left to add exactly when every argument is the empty
    array. *)
Theorem array_argument_is_added_whole (args : list Json) :
  collect_args args [] =
    args ≫= (λ o, match o with
                  | JsonArray items => replicate (length items) o
                  | _ => [o]
                  end) ∧
  (∀ o, o ∈ collect_args args [] → o ∈ args) ∧
  (file_of_args args = None ↔ Forall (λ o, o = JsonArray []) args).
Proof.
  assert (Hc := collect_args_app args []). cbn [app] in Hc.
  split; [exact Hc|]. split.
  - intros o. rewrite Hc. intros (x & Hin & Hx)%list_elem_of_bind.
    destruct x as [items| |]; try (apply list_elem_of_singleton in Hin as ->; done).
    by apply elem_of_replicate in Hin as [-> _].
  - unfold file_of_args. rewrite Hc. clear Hc.
    induction args as [|o args IH]; cbn.
    + split; [by constructor|done].
    + destruct o as [[|i items]| |]; cbn.
      * rewrite Forall_cons. destruct IH as [IH1 IH2]. split.
        -- intros H. split; [done|]. by apply IH1.
        -- intros [_ H]. by apply IH2.
      * split; [done|]. intros H. by inversion H.
      * split; [done|]. intros H. by inversion H.
      * split; [done|]. intros H. by inversion H.
Qed.
